(** * Markdown extraction engine of the NBA 2K ratings scraper

    A shallow embedding of [src/jina_scraper.py] (class [JinaNBA2KScraper]).

    Conventions of the embedding.
    - A Python [str] is a [text]: a list of characters.  Characters are the
      256 values of [ascii], read as the code points U+0000..U+00FF; the
      character classes below are Python's on that range.
    - A Python [int] is a [Z].
    - A Python exception is the [Exc] case of [res]; [try/except] is a
      [match] on it.  Conversions between [int] and [str] have CPython's
      limit of 4300 digits ([sys.get_int_max_str_digits()], which the
      program leaves at its default): beyond it [int(s)], [str(n)] and an
      f-string of [n] raise [ValueError].
    - A [dict] is an association list in insertion order; assignment to an
      existing key replaces the value in place, as in Python.
    - A regular expression is a term of [regex], run by a backtracking
      matcher with the priorities of Python's [re]: alternatives left to
      right, greedy repetition longest first, lazy repetition shortest first.
    - The network is a function from a URL to what [scrape_url] returns for
      it; the calls made and the pauses taken are recorded in a trace. *)

From Stdlib Require Import String Ascii ZArith Lia Bool Arith List.
From Stdlib Require Import DecimalString DecimalPos.
From Stdlib Require DecimalFacts DecimalN.
Import ListNotations.

Local Open Scope list_scope.

(* ================================================================== *)
(** ** Python strings *)

Definition text := list ascii.

Definition str (s : string) : text := list_ascii_of_string s.

Definition LF : ascii := ascii_of_nat 10.
Definition CR : ascii := ascii_of_nat 13.

(** [lines [l1; ...; ln]] is [l1 + "\n" + ... + "\n" + ln]. *)
Fixpoint lines (ls : list string) : text :=
  match ls with
  | [] => []
  | [l] => str l
  | l :: rest => str l ++ LF :: lines rest
  end.

Definition text_eqb (a b : text) : bool :=
  if list_eq_dec ascii_dec a b then true else false.

(** [str.isspace] on U+0000..U+00FF, which is also [\s] of a [str] pattern
    and the set removed by [str.strip()]. *)
Definition is_space (c : ascii) : bool :=
  let n := nat_of_ascii c in
  ((9 <=? n) && (n <=? 13)) || ((28 <=? n) && (n <=? 32))
  || (n =? 133) || (n =? 160).

(** [\d] of a [str] pattern on U+0000..U+00FF: the ten ASCII digits. *)
Definition is_digit (c : ascii) : bool :=
  let n := nat_of_ascii c in (48 <=? n) && (n <=? 57).

Definition is_alpha_ascii (c : ascii) : bool :=
  let n := nat_of_ascii c in
  ((65 <=? n) && (n <=? 90)) || ((97 <=? n) && (n <=? 122)).

(** [str.lower] on one character of U+0000..U+00FF.  On this range the
    lower-case form of a character is one character; beyond it [str.lower]
    can give two (U+0130): what is proved of lower-cased names is proved
    for names of this range. *)
Definition lower_char (c : ascii) : ascii :=
  let n := nat_of_ascii c in
  if ((65 <=? n) && (n <=? 90))
     || ((192 <=? n) && (n <=? 222) && negb (n =? 215))
  then ascii_of_nat (n + 32) else c.

Definition lower (s : text) : text := map lower_char s.

Fixpoint starts_with (p s : text) : bool :=
  match p, s with
  | [], _ => true
  | _ :: _, [] => false
  | a :: p', b :: s' => Ascii.eqb a b && starts_with p' s'
  end.

(** [s.find(sub)]: the index of the first occurrence; [None] stands for -1. *)
Fixpoint find_from (sub : text) (i : nat) (s : text) : option nat :=
  if starts_with sub s then Some i
  else match s with
       | [] => None
       | _ :: t => find_from sub (S i) t
       end.

Definition find (sub s : text) : option nat := find_from sub 0 s.

(** [sub in s] *)
Definition contains (sub s : text) : bool :=
  match find sub s with Some _ => true | None => false end.

(** [s.split(sep)] for a non-empty [sep]: cut at the non-overlapping
    occurrences of [sep], leftmost first.  The bound [gas] is the length of
    the text, more than the cuts it can take ([split_unfold]). *)
Fixpoint split_gas (gas : nat) (sep s : text) : list text :=
  match gas with
  | O => [s]
  | S gas' =>
      match find sep s with
      | None => [s]
      | Some i => firstn i s :: split_gas gas' sep (skipn (i + length sep) s)
      end
  end.

Definition split (sep s : text) : list text := split_gas (length s) sep s.

(** [s.replace(old, new)] for a non-empty [old]: every non-overlapping
    occurrence, leftmost first ([replace_unfold]). *)
Fixpoint replace_gas (gas : nat) (old new s : text) : text :=
  match gas with
  | O => s
  | S gas' =>
      match find old s with
      | None => s
      | Some i =>
          firstn i s ++ new ++ replace_gas gas' old new (skipn (i + length old) s)
      end
  end.

Definition replace (old new s : text) : text := replace_gas (length s) old new s.

Fixpoint lstrip (s : text) : text :=
  match s with
  | c :: t => if is_space c then lstrip t else s
  | [] => []
  end.

Definition rstrip (s : text) : text := rev (lstrip (rev s)).

(** [s.strip()] *)
Definition strip (s : text) : text := rstrip (lstrip s).

(* ================================================================== *)
(** ** Exceptions *)

Inductive exn : Type := ValueError | TypeError | IndexError | AttributeError.

Inductive res (A : Type) : Type :=
| Ret (a : A)
| Exc (e : exn).

Arguments Ret {A} a.
Arguments Exc {A} e.

Definition bind {A B : Type} (x : res A) (f : A -> res B) : res B :=
  match x with
  | Ret a => f a
  | Exc e => Exc e
  end.

Notation "x <- c1 ;; c2" := (bind c1 (fun x => c2))
  (at level 61, c1 at next level, right associativity).

(** [l[i]] *)
Definition index {A : Type} (l : list A) (i : nat) : res A :=
  match nth_error l i with
  | Some a => Ret a
  | None => Exc IndexError
  end.

Fixpoint int_acc (acc : Z) (s : text) : res Z :=
  match s with
  | [] => Ret acc
  | c :: t =>
      if is_digit c
      then int_acc (10 * acc + (Z.of_nat (nat_of_ascii c) - 48)) t
      else Exc ValueError
  end.

(** [sys.get_int_max_str_digits()], at its default. *)
Definition max_str_digits : Z := 4300.

(** [int(s)] on the strings the scraper converts: a non-empty run of at
    most [max_str_digits] digits gives its decimal value; a longer run is a
    [ValueError], and so is anything else here. *)
Definition int (s : text) : res Z :=
  match s with
  | [] => Exc ValueError
  | _ :: _ =>
      if (max_str_digits <? Z.of_nat (length s))%Z then Exc ValueError
      else int_acc 0 s
  end.

(* ================================================================== *)
(** ** Dictionaries *)

Definition dict (V : Type) := list (text * V).

Fixpoint dict_get {V : Type} (d : dict V) (k : text) : option V :=
  match d with
  | [] => None
  | (k', v) :: d' => if text_eqb k' k then Some v else dict_get d' k
  end.

(** [d[k] = v] *)
Fixpoint dict_set {V : Type} (d : dict V) (k : text) (v : V) : dict V :=
  match d with
  | [] => [(k, v)]
  | (k', v') :: d' =>
      if text_eqb k' k then (k', v) :: d' else (k', v') :: dict_set d' k v
  end.

(* ================================================================== *)
(** ** Regular expressions *)

Inductive regex : Type :=
| Eps                         (* the empty pattern *)
| Chr (c : ascii)             (* a literal character *)
| Cls (p : ascii -> bool)     (* a character class *)
| Seq (r1 r2 : regex)         (* r1 r2 *)
| Alt (r1 r2 : regex)         (* r1|r2 *)
| Star (r : regex)            (* r*   *)
| LazyStar (r : regex)        (* r*?  *)
| Grp (n : nat) (r : regex)   (* capturing group number n *)
| Ahead (r : regex)           (* (?=r) *)
| Eos.                        (* $ without MULTILINE *)

Definition Plus (r : regex) : regex := Seq r (Star r).       (* r+ *)
Definition Opt (r : regex) : regex := Alt r Eps.             (* r? *)

Fixpoint Lit (s : text) : regex :=
  match s with
  | [] => Eps
  | c :: t => Seq (Chr c) (Lit t)
  end.

Fixpoint Cat (rs : list regex) : regex :=
  match rs with
  | [] => Eps
  | r :: rest => Seq r (Cat rest)
  end.

(** The groups set so far, most recent first. *)
Definition caps := list (nat * text).

Fixpoint cap_get (g : caps) (n : nat) : option text :=
  match g with
  | [] => None
  | (n', w) :: g' => if Nat.eqb n' n then Some w else cap_get g' n
  end.

Section Matcher.
Context {A : Type}.

(** Repetition of [body], at most [n] more times; [greedy] tries another
    round before the continuation, lazy the continuation first.  A round
    counts only if it consumes a character, as every repeated pattern of
    the scraper does; [n] is the length of the text, which no sequence of
    such rounds exceeds ([star_loop_bound_enough]). *)
Definition star_loop (greedy : bool)
    (body : text -> caps -> (text -> caps -> option A) -> option A)
    (k : text -> caps -> option A) : nat -> text -> caps -> option A :=
  fix loop (n : nat) (s : text) (g : caps) : option A :=
    match n with
    | O => k s g
    | S n' =>
        let again :=
          body s g (fun s' g' =>
                      if length s' <? length s then loop n' s' g' else None) in
        if greedy
        then match again with Some x => Some x | None => k s g end
        else match k s g with Some x => Some x | None => again end
    end.
End Matcher.

(** [m r s g k]: match [r] at the front of [s] with groups [g], then run the
    continuation [k] on the rest; on failure of [k] the next alternative of
    [r] is tried.  A lookahead only tests: the groups set inside it are
    dropped (the lookahead of the scraper has none). *)
Fixpoint m (A : Type) (r : regex) (s : text) (g : caps)
    (k : text -> caps -> option A) {struct r} : option A :=
  match r with
  | Eps => k s g
  | Chr c =>
      match s with
      | x :: s' => if Ascii.eqb x c then k s' g else None
      | [] => None
      end
  | Cls p =>
      match s with
      | x :: s' => if p x then k s' g else None
      | [] => None
      end
  | Seq r1 r2 => m A r1 s g (fun s' g' => m A r2 s' g' k)
  | Alt r1 r2 =>
      match m A r1 s g k with
      | Some x => Some x
      | None => m A r2 s g k
      end
  | Star r1 => star_loop true (m A r1) k (length s) s g
  | LazyStar r1 => star_loop false (m A r1) k (length s) s g
  | Grp n r1 =>
      m A r1 s g (fun s' g' => k s' ((n, firstn (length s - length s') s) :: g'))
  | Ahead r1 =>
      match m unit r1 s g (fun _ _ => Some tt) with
      | Some _ => k s g
      | None => None
      end
  | Eos =>
      match s with
      | [] => k s g
      | [c] => if Ascii.eqb c LF then k s g else None
      | _ => None
      end
  end.

(** A match object: [start()], [end()] and the groups. *)
Record rmatch : Type := {
  m_start : nat;
  m_end : nat;
  m_groups : caps
}.

(** [group(n)] of a match; a group that took no part reads as empty, as in
    the tuples of [re.findall]. *)
Definition group (mt : rmatch) (n : nat) : text :=
  match cap_get (m_groups mt) n with
  | Some w => w
  | None => []
  end.

Definition match_here (r : regex) (pos : nat) (s : text) : option rmatch :=
  m rmatch r s []
    (fun s' g => Some {| m_start := pos;
                         m_end := pos + (length s - length s');
                         m_groups := g |}).

(** [re.search(r, s)]: the match at the leftmost position that has one. *)
Fixpoint search_from (r : regex) (pos : nat) (s : text) : option rmatch :=
  match match_here r pos s with
  | Some mt => Some mt
  | None =>
      match s with
      | [] => None
      | _ :: t => search_from r (S pos) t
      end
  end.

Definition search (r : regex) (s : text) : option rmatch := search_from r 0 s.

(** [re.findall(r, s)]: the successive non-overlapping matches, each found
    in what is left of the text after the one before; [m_start] and [m_end]
    count from there.  After a match the scan resumes at its end.  The
    patterns of the scraper match no empty text; after an empty match the
    scan here resumes one character further, and stops at the end of the
    text. *)
Fixpoint findall_gas (gas : nat) (r : regex) (s : text) : list rmatch :=
  match gas with
  | O => []
  | S gas' =>
      match search r s with
      | None => []
      | Some mt =>
          let next := if m_end mt =? m_start mt then S (m_end mt) else m_end mt in
          mt :: (if length s <? next then []
                 else findall_gas gas' r (skipn next s))
      end
  end.

Definition findall (r : regex) (s : text) : list rmatch :=
  findall_gas (S (length s)) r s.

(** [re.sub(r, repl, s)] for a pattern without empty matches. *)
Fixpoint sub_gas (gas : nat) (r : regex) (repl s : text) : text :=
  match gas with
  | O => s
  | S gas' =>
      match search r s with
      | None => s
      | Some mt =>
          if m_end mt =? m_start mt then s
          else firstn (m_start mt) s ++ repl
               ++ sub_gas gas' r repl (skipn (m_end mt) s)
      end
  end.

Definition re_sub (r : regex) (repl s : text) : text :=
  sub_gas (length s) r repl s.

(** What a pattern can match, without the priorities: used to state what
    the groups of a match hold. *)
Inductive lang : regex -> text -> Prop :=
| L_eps : lang Eps []
| L_chr c : lang (Chr c) [c]
| L_cls p c : p c = true -> lang (Cls p) [c]
| L_seq r1 r2 w1 w2 : lang r1 w1 -> lang r2 w2 -> lang (Seq r1 r2) (w1 ++ w2)
| L_alt_l r1 r2 w : lang r1 w -> lang (Alt r1 r2) w
| L_alt_r r1 r2 w : lang r2 w -> lang (Alt r1 r2) w
| L_star_nil r : lang (Star r) []
| L_star_cons r w1 w2 : lang r w1 -> lang (Star r) w2 -> lang (Star r) (w1 ++ w2)
| L_lazy_nil r : lang (LazyStar r) []
| L_lazy_cons r w1 w2 :
    lang r w1 -> lang (LazyStar r) w2 -> lang (LazyStar r) (w1 ++ w2)
| L_grp n r w : lang r w -> lang (Grp n r) w
| L_ahead r : lang (Ahead r) []
| L_eos : lang Eos [].

(** The groups a successful match of [r] is certain to set. *)
Fixpoint sets_group (r : regex) (n : nat) : bool :=
  match r with
  | Seq r1 r2 => sets_group r1 n || sets_group r2 n
  | Alt r1 r2 => sets_group r1 n && sets_group r2 n
  | Grp n' r1 => Nat.eqb n' n || sets_group r1 n
  | _ => false
  end.

(** Every group of [r] can only hold a text accepted by [P]. *)
Fixpoint groups_in (P : nat -> text -> Prop) (r : regex) : Prop :=
  match r with
  | Seq r1 r2 | Alt r1 r2 => groups_in P r1 /\ groups_in P r2
  | Star r1 | LazyStar r1 => groups_in P r1
  | Grp n r1 => (forall w, lang r1 w -> P n w) /\ groups_in P r1
  | _ => True
  end.

(* ================================================================== *)
(** ** The scraper: data *)

Record Badge : Type := {
  badge_name : text;          (* 'name' *)
  quality : text;
  category : text;
  description : text
}.

Record BadgeInfo : Type := {
  total_badges : Z;
  hof_badges : Z;
  gold_badges : Z;
  silver_badges : Z;
  bronze_badges : Z;
  legendary_badges : Z;
  badge_breakdown : dict Z;
  individual_badges : list Badge
}.

Record SubAttribute : Type := {
  value : Z;
  raw_value : text
}.

Record AttributeSection : Type := {
  rating : Z;
  sub_attributes : dict SubAttribute
}.

Record PlayerData : Type := {
  name : text;
  url : text;
  overall_rating : option Z;
  badge_info : BadgeInfo;
  attributes : dict AttributeSection;
  player_details : dict text;
  raw_content : text
}.

(* ================================================================== *)
(** ** The scraper: patterns *)

Definition digit : regex := Cls is_digit.                          (* \d *)
Definition space : regex := Cls is_space.                          (* \s *)
Definition sign : regex :=                                         (* [+-] *)
  Cls (fun c => Ascii.eqb c "+" || Ascii.eqb c "-").
Definition not_nl : regex := Cls (fun c => negb (Ascii.eqb c LF)). (* [^\n] *)
Definition not_nl_cr : regex :=                                    (* [^\n\r] *)
  Cls (fun c => negb (Ascii.eqb c LF || Ascii.eqb c CR)).
Definition not_rbracket : regex :=                                 (* [^\]] *)
  Cls (fun c => negb (Ascii.eqb c "]")).
Definition alpha_or_space : regex :=                               (* [A-Za-z\s] *)
  Cls (fun c => is_alpha_ascii c || is_space c).

Definition modifier : regex := Opt (Seq sign (Plus digit)).        (* (?:[+-]\d+)? *)

(** [(\d+)] *)
Definition digits_pattern : regex := Grp 1 (Plus digit).

(** [Overall 2K Rating of (\d+)] *)
Definition rating_pattern : regex :=
  Cat [Lit (str "Overall 2K Rating of "); Grp 1 (Plus digit)].

(** [#### (\d+)(?:[+-]\d+)? <section>] *)
Definition header_pattern (section : text) : regex :=
  Cat [Lit (str "#### "); Grp 1 (Plus digit); modifier; Chr " "; Lit section].

(** [#### \d+(?:[+-]\d+)? <section_name>] *)
Definition section_pattern (section_name : text) : regex :=
  Cat [Lit (str "#### "); Plus digit; modifier; Chr " "; Lit section_name].

(** [#### \d+(?:[+-]\d+)? [A-Za-z\s]+] *)
Definition next_section_pattern : regex :=
  Cat [Lit (str "#### "); Plus digit; modifier; Chr " "; Plus alpha_or_space].

(** [\*\s*(\d+(?:[+-]\d+)?)\s+([^\n\r]+)] *)
Definition sub_attr_pattern : regex :=
  Cat [Chr "*"; Star space; Grp 1 (Seq (Plus digit) modifier); Plus space;
       Grp 2 (Plus not_nl_cr)].

(** [<tier>-sum\.png\)\s*(\d+)] *)
Definition tier_pattern (tier : string) : regex :=
  Cat [Lit (str tier); Lit (str "-sum.png)"); Star space; Grp 1 (Plus digit)].

(** [<category> \((\d+)\)] *)
Definition cat_pattern (cat : text) : regex :=
  Cat [Lit cat; Lit (str " ("); Grp 1 (Plus digit); Chr ")"].

(** [#### ([^\n]+)\n\n([^\n]+)\n([^\n]+(?:\n[^\n]+)*?)
     (?=\n\n#### |\n\n\[View All Badges\]|\n\n!\[Image|$)] *)
Definition badge_pattern_v2 : regex :=
  Cat [Lit (str "#### "); Grp 1 (Plus not_nl); Lit [LF; LF];
       Grp 2 (Plus not_nl); Chr LF;
       Grp 3 (Seq (Plus not_nl) (LazyStar (Seq (Chr LF) (Plus not_nl))));
       Ahead (Alt (Lit (LF :: LF :: str "#### "))
             (Alt (Lit (LF :: LF :: str "[View All Badges]"))
             (Alt (Lit (LF :: LF :: str "![Image")) Eos)))].

(** [\n+] *)
Definition newlines_pattern : regex := Plus (Chr LF).

(** [<label>:\s*\[([^\]]+)\]] *)
Definition bracket_pattern (label : string) : regex :=
  Cat [Lit (str label); Chr ":"; Star space; Chr "[";
       Grp 1 (Plus not_rbracket); Chr "]"].

(** [<label>:\s*([^\n\r]+)] *)
Definition line_pattern (label : string) : regex :=
  Cat [Lit (str label); Chr ":"; Star space; Grp 1 (Plus not_nl_cr)].

(** [int(mt.group(n))] *)
Definition int_of_group (mt : rmatch) (n : nat) : res Z :=
  match cap_get (m_groups mt) n with
  | Some w => int w
  | None => Exc TypeError
  end.

(** [mt.group(n).strip()] *)
Definition strip_of_group (mt : rmatch) (n : nat) : res text :=
  match cap_get (m_groups mt) n with
  | Some w => Ret (strip w)
  | None => Exc AttributeError
  end.

(* ================================================================== *)
(** ** The scraper: attributes *)

Definition attribute_sections : list text :=
  [str "Outside Scoring"; str "Inside Scoring"; str "Defense";
   str "Athleticism"; str "Playmaking"; str "Rebounding"].

(** The loop over [matches] of [extract_sub_attributes]. *)
Fixpoint sub_attr_loop (matches : list rmatch) (sub_attributes : dict SubAttribute)
    : res (dict SubAttribute) :=
  match matches with
  | [] => Ret sub_attributes
  | mt :: rest =>
      let value_str := group mt 1 in
      let attr_name := strip (group mt 2) in
      base_value <- match search digits_pattern value_str with
                    | Some dm => int_of_group dm 1
                    | None => Exc AttributeError
                    end ;;
      sub_attr_loop rest
        (dict_set sub_attributes attr_name
                  {| value := base_value; raw_value := value_str |})
  end.

(** The text scanned for the sub-attributes of a section: from the end of
    its heading to the next heading or the end of the document. *)
Definition section_content_of (content : text) (section_match : rmatch) : text :=
  let start_pos := m_end section_match in
  let rest := skipn start_pos content in
  match search next_section_pattern rest with
  | Some next_section_match => firstn (m_start next_section_match) rest
  | None => rest
  end.

Definition extract_sub_attributes (content section_name : text)
    : res (dict SubAttribute) :=
  match search (section_pattern section_name) content with
  | Some section_match =>
      sub_attr_loop
        (findall sub_attr_pattern (section_content_of content section_match)) []
  | None => Ret []
  end.

(** The loop over [attribute_sections] of [extract_attributes_from_markdown]. *)
Fixpoint attributes_loop (content : text) (sections : list text)
    (attributes : dict AttributeSection) : res (dict AttributeSection) :=
  match sections with
  | [] => Ret attributes
  | section :: rest =>
      match search (header_pattern section) content with
      | Some mt =>
          rating <- int_of_group mt 1 ;;
          subs <- extract_sub_attributes content section ;;
          attributes_loop content rest
            (dict_set attributes section
                      {| rating := rating; sub_attributes := subs |})
      | None => attributes_loop content rest attributes
      end
  end.

Definition extract_attributes_from_markdown (content : text)
    : res (dict AttributeSection) :=
  attributes_loop content attribute_sections [].

(* ================================================================== *)
(** ** The scraper: badges *)

(** The tier of the badge at index [i], from the counts of [badge_info]. *)
Definition quality_at (badge_info : BadgeInfo) (i : Z) : text :=
  let legendary_count := legendary_badges badge_info in
  let hof_count := hof_badges badge_info in
  let gold_count := gold_badges badge_info in
  let silver_count := silver_badges badge_info in
  let bronze_count := bronze_badges badge_info in
  if (i <? legendary_count)%Z then str "Legendary"
  else if (i <? legendary_count + hof_count)%Z then str "Hall of Fame"
  else if (i <? legendary_count + hof_count + gold_count)%Z then str "Gold"
  else if (i <? legendary_count + hof_count + gold_count + silver_count)%Z
       then str "Silver"
  else if (i <? legendary_count + hof_count + gold_count + silver_count
                + bronze_count)%Z
       then str "Bronze"
  else str "Unknown".

(** The dictionary appended for the match [mt] at index [i]. *)
Definition badge_of (badge_info : BadgeInfo) (i : Z) (mt : rmatch) : Badge :=
  {| badge_name := strip (group mt 1);
     quality := quality_at badge_info i;
     category := strip (group mt 2);
     description := strip (re_sub newlines_pattern (str " ") (group mt 3)) |}.

(** The loop [for i, (...) in enumerate(badge_matches)] from index [i] on. *)
Fixpoint badge_loop (badge_info : BadgeInfo) (i : Z) (badge_matches : list rmatch)
    : list Badge :=
  match badge_matches with
  | [] => []
  | mt :: rest =>
      if (i >=? total_badges badge_info)%Z then []            (* break *)
      else badge_of badge_info i mt :: badge_loop badge_info (i + 1) rest
  end.

(** The part of the document the badges are read from, when the start
    marker is there: from the marker to the end marker or the end. *)
Definition badge_section_of (content : text) : option text :=
  match find (str "[NBA 2K25 Badges]") content with
  | None => None
  | Some badge_section_start =>
      let badge_section := skipn badge_section_start content in
      match find (str "NBA 2K25 Hot Zones") badge_section with
      | Some view_all_end => Some (firstn view_all_end badge_section)
      | None => Some badge_section
      end
  end.

(** [badge_matches], the result of [re.findall(badge_pattern_v2, ...)]
    (the list found with the first pattern is overwritten unread). *)
Definition badge_matches_of (content : text) : list rmatch :=
  match badge_section_of content with
  | None => []
  | Some badge_section => findall badge_pattern_v2 badge_section
  end.

Definition extract_individual_badges (content : text) (badge_info : BadgeInfo)
    : list Badge :=
  match badge_section_of content with
  | None => []
  | Some badge_section =>
      badge_loop badge_info 0 (findall badge_pattern_v2 badge_section)
  end.

Definition badge_categories : list text :=
  [str "Outside Scoring"; str "Inside Scoring"; str "Playmaking"; str "Defense";
   str "Rebounding"; str "General Offense"; str "All Around"].

(** One tier count: the number after the tier's image, 0 without it. *)
Definition tier_count (tier : string) (content : text) : res Z :=
  match search (tier_pattern tier) content with
  | Some mt => int_of_group mt 1
  | None => Ret 0%Z
  end.

Fixpoint breakdown_loop (content : text) (categories : list text)
    (breakdown : dict Z) : res (dict Z) :=
  match categories with
  | [] => Ret breakdown
  | cat :: rest =>
      match search (cat_pattern cat) content with
      | Some cat_match =>
          n <- int_of_group cat_match 1 ;;
          breakdown_loop content rest (dict_set breakdown cat n)
      | None => breakdown_loop content rest breakdown
      end
  end.

Definition extract_badge_info_from_markdown (content : text) : res BadgeInfo :=
  legendary <- tier_count "legendary" content ;;
  hof <- tier_count "hof" content ;;
  gold <- tier_count "gold" content ;;
  silver <- tier_count "silver" content ;;
  bronze <- tier_count "bronze" content ;;
  let total := (legendary + hof + gold + silver + bronze)%Z in
  breakdown <- breakdown_loop content badge_categories [] ;;
  let badge_info :=
    {| total_badges := total;
       hof_badges := hof;
       gold_badges := gold;
       silver_badges := silver;
       bronze_badges := bronze;
       legendary_badges := legendary;
       badge_breakdown := breakdown;
       individual_badges := [] |} in
  Ret {| total_badges := total;
         hof_badges := hof;
         gold_badges := gold;
         silver_badges := silver;
         bronze_badges := bronze;
         legendary_badges := legendary;
         badge_breakdown := breakdown;
         individual_badges := extract_individual_badges content badge_info |}.

(* ================================================================== *)
(** ** The scraper: player details *)

Definition detail_lookup (pattern : regex) (key : string) (content : text)
    (details : dict text) : res (dict text) :=
  match search pattern content with
  | Some mt =>
      v <- strip_of_group mt 1 ;;
      Ret (dict_set details (str key) v)
  | None => Ret details
  end.

Definition extract_player_details_from_markdown (content : text) : res (dict text) :=
  details <- detail_lookup (bracket_pattern "Position") "position" content [] ;;
  details <- detail_lookup (bracket_pattern "Team") "team" content details ;;
  details <- detail_lookup (line_pattern "Height") "height" content details ;;
  details <- detail_lookup (line_pattern "Weight") "weight" content details ;;
  details <- detail_lookup (line_pattern "Wingspan") "wingspan" content details ;;
  detail_lookup (line_pattern "Archetype") "archetype" content details.

(* ================================================================== *)
(** ** The scraper: one page *)

(** The player name of [parse_player_page]. *)
Definition player_name_of (html_content : text) : res text :=
  if contains (str "Title:") html_content then
    after_marker <- index (split (str "Title:") html_content) 1 ;;
    first_line <- index (split [LF] after_marker) 0 ;;
    let title_line := strip first_line in
    Ret (strip (replace (str ")") []
                  (replace (str " NBA 2K25 Rating (Current") [] title_line)))
  else Ret (str "Unknown Player").

(** The overall rating of [parse_player_page]. *)
Definition overall_rating_of (html_content : text) : res (option Z) :=
  if contains (str "Overall 2K Rating of") html_content then
    match search rating_pattern html_content with
    | Some rating_match =>
        n <- int_of_group rating_match 1 ;;
        Ret (Some n)
    | None => Ret None
    end
  else Ret None.

(** The body of the [try] of [parse_player_page]. *)
Definition parse_player_page_body (html_content url : text) : res PlayerData :=
  player_name <- player_name_of html_content ;;
  overall_rating <- overall_rating_of html_content ;;
  badge_info <- extract_badge_info_from_markdown html_content ;;
  attributes <- extract_attributes_from_markdown html_content ;;
  player_details <- extract_player_details_from_markdown html_content ;;
  Ret {| name := player_name;
         url := url;
         overall_rating := overall_rating;
         badge_info := badge_info;
         attributes := attributes;
         player_details := player_details;
         raw_content :=
           if 1000 <? length html_content
           then firstn 1000 html_content ++ str "..."
           else html_content |}.

(** [parse_player_page]: the record, or [None] after an exception. *)
Definition parse_player_page (html_content url : text) : option PlayerData :=
  match parse_player_page_body html_content url with
  | Ret player_data => Some player_data
  | Exc _ => None
  end.

(* ================================================================== *)
(** ** The scraper: search *)

Definition base_url : text := str "https://www.2kratings.com".

Definition url_name_of (player_name : text) : text :=
  replace (str " ") (str "-") (lower player_name).

Definition url_patterns (player_name : text) : list text :=
  let url_name := url_name_of player_name in
  [base_url ++ str "/" ++ url_name;
   base_url ++ str "/player/" ++ url_name;
   base_url ++ str "/players/" ++ url_name].

(** What a search does to the outside: a request through [scrape_url], or
    [time.sleep]. *)
Inductive event : Type :=
| Fetch (url : text)
| Sleep (seconds : nat).

Section Search.
(** The answer of the render proxy to each request: the markdown text, or
    [None] for a failed request. *)
Variable scrape_url : text -> option text.

(** The loop [for url_pattern in url_patterns] of [search_player], with
    the trace of what it did. *)
Fixpoint try_patterns (patterns : list text) : list PlayerData * list event :=
  match patterns with
  | [] => ([], [])                                  (* All URL patterns failed *)
  | url_pattern :: rest =>
      let next :=
        let (players, trace) := try_patterns rest in
        (players, Fetch url_pattern :: Sleep 1 :: trace) in
      match scrape_url url_pattern with
      | Some ((_ :: _) as html_content) =>
          match parse_player_page html_content url_pattern with
          | Some player_data => ([player_data], [Fetch url_pattern])
          | None => next                            (* No player data found *)
          end
      | _ => next                                   (* Failed to scrape *)
      end
  end.

Definition search_player (player_name : text) : list PlayerData * list event :=
  try_patterns (url_patterns player_name).
End Search.

(* ================================================================== *)
(** ** What the specification says of the player name *)

(** The name as the specification words it keeps the title and removes
    boilerplate at its end only: the name is then a prefix of the title
    text, the text between the title marker and the next line break. *)
Definition title_text_of (html_content : text) : option text :=
  match find (str "Title:") html_content with
  | None => None
  | Some i =>
      let rest := skipn (i + 6) html_content in
      match find [LF] rest with
      | Some j => Some (strip (firstn j rest))
      | None => Some (strip rest)
      end
  end.

Definition name_strips_suffix_only (html_content : text) : Prop :=
  forall title player_name,
    title_text_of html_content = Some title ->
    player_name_of html_content = Ret player_name ->
    exists boilerplate, title = player_name ++ boilerplate.

(** A document from which nothing is extracted. *)
Definition nothing_extracted (p : PlayerData) : Prop :=
  name p = str "Unknown Player" /\
  overall_rating p = None /\
  attributes p = [] /\
  total_badges (badge_info p) = 0%Z /\
  individual_badges (badge_info p) = [] /\
  badge_breakdown (badge_info p) = [] /\
  player_details p = [].

(* ================================================================== *)
(** ** Sample documents *)

(** One gold badge counted, two badge blocks in the badges section. *)
Definition doc_two_badges : text :=
  lines ["![Image 5: Gold](https://www.2kratings.com/wp-content/uploads/gold-sum.png) 1";
         "[NBA 2K25 Badges](https://www.2kratings.com/nba-2k25-badges)";
         EmptyString;
         "#### Deadeye";
         EmptyString;
         "Outside Scoring";
         "Shoots well";
         "under pressure";
         EmptyString;
         "#### Limitless";
         EmptyString;
         "Outside Scoring";
         "Deep range";
         EmptyString]%string.

(** Three gold badges counted, no badges section. *)
Definition doc_no_badge_section : text :=
  lines ["![Image 5: Gold](https://www.2kratings.com/wp-content/uploads/gold-sum.png) 3";
         "#### Deadeye";
         EmptyString;
         "Outside Scoring";
         "Shoots well"]%string.

(** Counts handed to [extract_individual_badges] that disagree with their
    total: one gold badge, a total of two. *)
Definition counts_one_gold_total_two : BadgeInfo :=
  {| total_badges := 2;
     hof_badges := 0;
     gold_badges := 1;
     silver_badges := 0;
     bronze_badges := 0;
     legendary_badges := 0;
     badge_breakdown := [];
     individual_badges := [] |}.

Definition counts_one_gold : BadgeInfo :=
  {| total_badges := 1;
     hof_badges := 0;
     gold_badges := 1;
     silver_badges := 0;
     bronze_badges := 0;
     legendary_badges := 0;
     badge_breakdown := [];
     individual_badges := [] |}.

Definition badge_deadeye : Badge :=
  {| badge_name := str "Deadeye";
     quality := str "Gold";
     category := str "Outside Scoring";
     description := str "Shoots well under pressure" |}.

Definition badge_limitless_unknown : Badge :=
  {| badge_name := str "Limitless";
     quality := str "Unknown";
     category := str "Outside Scoring";
     description := str "Deep range" |}.

(** The summary of [doc_two_badges]. *)
Definition summary_two_badges : BadgeInfo :=
  {| total_badges := 1;
     hof_badges := 0;
     gold_badges := 1;
     silver_badges := 0;
     bronze_badges := 0;
     legendary_badges := 0;
     badge_breakdown := [];
     individual_badges := [badge_deadeye] |}.

(** A heading with a signed modifier and one list item. *)
Definition doc_outside_scoring : text :=
  lines ["#### 91-1 Outside Scoring";
         "*   99 Close Shot"]%string.

(** A page with a title, a rating, two attribute sections and list items
    with signed modifiers. *)
Definition doc_page : text :=
  lines ["Title: Nikola Jokic NBA 2K25 Rating (Current Denver Nuggets)";
         EmptyString;
         "Nikola Jokic has an Overall 2K Rating of 97 with a 2-Way Build.";
         EmptyString;
         "#### 91-1 Outside Scoring";
         EmptyString;
         "*   99 Close Shot";
         "*   98+1 Mid-Range Shot";
         "*   91-1 Three-Point Shot";
         EmptyString;
         "#### 78 Athleticism";
         EmptyString;
         "*   70 Speed";
         EmptyString]%string.

Definition sub_mid_range : SubAttribute :=
  {| value := 98; raw_value := str "98+1" |}.

Definition sub_three_point : SubAttribute :=
  {| value := 91; raw_value := str "91-1" |}.

Definition subs_outside_scoring_page : dict SubAttribute :=
  [(str "Close Shot", {| value := 99; raw_value := str "99" |});
   (str "Mid-Range Shot", sub_mid_range);
   (str "Three-Point Shot", sub_three_point)].

(** A title without boilerplate. *)
Definition doc_plain_title : text :=
  lines ["Title: Nikola Jokic";
         "URL Source: https://www.2kratings.com/nikola-jokic"]%string.

(** A document from which nothing can be extracted. *)
Definition doc_hello : text := str "hello".

(** The record built from [doc_hello] fetched at the first candidate for
    the player name "x". *)
Definition record_of_hello : PlayerData :=
  {| name := str "Unknown Player";
     url := str "https://www.2kratings.com/x";
     overall_rating := None;
     badge_info :=
       {| total_badges := 0;
          hof_badges := 0;
          gold_badges := 0;
          silver_badges := 0;
          bronze_badges := 0;
          legendary_badges := 0;
          badge_breakdown := [];
          individual_badges := [] |};
     attributes := [];
     player_details := [];
     raw_content := str "hello" |}.

(* ================================================================== *)
(** ** Predicates of the statements *)

Definition caps_in (P : nat -> text -> Prop) (e : caps) : Prop :=
  Forall (fun nw => P (fst nw) (snd nw)) e.

(** What [k] received when [m] succeeded: [w] was matched, [s'] was left,
    and the groups [e] were added. *)
Definition handed_over {A : Type} (P : nat -> text -> Prop) (r : regex)
    (s : text) (g : caps) (k : text -> caps -> option A) (x : A) : Prop :=
  exists w s' e,
    s = w ++ s' /\ lang r w /\ caps_in P e /\
    (forall n, sets_group r n = true -> In n (map fst e)) /\
    k s' (e ++ g) = Some x.

(** A match found by [re.search]: where it lies, and what it holds. *)
Definition match_of (P : nat -> text -> Prop) (r : regex) (s : text)
    (mt : rmatch) : Prop :=
  exists pre w post,
    s = pre ++ w ++ post /\ lang r w /\
    m_start mt = length pre /\ m_end mt = length pre + length w /\
    caps_in P (m_groups mt) /\
    (forall n, sets_group r n = true -> In n (map fst (m_groups mt))).

(** A non-empty run of decimal digits. *)
Definition digit_string (w : text) : Prop :=
  w <> [] /\ Forall (fun c => is_digit c = true) w.

(** A numeral followed by nothing or by a signed modifier: [\d+(?:[+-]\d+)?]. *)
Definition numeral_token (w : text) : Prop :=
  exists d rest,
    w = d ++ rest /\ digit_string d /\
    (rest = [] \/
     exists sg d2, rest = sg :: d2 /\ (sg = "+"%char \/ sg = "-"%char) /\
                   digit_string d2).

(** The leading numeral of a token: its longest prefix of digits. *)
Fixpoint leading_digits (w : text) : text :=
  match w with
  | c :: t => if is_digit c then c :: leading_digits t else []
  | [] => []
  end.

(** The length of the longest run of digits in a text. *)
Fixpoint longest_digit_run (s : text) : nat :=
  match s with
  | [] => 0
  | _ :: t => Nat.max (length (leading_digits s)) (longest_digit_run t)
  end.

(** No run of digits of the text is too long for [int]. *)
Definition short_numbers (s : text) : Prop :=
  (Z.of_nat (longest_digit_run s) <= max_str_digits)%Z.

(** [w] is a contiguous part of [s]. *)
Definition factor (w s : text) : Prop := exists pre post, s = pre ++ w ++ post.

(** Every group of [e] is a contiguous part of [s]. *)
Definition caps_of (s : text) (e : caps) : Prop :=
  Forall (fun nw => factor (snd nw) s) e.

(** What the groups of the scraper's patterns hold. *)
Definition all_digits : nat -> text -> Prop := fun _ w => digit_string w.

Definition anything : nat -> text -> Prop := fun _ _ => True.

Definition sub_attr_groups : nat -> text -> Prop :=
  fun n w => n = 1 -> numeral_token w.

(** What an entry of the sub-attribute dictionary holds, for the matches
    [all] it was filled from. *)
Definition entry_of_match (all : list rmatch) (attr_name : text)
    (sa : SubAttribute) : Prop :=
  int (leading_digits (raw_value sa)) = Ret (value sa) /\
  numeral_token (raw_value sa) /\
  exists mt, In mt all /\ raw_value sa = group mt 1 /\
             attr_name = strip (group mt 2).

(** A text with no white space at its front. *)
Definition tight_front (s : text) : Prop :=
  match s with
  | [] => True
  | c :: _ => is_space c = false
  end.

(** The title text [parse_player_page] works on, for the first title
    marker at index [i]: what follows the marker up to the next line break
    or the next marker, without the white space around it. *)
Definition title_of (html_content : text) (i : nat) : text :=
  let rest := skipn (i + 6) html_content in
  let segment :=
    match find (str "Title:") rest with
    | Some j => firstn j rest
    | None => rest
    end in
  strip match find [LF] segment with
        | Some j => firstn j segment
        | None => segment
        end.

(** The removals [parse_player_page] applies to the title text. *)
Definition without_boilerplate (title : text) : text :=
  strip (replace (str ")") []
           (replace (str " NBA 2K25 Rating (Current") [] title)).

(** What the specification says of a fetched document without a usable
    record: the search does not return a record for it. *)
Definition search_skips_unusable_documents : Prop :=
  forall (scrape_url : text -> option text) (player_name u c : text)
         (player_data : PlayerData),
    In u (url_patterns player_name) ->
    scrape_url u = Some c -> c <> [] ->
    parse_player_page c u = Some player_data ->
    nothing_extracted player_data ->
    ~ In player_data (fst (search_player scrape_url player_name)).

(** A request that gave nothing to parse. *)
Definition no_content (scrape_url : text -> option text) (u : text) : Prop :=
  scrape_url u = None \/ scrape_url u = Some [].

(** A candidate that gives no record: the request gave nothing to parse,
    or it gave a document for which [parse_player_page] returns [None]. *)
Definition no_record (scrape_url : text -> option text) (u : text) : Prop :=
  no_content scrape_url u \/
  exists c, scrape_url u = Some c /\ parse_player_page c u = None.

(** The trace of candidates that were tried and gave nothing. *)
Definition failed_attempts (urls : list text) : list event :=
  flat_map (fun u => [Fetch u; Sleep 1]) urls.

(* ================================================================== *)
(** ** Further predicates and sample documents *)

(** The document has a heading for the attribute category [section]. *)
Definition has_heading (content section : text) : bool :=
  match search (header_pattern section) content with
  | Some _ => true
  | None => false
  end.

(** The document has a count for the badge category [cat]. *)
Definition has_category_count (content cat : text) : bool :=
  match search (cat_pattern cat) content with
  | Some _ => true
  | None => false
  end.

(** The name a list-item match is stored under. *)
Definition item_name (mt : rmatch) : text := strip (group mt 2).

(** No white space at either end: what [str.strip()] leaves unchanged. *)
Definition trimmed (s : text) : Prop := strip s = s.

(** Two list items of the same name under one heading. *)
Definition doc_repeated_item : text :=
  lines ["#### 91-1 Outside Scoring";
         "*   99 Close Shot";
         "*   80 Free Throw";
         "*   98+1 Close Shot"]%string.

Definition sub_close_shot_last : SubAttribute :=
  {| value := 98; raw_value := str "98+1" |}.

(** Two headings in the reverse of the order of the known categories. *)
Definition doc_headings_reversed : text :=
  lines ["#### 80 Rebounding";
         "*   81 Offensive Rebound";
         "#### 70+2 Defense";
         "*   72 Steal"]%string.

(** Two category counts, in the reverse of the order of the known badge
    categories. *)
Definition doc_breakdown_reversed : text :=
  lines ["Inside Scoring (9)";
         "Outside Scoring (4)";
         "Outside Scoring (7)"]%string.

(** The pattern has a match in the document. *)
Definition found (pattern : regex) (content : text) : bool :=
  match search pattern content with
  | Some _ => true
  | None => false
  end.

(** The keys of the player details with the patterns they are read by, in
    the order of the lookups. *)
Definition detail_fields : list (string * regex) :=
  [("position", bracket_pattern "Position");
   ("team", bracket_pattern "Team");
   ("height", line_pattern "Height");
   ("weight", line_pattern "Weight");
   ("wingspan", line_pattern "Wingspan");
   ("archetype", line_pattern "Archetype")]%string.

(** A page with some of the details, the weight before the height. *)
Definition doc_details : text :=
  lines ["Weight: 284lbs (129kg)";
         "Height: 6'11 (211cm)  ";
         "Position: [C](https://www.2kratings.com/lists/center)"]%string.

(** What the first two groups of a badge block hold: no line break. *)
Definition badge_groups : nat -> text -> Prop :=
  fun n w => n <> 3 -> ~ In LF w.

(** The place of a tier in the order Legendary, Hall of Fame, Gold, Silver,
    Bronze, Unknown. *)
Definition tier_rank (q : text) : nat :=
  if text_eqb q (str "Legendary") then 0
  else if text_eqb q (str "Hall of Fame") then 1
  else if text_eqb q (str "Gold") then 2
  else if text_eqb q (str "Silver") then 3
  else if text_eqb q (str "Bronze") then 4
  else 5.

(** A page with text before the badges section and the hot zones after it. *)
Definition doc_badges_then_hot_zones : text :=
  lines ["Intro";
         "[NBA 2K25 Badges](https://www.2kratings.com/nba-2k25-badges)";
         EmptyString;
         "#### Deadeye";
         EmptyString;
         "Outside Scoring";
         "Shoots well";
         EmptyString;
         "[View All Badges](https://www.2kratings.com/nba-2k25-badges)";
         EmptyString;
         "### NBA 2K25 Hot Zones";
         EmptyString;
         "#### Not A Badge";
         EmptyString;
         "Zone";
         "Hot"]%string.

(** Counts with two tiers. *)
Definition counts_one_hof_one_gold : BadgeInfo :=
  {| total_badges := 2;
     hof_badges := 1;
     gold_badges := 1;
     silver_badges := 0;
     bronze_badges := 0;
     legendary_badges := 0;
     badge_breakdown := [];
     individual_badges := [] |}.

(** The URLs requested along a trace, in order. *)
Fixpoint fetched (trace : list event) : list text :=
  match trace with
  | [] => []
  | Fetch u :: rest => u :: fetched rest
  | Sleep _ :: rest => fetched rest
  end.

(** The pauses taken along a trace. *)
Fixpoint pauses (trace : list event) : nat :=
  match trace with
  | [] => 0
  | Fetch _ :: rest => pauses rest
  | Sleep n :: rest => n + pauses rest
  end.

(** An ASCII capital letter. *)
Definition is_upper_ascii (c : ascii) : bool :=
  let n := nat_of_ascii c in (65 <=? n) && (n <=? 90).

(** What the URL name has for a character of the player name. *)
Definition slug_char (c : ascii) : ascii :=
  let c' := lower_char c in
  if Ascii.eqb c' " " then "-"%char else c'.

(* ================================================================== *)
(** ** The scraper: a local file *)

Section LocalFile.
(** What [read_local_file] returns for each path: the content of the file,
    or [None] when it cannot be read. *)
Variable read_local_file : text -> option text.

(** [test_with_local_file]; the player name it takes is only printed. *)
Definition test_with_local_file (file_path : text) : list PlayerData :=
  match read_local_file file_path with
  | Some ((_ :: _) as html_content) =>
      match parse_player_page html_content (str "file://" ++ file_path) with
      | Some player_data => [player_data]
      | None => []                               (* No player data found in file *)
      end
  | _ => []                                      (* Failed to read file *)
  end.
End LocalFile.

(* ================================================================== *)
(** ** Reading a number after a label, without patterns *)

(** The digits that follow [label] at the front of [s], past any white
    space when [skip_ws] is set; [None] when [s] does not start with [label]
    or no digit follows. *)
Definition number_here (skip_ws : bool) (label s : text) : option text :=
  if starts_with label s then
    let rest := skipn (length label) s in
    match leading_digits (if skip_ws then lstrip rest else rest) with
    | [] => None
    | d => Some d
    end
  else None.

(** The digits after the first place of [s] where [number_here] finds some. *)
Fixpoint number_after (skip_ws : bool) (label s : text) : option text :=
  match number_here skip_ws label s with
  | Some d => Some d
  | None =>
      match s with
      | [] => None
      | _ :: t => number_after skip_ws label t
      end
  end.

(** What the search for the image of a tier finds in a document, read
    without patterns: the number after the first "<tier>-sum.png)" that is
    followed, past any white space, by a digit; 0 without such a place. *)
Definition count_after_image (tier : string) (content : text) : res Z :=
  match number_after true (str tier ++ str "-sum.png)") content with
  | Some d => int d
  | None => Ret 0%Z
  end.

(** The rating phrase twice, the first time without a number. *)
Definition doc_rating_second_phrase : text :=
  lines ["Overall 2K Rating of the season";
         "He has an Overall 2K Rating of 97."]%string.

(** A tier image followed by its count on the next line. *)
Definition doc_gold_count_next_line : text :=
  lines ["![Image 7: Gold](https://www.2kratings.com/wp-content/uploads/gold-sum.png)";
         "  12 badges"]%string.

(** Where a match lies: [start()] and [end()]. *)
Definition span (mt : rmatch) : nat * nat := (m_start mt, m_end mt).

(* ================================================================== *)
(** ** The bot ([src/bot/main.py]) *)

(** The texts of the bot hold characters beyond U+00FF: a character is one
    of the 256 of [text], or any other code point. *)
Inductive wchar : Type :=
| Latin (c : ascii)
| Wide (codepoint : N).

Definition wtext := list wchar.

Definition wide (t : text) : wtext := map Latin t.

(** The decimal numeral of an [int]. *)
Definition str_of_int (n : Z) : text :=
  str (NilZero.string_of_int (Z.to_int n)).

(** The number of digits of the decimal numeral of an [int]. *)
Definition digits_of (n : Z) : Z := Z.of_nat (length (str_of_int (Z.abs n))).

(** [str(n)] of an [int], also what an f-string shows for it: the decimal
    numeral, or a [ValueError] when it has more than [max_str_digits]
    digits. *)
Definition format_int (n : Z) : res text :=
  if (max_str_digits <? digits_of n)%Z then Exc ValueError
  else Ret (str_of_int n).

(** What an f-string shows for an [Optional[int]]. *)
Definition format_optional_int (x : option Z) : res text :=
  match x with
  | Some n => format_int n
  | None => Ret (str "None")
  end.

(** [d.get(key, default)] *)
Definition dict_get_default {V : Type} (d : dict V) (key : text) (default : V) : V :=
  match dict_get d key with
  | Some v => v
  | None => default
  end.

(** A [discord.Embed] as the bot fills it. *)
Record Embed : Type := {
  title : wtext;
  embed_description : wtext;
  color : Z;
  fields : list (wtext * wtext * bool);     (* name, value, inline *)
  footer : wtext
}.

(** [get_rating_color]; [rating >= 95] raises [TypeError] when the rating
    is [None]. *)
Definition get_rating_color (rating : option Z) : res Z :=
  match rating with
  | None => Exc TypeError
  | Some rating =>
      if (rating >=? 95)%Z then Ret 16766720%Z         (* 0xFFD700, gold *)
      else if (rating >=? 90)%Z then Ret 12632256%Z    (* 0xC0C0C0, silver *)
      else if (rating >=? 85)%Z then Ret 13467442%Z    (* 0xCD7F32, bronze *)
      else Ret 8421504%Z                               (* 0x808080, gray *)
  end.

(** The message of that [TypeError]. *)
Definition none_not_ordered : text :=
  str "'>=' not supported between instances of 'NoneType' and 'int'".

(** The message of the [ValueError] of [str(n)] (CPython 3.11). *)
Definition exceeds_str_digits : text :=
  str "Exceeds the limit (4300 digits) for integer string conversion; use sys.set_int_max_str_digits() to increase the limit".

(** [str(e)] for the exceptions raised under the [try] of [player_search]:
    the comparison of [None] and the conversion of a too long integer. *)
Definition message_of (e : exn) : text :=
  match e with
  | TypeError => none_not_ordered
  | _ => exceeds_str_digits
  end.

Definition indent12 : text := str "            ".
Definition indent8 : text := str "        ".

(** One line of the field "Player Info". *)
Definition info_line (details : dict text) (label key : string) : text :=
  LF :: indent12 ++ str label ++ dict_get_default details (str key) (str "N/A").

(** The value of the field "Player Info". *)
Definition player_info_text (details : dict text) : text :=
  info_line details "**Position:** " "position"
  ++ info_line details "**Team:** " "team"
  ++ info_line details "**Height:** " "height"
  ++ info_line details "**Weight:** " "weight"
  ++ info_line details "**Wingspan:** " "wingspan"
  ++ info_line details "**Archetype:** " "archetype"
  ++ LF :: indent12.

(** The loop that builds [attr_text]. *)
Fixpoint attr_text_loop (items : dict AttributeSection) (attr_text : text)
    : res text :=
  match items with
  | [] => Ret attr_text
  | (attr, attr_data) :: rest =>
      shown <- format_int (rating attr_data) ;;
      attr_text_loop rest
        (attr_text ++ str "**" ++ attr ++ str ":** " ++ shown ++ [LF])
  end.

(** [badge_text] *)
Definition badge_text_of (badge_info : BadgeInfo) : res text :=
  total <- format_int (total_badges badge_info) ;;
  hof <- format_int (hof_badges badge_info) ;;
  gold <- format_int (gold_badges badge_info) ;;
  silver <- format_int (silver_badges badge_info) ;;
  bronze <- format_int (bronze_badges badge_info) ;;
  Ret (LF :: indent8 ++ str "**Total:** " ++ total
       ++ LF :: indent8 ++ str "**HOF:** " ++ hof
       ++ str " | **Gold:** " ++ gold
       ++ LF :: indent8 ++ str "**Silver:** " ++ silver
       ++ str " | **Bronze:** " ++ bronze
       ++ LF :: indent8).

(** [create_player_embed].  The arguments of [discord.Embed] are evaluated
    first, in order: the description, then the colour. *)
Definition create_player_embed (player : PlayerData) : res Embed :=
  shown <- format_optional_int (overall_rating player) ;;
  c <- get_rating_color (overall_rating player) ;;
  let fields0 :=
    match player_details player with
    | [] => []
    | details =>
        [(Wide 128202 :: wide (str " Player Info"),                (* U+1F4CA *)
          wide (player_info_text details), true)]
    end in
  fields1 <- match attributes player with
             | [] => Ret fields0
             | items =>
                 attr_text <- attr_text_loop items [] ;;
                 Ret (fields0 ++
                      [(Wide 128200 :: wide (str " Attributes"),   (* U+1F4C8 *)
                        wide attr_text, true)])
             end ;;
  badge_text <- badge_text_of (badge_info player) ;;
  let fields2 :=
    fields1 ++
    [(Wide 127942 :: wide (str " Badges"),                         (* U+1F3C6 *)
      wide badge_text, true)] in
  Ret {| title := Wide 127936 :: wide (str " " ++ name player);    (* U+1F3C0 *)
         embed_description :=
           wide (str "**Overall Rating: " ++ shown ++ str "**");
         color := c;
         fields := fields2;
         footer := wide (str "Data from 2kratings.com") |}.

(** What the bot does on Discord: a message sent, or the loading message
    edited.  Both are taken to succeed. *)
Inductive reply : Type :=
| Send (content : wtext)
| Edit (content : wtext) (embed : option Embed).

Definition ask_for_name : wtext :=
  Wide 10060 ::                                                   (* U+274C *)
  wide (str " Please provide a player name. Usage: `!player <player_name>`").

Definition searching_for (player_name : text) : wtext :=
  Wide 128269 ::                                                  (* U+1F50D *)
  wide (str " Searching for **" ++ player_name ++ str "**...").

Definition no_player_found (player_name : text) : wtext :=
  Wide 10060 :: wide (str " No player found for **" ++ player_name ++ str "**").

Definition error_searching (message : text) : wtext :=
  Wide 10060 :: wide (str " Error searching for player: " ++ message).

(** The command [!player]: the replies on Discord and what the search did.
    [search_player] raises nothing, so the handler of the [try] is entered
    from [create_player_embed] only, with the message of its exception. *)
Definition player_search (scrape_url : text -> option text) (player_name : text)
    : list reply * list event :=
  match strip player_name with
  | [] => ([Send ask_for_name], [])
  | _ :: _ =>
      let loading := Send (searching_for player_name) in
      let (players, trace) := search_player scrape_url player_name in
      match players with
      | [] => ([loading; Edit (no_player_found player_name) None], trace)
      | player :: _ =>
          match create_player_embed player with
          | Ret embed => ([loading; Edit [] (Some embed)], trace)
          | Exc e => ([loading; Edit (error_searching (message_of e)) None], trace)
          end
      end
  end.

(** The names of the fields of an embed. *)
Definition field_names (e : Embed) : list wtext :=
  map (fun f => fst (fst f)) (fields e).

(** A page with a rating and nothing else but one detail. *)
Definition doc_rating_and_height : text :=
  lines ["Title: Nikola Jokic";
         "Overall 2K Rating of 97";
         "Height: 6'11"]%string.

(** A pattern without lookahead and without [$]: whether it matches at a
    place depends only on the text it consumes. *)
Fixpoint plain (r : regex) : Prop :=
  match r with
  | Seq r1 r2 | Alt r1 r2 => plain r1 /\ plain r2
  | Star r1 | LazyStar r1 | Grp _ r1 => plain r1
  | Ahead _ | Eos => False
  | _ => True
  end.

(** Two consecutive headings, the second without list items. *)
Definition doc_two_headings : text :=
  lines ["#### 91-1 Outside Scoring";
         "*   99 Close Shot";
         "#### 78 Athleticism";
         "*   70 Speed"]%string.

(** The value of a sequence of decimal digits read after [acc]. *)
Fixpoint uint_value (d : Decimal.uint) (acc : Z) : Z :=
  match d with
  | Decimal.Nil => acc
  | Decimal.D0 d => uint_value d (10 * acc)
  | Decimal.D1 d => uint_value d (10 * acc + 1)
  | Decimal.D2 d => uint_value d (10 * acc + 2)
  | Decimal.D3 d => uint_value d (10 * acc + 3)
  | Decimal.D4 d => uint_value d (10 * acc + 4)
  | Decimal.D5 d => uint_value d (10 * acc + 5)
  | Decimal.D6 d => uint_value d (10 * acc + 6)
  | Decimal.D7 d => uint_value d (10 * acc + 7)
  | Decimal.D8 d => uint_value d (10 * acc + 8)
  | Decimal.D9 d => uint_value d (10 * acc + 9)
  end.

(** A rating written with a leading zero. *)
Definition doc_rating_leading_zero : text :=
  lines ["Title: Rookie";
         "Overall 2K Rating of 079"]%string.

(* ================================================================== *)
(** ** The scraper: requests through the render proxy *)

(** What [session.get] gives for an address: a response with its status
    code and body, or a [requests.RequestException]. *)
Inductive http_answer : Type :=
| Response (status_code : Z) (body : text)
| RequestException.

Definition jina_base_url : text := str "https://r.jina.ai".

(** The address [scrape_url] requests for a page. *)
Definition jina_url (url : text) : text := jina_base_url ++ str "/" ++ url.

Module Jina.
Section Http.
Variable session_get : text -> http_answer.

(** [scrape_url]: the body of a response with status 200, [None] for any
    other status and for a failed request. *)
Definition scrape_url (url : text) : option text :=
  match session_get (jina_url url) with
  | Response status_code body =>
      if (status_code =? 200)%Z then Some body else None
  | RequestException => None
  end.
End Http.
End Jina.

(** A proxy that answers every request with an error page. *)
Definition not_found_everywhere (jina_url : text) : http_answer :=
  Response 404 (str "Title: Page not found").

(* ================================================================== *)
(** ** The scraper: the file [main] writes *)

(** What the file name has for a character of the player name. *)
Definition file_char (c : ascii) : ascii :=
  let c' := lower_char c in
  if Ascii.eqb c' " " then "_"%char else c'.

Definition output_filename (player : PlayerData) : text :=
  str "player_data_" ++ replace (str " ") (str "_") (lower (name player))
  ++ str ".json".

(** [os.path.join] of a directory name and a relative file name, with the
    POSIX separator. *)
Definition output_path (player : PlayerData) : text :=
  str "output" ++ str "/" ++ output_filename player.

(** A page whose rating has one digit more than [int] converts. *)
Definition doc_long_rating : text :=
  str "Overall 2K Rating of " ++ repeat "9"%char 4301.

(** A heading without a number between the list items of a category. *)
Definition doc_unnumbered_heading : text :=
  lines ["#### 80 Rebounding";
         "*   81 Offensive Rebound";
         "#### Deadeye";
         "*   50 Shooting"]%string.

(** A proxy that answers every request with a page that cannot be
    converted. *)
Definition long_rating_everywhere (jina_url : text) : http_answer :=
  Response 200 doc_long_rating.

(* ================================================================== *)
(** * Properties *)

(** ** The matcher: what a match and its groups hold *)

Section MatcherSound.
Variable P : nat -> text -> Prop.

Lemma star_loop_sound (A : Type) (b : bool) (r1 : regex) (k : text -> caps -> option A) (x : A) :
  (forall s g k', m A r1 s g k' = Some x -> handed_over P r1 s g k' x) ->
  forall n s g,
    star_loop b (m A r1) k n s g = Some x ->
    exists w s' e,
      s = w ++ s' /\ lang (Star r1) w /\ lang (LazyStar r1) w /\
      caps_in P e /\ k s' (e ++ g) = Some x.
Proof.
  intros Hbody.
  assert (Hstop : forall s g, k s g = Some x ->
            exists w s' e, s = w ++ s' /\ lang (Star r1) w /\
              lang (LazyStar r1) w /\ caps_in P e /\ k s' (e ++ g) = Some x).
  { intros s g Hk. exists [], s, []. repeat split; try constructor. exact Hk. }
  induction n as [|n IH]; intros s g H; simpl in H.
  - now apply Hstop.
  - assert (Hagain :
      m A r1 s g (fun s' g' => if length s' <? length s
                               then star_loop b (m A r1) k n s' g' else None) = Some x ->
      exists w s' e, s = w ++ s' /\ lang (Star r1) w /\
        lang (LazyStar r1) w /\ caps_in P e /\ k s' (e ++ g) = Some x).
    { intros Hm. apply Hbody in Hm.
      destruct Hm as (w1 & s1 & e1 & -> & Hw1 & He1 & _ & Hk1).
      destruct (length s1 <? length (w1 ++ s1)); [|discriminate].
      apply IH in Hk1.
      destruct Hk1 as (w2 & s2 & e2 & -> & Hw2 & Hw2' & He2 & Hk2).
      exists (w1 ++ w2), s2, (e2 ++ e1).
      rewrite <- !app_assoc. repeat split.
      - now constructor.
      - now constructor.
      - apply Forall_app; split; assumption.
      - exact Hk2. }
    destruct b.
    + destruct (m A r1 s g _) eqn:E.
      * inversion H; subst. now apply Hagain.
      * now apply Hstop.
    + destruct (k s g) eqn:E.
      * inversion H; subst. now apply Hstop.
      * now apply Hagain.
Qed.

Lemma m_sound (r : regex) :
  groups_in P r ->
  forall (A : Type) (s : text) (g : caps) (k : text -> caps -> option A) (x : A),
    m A r s g k = Some x -> handed_over P r s g k x.
Proof.
  induction r as [ | c | p | r1 IH1 r2 IH2 | r1 IH1 r2 IH2 | r1 IH1 | r1 IH1
                  | n r1 IH1 | r1 IH1 | ]; intros Hg A s g k x H; simpl in H.
  - exists [], s, []. repeat split; try constructor; try discriminate. exact H.
  - destruct s as [|a s']; [discriminate|].
    destruct (Ascii.eqb a c) eqn:E; [|discriminate].
    apply Ascii.eqb_eq in E; subst a.
    exists [c], s', []. repeat split; try constructor; try discriminate. exact H.
  - destruct s as [|a s']; [discriminate|].
    destruct (p a) eqn:E; [|discriminate].
    exists [a], s', []. repeat split; try constructor; try discriminate; assumption.
  - destruct Hg as [Hg1 Hg2].
    apply (IH1 Hg1) in H. destruct H as (w1 & s1 & e1 & -> & Hw1 & He1 & Hs1 & H).
    apply (IH2 Hg2) in H. destruct H as (w2 & s2 & e2 & -> & Hw2 & He2 & Hs2 & H).
    exists (w1 ++ w2), s2, (e2 ++ e1). rewrite <- !app_assoc. repeat split.
    + now constructor.
    + apply Forall_app; split; assumption.
    + intros n Hn. simpl in Hn. rewrite map_app, in_app_iff.
      apply orb_true_iff in Hn. destruct Hn; [right|left]; auto.
    + exact H.
  - destruct Hg as [Hg1 Hg2].
    destruct (m A r1 s g k) eqn:E.
    + inversion H; subst. apply (IH1 Hg1) in E.
      destruct E as (w & s' & e & -> & Hw & He & Hs & Hk).
      exists w, s', e. repeat split; auto.
      * now apply L_alt_l.
      * intros n Hn. simpl in Hn. apply andb_true_iff in Hn. apply Hs, Hn.
    + apply (IH2 Hg2) in H.
      destruct H as (w & s' & e & -> & Hw & He & Hs & Hk).
      exists w, s', e. repeat split; auto.
      * now apply L_alt_r.
      * intros n Hn. simpl in Hn. apply andb_true_iff in Hn. apply Hs, Hn.
  - apply (star_loop_sound A true r1 k x) in H.
    + destruct H as (w & s' & e & -> & Hw & _ & He & Hk).
      exists w, s', e. repeat split; auto. discriminate.
    + intros; now apply IH1.
  - apply (star_loop_sound A false r1 k x) in H.
    + destruct H as (w & s' & e & -> & _ & Hw & He & Hk).
      exists w, s', e. repeat split; auto. discriminate.
    + intros; now apply IH1.
  - destruct Hg as [Hn Hg1].
    apply (IH1 Hg1) in H. destruct H as (w & s' & e & -> & Hw & He & Hs & Hk).
    replace (length (w ++ s') - length s') with (length w) in Hk
      by (rewrite length_app; lia).
    rewrite firstn_app, Nat.sub_diag, firstn_all in Hk. simpl in Hk.
    rewrite app_nil_r in Hk.
    exists w, s', ((n, w) :: e). repeat split.
    + now constructor.
    + constructor; [apply Hn, Hw | exact He].
    + intros n' Hn'. simpl in Hn'. apply orb_true_iff in Hn'.
      destruct Hn' as [E|E]; [left; now apply Nat.eqb_eq in E | right; auto].
    + exact Hk.
  - destruct (m unit r1 s g _); [|discriminate].
    exists [], s, []. repeat split; try constructor; try discriminate. exact H.
  - exists [], s, []. repeat split; try constructor; try discriminate.
    destruct s as [|c [|? ?]]; try discriminate; auto.
    destruct (Ascii.eqb c LF); [exact H | discriminate].
Qed.

Lemma match_here_sound (r : regex) (pos : nat) (s : text) (mt : rmatch) :
  groups_in P r ->
  match_here r pos s = Some mt ->
  exists w s',
    s = w ++ s' /\ lang r w /\
    m_start mt = pos /\ m_end mt = pos + length w /\
    caps_in P (m_groups mt) /\
    (forall n, sets_group r n = true -> In n (map fst (m_groups mt))).
Proof.
  intros Hg E. unfold match_here in E.
  apply (m_sound r Hg) in E. destruct E as (w & s' & e & Hs & Hw & He & Hse & Hk).
  inversion Hk; subst; clear Hk. cbn [m_start m_end m_groups].
  rewrite app_nil_r. exists w, s'. repeat split; auto.
  rewrite length_app. f_equal. lia.
Qed.

Lemma search_from_sound (r : regex) :
  groups_in P r ->
  forall s pos mt,
    search_from r pos s = Some mt ->
    exists pre w post,
      s = pre ++ w ++ post /\ lang r w /\
      m_start mt = pos + length pre /\ m_end mt = pos + length pre + length w /\
      caps_in P (m_groups mt) /\
      (forall n, sets_group r n = true -> In n (map fst (m_groups mt))).
Proof.
  intros Hg. induction s as [|c s IH]; intros pos mt H; cbn [search_from] in H.
  - destruct (match_here r pos []) eqn:E; [|discriminate].
    inversion H; subst.
    apply (match_here_sound r pos [] mt Hg) in E.
    destruct E as (w & s' & Hs & Hw & Hst & Hen & He & Hse).
    exists [], w, s'. simpl. repeat split; auto; lia.
  - destruct (match_here r pos (c :: s)) eqn:E.
    + inversion H; subst.
      apply (match_here_sound r pos (c :: s) mt Hg) in E.
      destruct E as (w & s' & Hs & Hw & Hst & Hen & He & Hse).
      exists [], w, s'. simpl. repeat split; auto; lia.
    + apply IH in H. destruct H as (pre & w & post & -> & Hw & Hst & Hen & He & Hse).
      exists (c :: pre), w, post. simpl. repeat split; auto; lia.
Qed.

Lemma search_sound (r : regex) (s : text) (mt : rmatch) :
  groups_in P r -> search r s = Some mt -> match_of P r s mt.
Proof.
  intros Hg H. apply (search_from_sound r Hg) in H.
  destruct H as (pre & w & post & H1 & H2 & H3 & H4 & H5 & H6).
  exists pre, w, post. repeat split; auto.
Qed.

Lemma findall_gas_sound (r : regex) :
  groups_in P r ->
  forall gas s mt,
    In mt (findall_gas gas r s) ->
    caps_in P (m_groups mt) /\
    (forall n, sets_group r n = true -> In n (map fst (m_groups mt))).
Proof.
  intros Hg. induction gas as [|gas IH]; intros s mt H; cbn [findall_gas] in H;
    [contradiction|].
  destruct (search r s) as [m0|] eqn:E; [|contradiction].
  cbv zeta in H. destruct H as [<-|H].
  - apply (search_sound r s m0 Hg) in E.
    destruct E as (? & ? & ? & _ & _ & _ & _ & H5 & H6). auto.
  - destruct (length s <? _); [contradiction|]. eapply IH, H.
Qed.

Lemma cap_get_in (g : caps) (n : nat) (w : text) :
  caps_in P g -> cap_get g n = Some w -> P n w.
Proof.
  induction g as [|[n' w'] g IH]; intros Hc H; simpl in H; [discriminate|].
  inversion Hc; subst. destruct (Nat.eqb n' n) eqn:E.
  - apply Nat.eqb_eq in E. inversion H; subst. assumption.
  - auto.
Qed.
End MatcherSound.

Lemma cap_get_set (g : caps) (n : nat) :
  In n (map fst g) -> exists w, cap_get g n = Some w.
Proof.
  induction g as [|[n' w'] g IH]; intros H; simpl in *; [contradiction|].
  destruct (Nat.eqb n' n) eqn:E; [eauto|].
  destruct H as [H|H]; [apply Nat.eqb_neq in E; contradiction | auto].
Qed.

(** ** The groups of a match are parts of the text *)

Lemma factor_refl (s : text) : factor s s.
Proof. exists [], []. now rewrite app_nil_r. Qed.

Lemma factor_trans (a b c : text) : factor a b -> factor b c -> factor a c.
Proof.
  intros (p1 & q1 & ->) (p2 & q2 & ->). exists (p2 ++ p1), (q1 ++ q2).
  now rewrite <- !app_assoc.
Qed.

Lemma factor_app_l (w a b : text) : factor w a -> factor w (a ++ b).
Proof.
  intros (p & q & ->). exists p, (q ++ b). now rewrite <- !app_assoc.
Qed.

Lemma factor_app_r (w a b : text) : factor w b -> factor w (a ++ b).
Proof.
  intros (p & q & ->). exists (a ++ p), q. now rewrite <- !app_assoc.
Qed.

Lemma factor_firstn (n : nat) (s : text) : factor (firstn n s) s.
Proof. exists [], (skipn n s). cbn [app]. now rewrite firstn_skipn. Qed.

Lemma factor_skipn (n : nat) (s : text) : factor (skipn n s) s.
Proof. exists (firstn n s), []. now rewrite app_nil_r, firstn_skipn. Qed.

Lemma caps_of_weaken (a b : text) (e : caps) :
  factor a b -> caps_of a e -> caps_of b e.
Proof.
  intros Hf H. unfold caps_of in *. eapply Forall_impl; [|exact H].
  intros [n w] Hw. cbn [snd] in *. eapply factor_trans; eauto.
Qed.

Lemma star_loop_factor (A : Type) (b : bool) (r1 : regex)
    (k : text -> caps -> option A) (x : A) :
  (forall s g k', m A r1 s g k' = Some x ->
     exists w s' e, s = w ++ s' /\ caps_of w e /\ k' s' (e ++ g) = Some x) ->
  forall n s g,
    star_loop b (m A r1) k n s g = Some x ->
    exists w s' e, s = w ++ s' /\ caps_of w e /\ k s' (e ++ g) = Some x.
Proof.
  intros Hbody.
  assert (Hstop : forall s g, k s g = Some x ->
            exists w s' e, s = w ++ s' /\ caps_of w e /\ k s' (e ++ g) = Some x).
  { intros s g Hk. exists [], s, []. repeat split; [constructor | exact Hk]. }
  induction n as [|n IH]; intros s g H; simpl in H.
  - now apply Hstop.
  - assert (Hagain :
      m A r1 s g (fun s' g' => if length s' <? length s
                               then star_loop b (m A r1) k n s' g' else None) = Some x ->
      exists w s' e, s = w ++ s' /\ caps_of w e /\ k s' (e ++ g) = Some x).
    { intros Hm. apply Hbody in Hm.
      destruct Hm as (w1 & s1 & e1 & -> & He1 & Hk1).
      destruct (length s1 <? length (w1 ++ s1)); [|discriminate].
      apply IH in Hk1.
      destruct Hk1 as (w2 & s2 & e2 & -> & He2 & Hk2).
      exists (w1 ++ w2), s2, (e2 ++ e1).
      rewrite <- !app_assoc. repeat split.
      - apply Forall_app; split.
        + eapply caps_of_weaken; [|exact He2]. apply factor_app_r, factor_refl.
        + eapply caps_of_weaken; [|exact He1]. apply factor_app_l, factor_refl.
      - exact Hk2. }
    destruct b.
    + destruct (m A r1 s g _) eqn:E.
      * inversion H; subst. now apply Hagain.
      * now apply Hstop.
    + destruct (k s g) eqn:E.
      * inversion H; subst. now apply Hstop.
      * now apply Hagain.
Qed.

(** The groups a match adds are parts of the text it consumed. *)
Lemma m_factor (r : regex) :
  forall (A : Type) (s : text) (g : caps) (k : text -> caps -> option A) (x : A),
    m A r s g k = Some x ->
    exists w s' e, s = w ++ s' /\ caps_of w e /\ k s' (e ++ g) = Some x.
Proof.
  induction r as [ | c | p | r1 IH1 r2 IH2 | r1 IH1 r2 IH2 | r1 IH1 | r1 IH1
                  | n r1 IH1 | r1 IH1 | ]; intros A s g k x H; simpl in H.
  - exists [], s, []. repeat split; [constructor | exact H].
  - destruct s as [|a s']; [discriminate|].
    destruct (Ascii.eqb a c); [|discriminate].
    exists [a], s', []. repeat split; [constructor | exact H].
  - destruct s as [|a s']; [discriminate|].
    destruct (p a); [|discriminate].
    exists [a], s', []. repeat split; [constructor | exact H].
  - apply IH1 in H. destruct H as (w1 & s1 & e1 & -> & He1 & H).
    apply IH2 in H. destruct H as (w2 & s2 & e2 & -> & He2 & H).
    exists (w1 ++ w2), s2, (e2 ++ e1). rewrite <- !app_assoc. repeat split.
    + apply Forall_app; split.
      * eapply caps_of_weaken; [|exact He2]. apply factor_app_r, factor_refl.
      * eapply caps_of_weaken; [|exact He1]. apply factor_app_l, factor_refl.
    + exact H.
  - destruct (m A r1 s g k) eqn:E.
    + inversion H; subst. now apply IH1 in E.
    + now apply IH2 in H.
  - apply (star_loop_factor A true r1 k x) in H; [exact H|].
    intros; now apply IH1.
  - apply (star_loop_factor A false r1 k x) in H; [exact H|].
    intros; now apply IH1.
  - apply IH1 in H. destruct H as (w & s' & e & -> & He & Hk).
    replace (length (w ++ s') - length s') with (length w) in Hk
      by (rewrite length_app; lia).
    rewrite firstn_app, Nat.sub_diag, firstn_all in Hk. simpl in Hk.
    rewrite app_nil_r in Hk.
    exists w, s', ((n, w) :: e). repeat split.
    + constructor; [apply factor_refl | exact He].
    + exact Hk.
  - destruct (m unit r1 s g _); [|discriminate].
    exists [], s, []. repeat split; [constructor | exact H].
  - exists [], s, []. repeat split; [constructor|].
    destruct s as [|c [|? ?]]; try discriminate; auto.
    destruct (Ascii.eqb c LF); [exact H | discriminate].
Qed.

Lemma match_here_factor (r : regex) (pos : nat) (s : text) (mt : rmatch) :
  match_here r pos s = Some mt -> caps_of s (m_groups mt).
Proof.
  intros E. unfold match_here in E. apply m_factor in E.
  destruct E as (w & s' & e & -> & He & Hk).
  inversion Hk; subst; clear Hk. cbn [m_groups]. rewrite app_nil_r.
  eapply caps_of_weaken; [|exact He]. apply factor_app_l, factor_refl.
Qed.

Lemma search_from_factor (r : regex) :
  forall s pos mt, search_from r pos s = Some mt -> caps_of s (m_groups mt).
Proof.
  induction s as [|c s IH]; intros pos mt H; cbn [search_from] in H.
  - destruct (match_here r pos []) eqn:E; [|discriminate].
    inversion H; subst. now apply match_here_factor in E.
  - destruct (match_here r pos (c :: s)) eqn:E.
    + inversion H; subst. now apply match_here_factor in E.
    + apply IH in H. eapply caps_of_weaken; [|exact H].
      exists [c], []. now rewrite app_nil_r.
Qed.

Lemma findall_gas_factor (r : regex) :
  forall gas s mt, In mt (findall_gas gas r s) -> caps_of s (m_groups mt).
Proof.
  induction gas as [|gas IH]; intros s mt H; cbn [findall_gas] in H;
    [contradiction|].
  destruct (search r s) as [m0|] eqn:E; [|contradiction].
  cbv zeta in H. destruct H as [<-|H].
  - now apply search_from_factor in E.
  - destruct (length s <? _); [contradiction|].
    apply IH in H. eapply caps_of_weaken; [|exact H]. apply factor_skipn.
Qed.

Lemma cap_get_factor (s : text) (g : caps) (n : nat) (w : text) :
  caps_of s g -> cap_get g n = Some w -> factor w s.
Proof.
  induction g as [|[n' w'] g IH]; intros Hc H; simpl in H; [discriminate|].
  inversion Hc; subst. destruct (Nat.eqb n' n).
  - inversion H; subst. assumption.
  - auto.
Qed.

(** ** Digits and [int] *)

Lemma lang_star_cls (p : ascii -> bool) (r : regex) (w : text) :
  lang r w -> r = Star (Cls p) -> Forall (fun c => p c = true) w.
Proof.
  induction 1; intros E; try discriminate.
  - constructor.
  - inversion E; subst. apply Forall_app; split; auto.
    inversion H; subst. now repeat constructor.
Qed.

Lemma lang_plus_digit (w : text) : lang (Plus digit) w -> digit_string w.
Proof.
  intros H. inversion H as [ | | |r1 r2 w1 w2 H1 H2| | | | | | | | | ]; subst.
  inversion H1; subst. split; [discriminate|].
  constructor; [assumption|]. now apply (lang_star_cls is_digit (Star digit)).
Qed.

Lemma int_acc_digits (w : text) :
  Forall (fun c => is_digit c = true) w ->
  forall acc, (0 <= acc)%Z -> exists z, int_acc acc w = Ret z /\ (0 <= z)%Z.
Proof.
  induction 1 as [|c w Hc Hw IH]; intros acc Hacc; cbn [int_acc].
  - eauto.
  - rewrite Hc. apply IH. unfold is_digit in Hc.
    apply andb_true_iff in Hc. destruct Hc as [Hc _].
    apply Nat.leb_le in Hc. lia.
Qed.

Lemma int_acc_Ret (w : text) :
  forall acc z,
    int_acc acc w = Ret z -> (0 <= acc)%Z ->
    (0 <= z)%Z /\ Forall (fun c => is_digit c = true) w.
Proof.
  induction w as [|c w IH]; intros acc z H Hacc; cbn [int_acc] in H.
  - inversion H; subst. split; [assumption | constructor].
  - destruct (is_digit c) eqn:Hc; [|discriminate].
    destruct (IH _ _ H) as [Hz Hw].
    + unfold is_digit in Hc. apply andb_true_iff in Hc. destruct Hc as [Hc _].
      apply Nat.leb_le in Hc. lia.
    + split; [exact Hz | constructor; assumption].
Qed.

(** A conversion that succeeds read at most [max_str_digits] digits and
    gave no negative number. *)
Lemma int_Ret (w : text) (z : Z) :
  int w = Ret z ->
  (0 <= z)%Z /\ digit_string w /\ (Z.of_nat (length w) <= max_str_digits)%Z.
Proof.
  unfold int. destruct w as [|c w]; [discriminate|].
  destruct (max_str_digits <? Z.of_nat (length (c :: w)))%Z eqn:E; [discriminate|].
  apply Z.ltb_ge in E. intros H.
  destruct (int_acc_Ret _ _ _ H (Z.le_refl 0)) as [Hz Hd].
  split; [exact Hz|]. split; [|exact E]. split; [discriminate | exact Hd].
Qed.

Lemma int_digit_string (w : text) :
  digit_string w -> (Z.of_nat (length w) <= max_str_digits)%Z ->
  exists z, int w = Ret z /\ (0 <= z)%Z.
Proof.
  intros [Hne Hd] Hlen. destruct w as [|c w]; [contradiction|].
  unfold int. apply Z.ltb_ge in Hlen. rewrite Hlen.
  apply int_acc_digits; [assumption | lia].
Qed.

Lemma int_too_long (w : text) :
  (max_str_digits < Z.of_nat (length w))%Z -> int w = Exc ValueError.
Proof.
  intros H. unfold int. destruct w as [|c w]; [reflexivity|].
  apply Z.ltb_lt in H. now rewrite H.
Qed.

(** [int] raises nothing but [ValueError]. *)
Lemma int_Exc (w : text) (e : exn) : int w = Exc e -> e = ValueError.
Proof.
  unfold int. destruct w as [|c w]; [intros H; now inversion H|].
  destruct (max_str_digits <? _)%Z; [intros H; now inversion H|].
  generalize 0%Z. induction (c :: w) as [|a l IH]; intros acc; cbn [int_acc].
  - discriminate.
  - destruct (is_digit a); [apply IH | intros H; now inversion H].
Qed.

(** ** Runs of digits *)

Lemma leading_digits_prefix (d post : text) :
  Forall (fun c => is_digit c = true) d ->
  length d <= length (leading_digits (d ++ post)).
Proof.
  induction 1 as [|c d Hc Hd IH]; cbn [app leading_digits length]; [lia|].
  rewrite Hc. cbn [length]. lia.
Qed.

Lemma longest_digit_run_head (s : text) :
  length (leading_digits s) <= longest_digit_run s.
Proof. destruct s as [|c s]; cbn [longest_digit_run leading_digits length]; lia. Qed.

(** A run of digits of a text is no longer than its longest run. *)
Lemma digit_factor_length (d s : text) :
  factor d s -> Forall (fun c => is_digit c = true) d ->
  length d <= longest_digit_run s.
Proof.
  intros (pre & post & ->) Hd. induction pre as [|a pre IH].
  - cbn [app]. etransitivity; [apply (leading_digits_prefix d post Hd)|].
    apply longest_digit_run_head.
  - cbn [app longest_digit_run]. lia.
Qed.

(** In a text of short numbers every run of digits converts. *)
Lemma int_of_factor (d s : text) :
  factor d s -> digit_string d ->
  (exists z, int d = Ret z /\ (0 <= z)%Z) \/
  (int d = Exc ValueError /\ ~ short_numbers s).
Proof.
  intros Hf Hd.
  destruct (Z.leb_spec (Z.of_nat (length d)) max_str_digits) as [Hle|Hgt].
  - left. now apply int_digit_string.
  - right. split; [now apply int_too_long|]. unfold short_numbers.
    pose proof (digit_factor_length d s Hf (proj2 Hd)). lia.
Qed.

(** The group of digits of a match found in [s]. *)
Lemma int_of_group_digits (r : regex) (s : text) (mt : rmatch) :
  groups_in all_digits r -> sets_group r 1 = true ->
  search r s = Some mt ->
  exists d, cap_get (m_groups mt) 1 = Some d /\ digit_string d /\ factor d s.
Proof.
  intros Hg Hs H. pose proof (search_from_factor r s 0 mt H) as Hf.
  apply (search_sound all_digits r s mt Hg) in H.
  destruct H as (pre & w & post & _ & _ & _ & _ & Hc & Hset).
  destruct (cap_get_set _ _ (Hset 1 Hs)) as [d Hd].
  exists d. split; [exact Hd|]. split.
  - exact (cap_get_in all_digits _ _ _ Hc Hd).
  - exact (cap_get_factor _ _ _ _ Hf Hd).
Qed.

Lemma int_of_group_Ret (mt : rmatch) (n : nat) (z : Z) :
  int_of_group mt n = Ret z -> (0 <= z)%Z.
Proof.
  unfold int_of_group. destruct (cap_get (m_groups mt) n); [|discriminate].
  intros H. exact (proj1 (int_Ret _ _ H)).
Qed.

(** The conversion of the group of digits of a match found in [s]: it
    succeeds, or raises [ValueError] on a run of more than [max_str_digits]
    digits of [s]. *)
Lemma int_of_group_outcome (r : regex) (s : text) (mt : rmatch) :
  groups_in all_digits r -> sets_group r 1 = true ->
  search r s = Some mt ->
  (exists z, int_of_group mt 1 = Ret z /\ (0 <= z)%Z) \/
  (int_of_group mt 1 = Exc ValueError /\ ~ short_numbers s).
Proof.
  intros Hg Hs H.
  destruct (int_of_group_digits r s mt Hg Hs H) as (d & Hd & Hdig & Hf).
  unfold int_of_group. rewrite Hd. now apply int_of_factor.
Qed.

Lemma strip_of_group_total (r : regex) (s : text) (mt : rmatch) :
  groups_in anything r -> sets_group r 1 = true ->
  search r s = Some mt ->
  exists v, strip_of_group mt 1 = Ret v.
Proof.
  intros Hg Hs H. apply (search_sound anything r s mt Hg) in H.
  destruct H as (pre & w & post & _ & _ & _ & _ & Hc & Hset).
  destruct (cap_get_set _ _ (Hset 1 Hs)) as [d Hd].
  unfold strip_of_group. rewrite Hd. eauto.
Qed.

(** ** The groups of the scraper's patterns *)

Lemma groups_in_Lit (P : nat -> text -> Prop) (s : text) : groups_in P (Lit s).
Proof. induction s; simpl; auto. Qed.

Lemma sets_group_Seq_r (r1 r2 : regex) (n : nat) :
  sets_group r2 n = true -> sets_group (Seq r1 r2) n = true.
Proof. intros H. simpl. rewrite H. apply orb_true_r. Qed.

Lemma sets_group_Seq_l (r1 r2 : regex) (n : nat) :
  sets_group r1 n = true -> sets_group (Seq r1 r2) n = true.
Proof. intros H. simpl. now rewrite H. Qed.

Ltac groups_of_pattern :=
  cbn [Cat groups_in Plus Opt modifier digit space sign not_nl not_nl_cr
       not_rbracket alpha_or_space];
  repeat match goal with
         | |- _ /\ _ => split
         | |- groups_in _ (Lit _) => apply groups_in_Lit
         | |- True => exact I
         | |- forall w, lang _ w -> all_digits _ w => exact lang_plus_digit
         | |- forall w, lang _ w -> anything _ w => intros; exact I
         end.

Ltac sets_group_1 :=
  cbn [Cat];
  repeat first [ apply sets_group_Seq_l; reflexivity | apply sets_group_Seq_r ].

Lemma digits_pattern_groups :
  groups_in all_digits digits_pattern /\ sets_group digits_pattern 1 = true.
Proof. split; [unfold digits_pattern; groups_of_pattern | reflexivity]. Qed.

Lemma rating_pattern_groups :
  groups_in all_digits rating_pattern /\ sets_group rating_pattern 1 = true.
Proof. split; [unfold rating_pattern; groups_of_pattern | reflexivity]. Qed.

Lemma header_pattern_groups (section : text) :
  groups_in all_digits (header_pattern section) /\
  sets_group (header_pattern section) 1 = true.
Proof.
  split; unfold header_pattern; [groups_of_pattern | sets_group_1].
Qed.

Lemma tier_pattern_groups (tier : string) :
  groups_in all_digits (tier_pattern tier) /\
  sets_group (tier_pattern tier) 1 = true.
Proof.
  split; unfold tier_pattern; [groups_of_pattern | sets_group_1].
Qed.

Lemma cat_pattern_groups (cat : text) :
  groups_in all_digits (cat_pattern cat) /\
  sets_group (cat_pattern cat) 1 = true.
Proof.
  split; unfold cat_pattern; [groups_of_pattern | sets_group_1].
Qed.

Lemma bracket_pattern_groups (label : string) :
  groups_in anything (bracket_pattern label) /\
  sets_group (bracket_pattern label) 1 = true.
Proof.
  split; unfold bracket_pattern; [groups_of_pattern | sets_group_1].
Qed.

Lemma line_pattern_groups (label : string) :
  groups_in anything (line_pattern label) /\
  sets_group (line_pattern label) 1 = true.
Proof.
  split; unfold line_pattern; [groups_of_pattern | sets_group_1].
Qed.

Lemma lang_numeral_token (w : text) :
  lang (Seq (Plus digit) modifier) w -> numeral_token w.
Proof.
  intros H. inversion H as [ | | |r1 r2 w1 w2 H1 H2| | | | | | | | | ]; subst.
  apply lang_plus_digit in H1. exists w1, w2. repeat split; try apply H1.
  unfold modifier, Opt in H2.
  inversion H2 as [ | | | |r1 r2 w Hl|r1 r2 w Hr| | | | | | | ]; subst.
  - right. inversion Hl as [ | | |r1 r2 u1 u2 Hu1 Hu2| | | | | | | | | ]; subst.
    apply lang_plus_digit in Hu2. inversion Hu1; subst.
    exists c, u2. repeat split; try apply Hu2.
    match goal with Hp : _ = true |- _ => apply orb_true_iff in Hp; destruct Hp as [Hp|Hp];
      apply Ascii.eqb_eq in Hp; auto end.
  - left. now inversion Hr.
Qed.

Lemma sub_attr_pattern_groups :
  groups_in sub_attr_groups sub_attr_pattern /\
  sets_group sub_attr_pattern 1 = true.
Proof.
  split; [|reflexivity].
  unfold sub_attr_pattern. cbn [Cat groups_in]. repeat split.
  - intros w Hw _. now apply lang_numeral_token.
  - intros w _ E. discriminate.
Qed.

(** ** The tier counts and the summary *)

Lemma tier_count_Ret (tier : string) (content : text) (z : Z) :
  tier_count tier content = Ret z -> (0 <= z)%Z.
Proof.
  unfold tier_count. destruct (search (tier_pattern tier) content) as [mt|].
  - apply int_of_group_Ret.
  - intros H. inversion H. lia.
Qed.

Lemma tier_count_outcome (tier : string) (content : text) :
  (exists z, tier_count tier content = Ret z) \/
  (tier_count tier content = Exc ValueError /\ ~ short_numbers content).
Proof.
  unfold tier_count. destruct (search (tier_pattern tier) content) as [mt|] eqn:E.
  - destruct (tier_pattern_groups tier) as [Hg Hs].
    destruct (int_of_group_outcome _ _ _ Hg Hs E) as [(z & Hz & _)|H]; eauto.
  - eauto.
Qed.

Lemma breakdown_loop_outcome (content : text) (categories : list text) :
  forall breakdown,
    (exists d, breakdown_loop content categories breakdown = Ret d) \/
    (breakdown_loop content categories breakdown = Exc ValueError /\
     ~ short_numbers content).
Proof.
  induction categories as [|cat rest IH]; intros breakdown; cbn [breakdown_loop].
  - eauto.
  - destruct (search (cat_pattern cat) content) as [mt|] eqn:E; [|apply IH].
    destruct (cat_pattern_groups cat) as [Hg Hs].
    destruct (int_of_group_outcome _ _ _ Hg Hs E) as [(z & -> & _)|[-> H]];
      cbn [bind]; [apply IH | now right].
Qed.

(** The record built by [extract_badge_info_from_markdown], field by field. *)
Lemma extract_badge_info_shape (content : text) (badge_info : BadgeInfo) :
  extract_badge_info_from_markdown content = Ret badge_info ->
  exists legendary hof gold silver bronze breakdown,
    tier_count "legendary" content = Ret legendary /\
    tier_count "hof" content = Ret hof /\
    tier_count "gold" content = Ret gold /\
    tier_count "silver" content = Ret silver /\
    tier_count "bronze" content = Ret bronze /\
    (0 <= legendary /\ 0 <= hof /\ 0 <= gold /\ 0 <= silver /\ 0 <= bronze)%Z /\
    breakdown_loop content badge_categories [] = Ret breakdown /\
    extract_badge_info_from_markdown content =
    Ret {| total_badges := legendary + hof + gold + silver + bronze;
           hof_badges := hof;
           gold_badges := gold;
           silver_badges := silver;
           bronze_badges := bronze;
           legendary_badges := legendary;
           badge_breakdown := breakdown;
           individual_badges :=
             extract_individual_badges content
               {| total_badges := legendary + hof + gold + silver + bronze;
                  hof_badges := hof;
                  gold_badges := gold;
                  silver_badges := silver;
                  bronze_badges := bronze;
                  legendary_badges := legendary;
                  badge_breakdown := breakdown;
                  individual_badges := [] |} |}.
Proof.
  unfold extract_badge_info_from_markdown. intros H.
  destruct (tier_count "legendary" content) as [l|] eqn:Hl; [|discriminate].
  destruct (tier_count "hof" content) as [h|] eqn:Hh; [|discriminate].
  destruct (tier_count "gold" content) as [g|] eqn:Hg; [|discriminate].
  destruct (tier_count "silver" content) as [s|] eqn:Hs; [|discriminate].
  destruct (tier_count "bronze" content) as [b|] eqn:Hb; [|discriminate].
  cbn [bind] in H |- *.
  destruct (breakdown_loop content badge_categories []) as [d|] eqn:Hd;
    [|discriminate].
  exists l, h, g, s, b, d.
  pose proof (tier_count_Ret _ _ _ Hl). pose proof (tier_count_Ret _ _ _ Hh).
  pose proof (tier_count_Ret _ _ _ Hg). pose proof (tier_count_Ret _ _ _ Hs).
  pose proof (tier_count_Ret _ _ _ Hb).
  repeat split; auto.
Qed.

(** The summary is returned, or a number of more than [max_str_digits]
    digits made [int] raise. *)
Lemma extract_badge_info_outcome (content : text) :
  (exists badge_info, extract_badge_info_from_markdown content = Ret badge_info) \/
  (extract_badge_info_from_markdown content = Exc ValueError /\
   ~ short_numbers content).
Proof.
  unfold extract_badge_info_from_markdown.
  destruct (tier_count_outcome "legendary" content) as [(l & ->)|[-> H]];
    [|now right].
  destruct (tier_count_outcome "hof" content) as [(h & ->)|[-> H]];
    [|now right].
  destruct (tier_count_outcome "gold" content) as [(g & ->)|[-> H]];
    [|now right].
  destruct (tier_count_outcome "silver" content) as [(s & ->)|[-> H]];
    [|now right].
  destruct (tier_count_outcome "bronze" content) as [(b & ->)|[-> H]];
    [|now right].
  cbn [bind].
  destruct (breakdown_loop_outcome content badge_categories [])
    as [(d & ->)|[-> H]]; [|now right].
  cbn [bind]. eauto.
Qed.

(** ** The loop over the badge matches *)

Lemma badge_loop_length (badge_info : BadgeInfo) (ms : list rmatch) :
  forall i,
    length (badge_loop badge_info i ms)
    = Nat.min (length ms) (Z.to_nat (total_badges badge_info - i)).
Proof.
  induction ms as [|mt ms IH]; intros i; cbn [badge_loop length].
  - reflexivity.
  - destruct (i >=? total_badges badge_info)%Z eqn:E.
    + rewrite Z.geb_leb in E; apply Z.leb_le in E.
      replace (Z.to_nat (total_badges badge_info - i)) with 0%nat by lia.
      reflexivity.
    + rewrite Z.geb_leb in E; apply Z.leb_gt in E. cbn [length]. rewrite IH. lia.
Qed.

Lemma badge_loop_nth (badge_info : BadgeInfo) (ms : list rmatch) :
  forall i j,
    nth_error (badge_loop badge_info i ms) j
    = if (i + Z.of_nat j <? total_badges badge_info)%Z
      then option_map (badge_of badge_info (i + Z.of_nat j)) (nth_error ms j)
      else None.
Proof.
  induction ms as [|mt ms IH]; intros i j; cbn [badge_loop].
  - destruct j; cbn; now destruct (_ <? _)%Z.
  - destruct (i >=? total_badges badge_info)%Z eqn:E.
    + rewrite Z.geb_leb in E; apply Z.leb_le in E.
      destruct (i + Z.of_nat j <? total_badges badge_info)%Z eqn:E'.
      * apply Z.ltb_lt in E'. lia.
      * now destruct j.
    + rewrite Z.geb_leb in E; apply Z.leb_gt in E. destruct j as [|j].
      * cbn [nth_error]. rewrite Z.add_0_r.
        apply Z.ltb_lt in E. rewrite E. reflexivity.
      * cbn [nth_error]. rewrite IH.
        replace (i + 1 + Z.of_nat j)%Z with (i + Z.of_nat (S j))%Z by lia.
        reflexivity.
Qed.

Lemma extract_individual_badges_eq (content : text) (badge_info : BadgeInfo) :
  extract_individual_badges content badge_info
  = badge_loop badge_info 0 (badge_matches_of content).
Proof.
  unfold extract_individual_badges, badge_matches_of.
  destruct (badge_section_of content); [reflexivity|].
  reflexivity.
Qed.

Lemma quality_at_cases (badge_info : BadgeInfo) (i : Z) :
  let a := legendary_badges badge_info in
  let b := hof_badges badge_info in
  let c := gold_badges badge_info in
  let d := silver_badges badge_info in
  let e := bronze_badges badge_info in
  (0 <= a -> 0 <= b -> 0 <= c -> 0 <= d -> 0 <= e ->
   (i < a -> quality_at badge_info i = str "Legendary") /\
   (a <= i < a + b -> quality_at badge_info i = str "Hall of Fame") /\
   (a + b <= i < a + b + c -> quality_at badge_info i = str "Gold") /\
   (a + b + c <= i < a + b + c + d -> quality_at badge_info i = str "Silver") /\
   (a + b + c + d <= i < a + b + c + d + e ->
    quality_at badge_info i = str "Bronze") /\
   (a + b + c + d + e <= i -> quality_at badge_info i = str "Unknown"))%Z.
Proof.
  intros a b c d e Ha Hb Hc Hd He. unfold quality_at. fold a b c d e.
  repeat split; intros H;
    repeat match goal with
           | |- context [(?x <? ?y)%Z] =>
               let E := fresh "E" in
               destruct (x <? y)%Z eqn:E;
               [apply Z.ltb_lt in E | apply Z.ltb_ge in E]
           end; try reflexivity; lia.
Qed.

(** ** The badge summary *)

(** C1. The total of the badge summary that is returned is the sum of its
    five tier counts, and each tier count is the number read after that
    tier's image (0 without it): the total is computed from the counts and
    read nowhere in the document.  The summary is returned for every
    document in which no run of digits is longer than 4300. *)
Theorem total_badges_is_sum_of_tiers (content : text) :
  (short_numbers content ->
   exists badge_info,
     extract_badge_info_from_markdown content = Ret badge_info) /\
  (forall badge_info,
     extract_badge_info_from_markdown content = Ret badge_info ->
     (total_badges badge_info
      = legendary_badges badge_info + hof_badges badge_info
        + gold_badges badge_info + silver_badges badge_info
        + bronze_badges badge_info)%Z /\
     tier_count "legendary" content = Ret (legendary_badges badge_info) /\
     tier_count "hof" content = Ret (hof_badges badge_info) /\
     tier_count "gold" content = Ret (gold_badges badge_info) /\
     tier_count "silver" content = Ret (silver_badges badge_info) /\
     tier_count "bronze" content = Ret (bronze_badges badge_info)).
Proof.
  split.
  - intros Hshort.
    destruct (extract_badge_info_outcome content) as [H|[_ H]];
      [exact H | contradiction].
  - intros badge_info E.
    destruct (extract_badge_info_shape content badge_info E)
      as (l & h & g & s & b & d & Hl & Hh & Hg & Hs & Hb & _ & _ & E').
    rewrite E' in E. inversion E; subst badge_info; clear E.
    cbn. repeat split; assumption.
Qed.

Lemma total_badges_is_sum_of_tiers_witness :
  exists badge_info,
    extract_badge_info_from_markdown doc_two_badges = Ret badge_info /\
    (total_badges badge_info
     = legendary_badges badge_info + hof_badges badge_info
       + gold_badges badge_info + silver_badges badge_info
       + bronze_badges badge_info)%Z /\
    tier_count "gold" doc_two_badges = Ret 1%Z.
Proof.
  destruct (total_badges_is_sum_of_tiers doc_two_badges) as [Hret Hsum].
  destruct Hret as (badge_info & E); [vm_compute; discriminate|].
  exists badge_info. split; [exact E|].
  destruct (Hsum badge_info E) as (Ht & _ & _ & Hg & _).
  split; [exact Ht|]. rewrite Hg. f_equal.
  revert E. vm_compute. intros E. inversion E. reflexivity.
Defined.

(** C2. The list returned by [extract_individual_badges] is no longer than
    [total_badges]; with more badge matches in the document than
    [total_badges] it has exactly [total_badges] entries; entry [j] is built
    from match [j] and nothing is built from the matches at [total_badges]
    and beyond; extracting again from the same text gives the same list.
    The counts are first any with a non-negative total, then those of
    [extract_badge_info_from_markdown]. *)
Theorem individual_badges_capped_at_total (content : text) :
  (forall badge_info,
     (0 <= total_badges badge_info)%Z ->
     let out := extract_individual_badges content badge_info in
     let found := badge_matches_of content in
     (Z.of_nat (length out) <= total_badges badge_info)%Z /\
     ((total_badges badge_info < Z.of_nat (length found))%Z ->
      Z.of_nat (length out) = total_badges badge_info) /\
     (forall j,
        nth_error out j
        = if (Z.of_nat j <? total_badges badge_info)%Z
          then option_map (badge_of badge_info (Z.of_nat j)) (nth_error found j)
          else None) /\
     (forall again, again = extract_individual_badges content badge_info ->
                    again = out)) /\
  (forall badge_info,
     extract_badge_info_from_markdown content = Ret badge_info ->
     let found := badge_matches_of content in
     (Z.of_nat (length (individual_badges badge_info))
      <= total_badges badge_info)%Z /\
     ((total_badges badge_info < Z.of_nat (length found))%Z ->
      Z.of_nat (length (individual_badges badge_info))
      = total_badges badge_info)).
Proof.
  assert (Hlen : forall badge_info,
            (0 <= total_badges badge_info)%Z ->
            (Z.of_nat (length (extract_individual_badges content badge_info))
             <= total_badges badge_info)%Z /\
            ((total_badges badge_info
              < Z.of_nat (length (badge_matches_of content)))%Z ->
             Z.of_nat (length (extract_individual_badges content badge_info))
             = total_badges badge_info)).
  { intros bi H0. rewrite extract_individual_badges_eq, badge_loop_length.
    rewrite Z.sub_0_r. split; [lia|]. intros H. lia. }
  split.
  - intros bi H0 out found. destruct (Hlen bi H0) as [H1 H2].
    repeat split; auto.
    intros j. unfold out, found.
    rewrite extract_individual_badges_eq, badge_loop_nth, Z.add_0_l. reflexivity.
  - intros bi E found.
    destruct (extract_badge_info_shape content bi E)
      as (l & h & g & s & b & d & _ & _ & _ & _ & _ & H0 & _ & E').
    rewrite E' in E. inversion E; subst bi; clear E. cbn [individual_badges total_badges].
    apply (Hlen {| total_badges := l + h + g + s + b; hof_badges := h;
                   gold_badges := g; silver_badges := s; bronze_badges := b;
                   legendary_badges := l; badge_breakdown := d;
                   individual_badges := [] |}).
    cbn. lia.
Qed.

Lemma individual_badges_capped_at_total_witness :
  (0 <= total_badges counts_one_gold)%Z /\
  (total_badges counts_one_gold
   < Z.of_nat (length (badge_matches_of doc_two_badges)))%Z /\
  Z.of_nat (length (extract_individual_badges doc_two_badges counts_one_gold))
  = total_badges counts_one_gold /\
  extract_individual_badges doc_two_badges counts_one_gold = [badge_deadeye].
Proof.
  assert (H0 : (0 <= total_badges counts_one_gold)%Z) by (vm_compute; discriminate).
  assert (H1 : (total_badges counts_one_gold
                < Z.of_nat (length (badge_matches_of doc_two_badges)))%Z)
    by (vm_compute; reflexivity).
  split; [exact H0|]. split; [exact H1|]. split.
  - exact (proj1 (proj2 (proj1 (individual_badges_capped_at_total doc_two_badges)
                           counts_one_gold H0)) H1).
  - vm_compute. reflexivity.
Defined.

(** C3. The badge at index [i] of the returned list has the tier of its
    position: "Legendary" below the legendary count, then "Hall of Fame",
    "Gold", "Silver" and "Bronze" below the successive cumulative sums, and
    "Unknown" at or beyond the sum of the five counts. *)
Theorem badge_tier_is_positional (content : text) (badge_info : BadgeInfo)
    (i : nat) (b : Badge) :
  let a := legendary_badges badge_info in
  let h := hof_badges badge_info in
  let g := gold_badges badge_info in
  let s := silver_badges badge_info in
  let z := bronze_badges badge_info in
  let n := Z.of_nat i in
  (0 <= a)%Z -> (0 <= h)%Z -> (0 <= g)%Z -> (0 <= s)%Z -> (0 <= z)%Z ->
  nth_error (extract_individual_badges content badge_info) i = Some b ->
  quality b = quality_at badge_info n /\
  ((n < a -> quality b = str "Legendary") /\
   (a <= n < a + h -> quality b = str "Hall of Fame") /\
   (a + h <= n < a + h + g -> quality b = str "Gold") /\
   (a + h + g <= n < a + h + g + s -> quality b = str "Silver") /\
   (a + h + g + s <= n < a + h + g + s + z -> quality b = str "Bronze") /\
   (a + h + g + s + z <= n -> quality b = str "Unknown"))%Z.
Proof.
  intros a h g s z n Ha Hh Hg Hs Hz H.
  rewrite extract_individual_badges_eq, badge_loop_nth, Z.add_0_l in H.
  destruct (Z.of_nat i <? total_badges badge_info)%Z; [|discriminate].
  destruct (nth_error (badge_matches_of content) i) as [mt|]; [|discriminate].
  inversion H; subst b; clear H. cbn [quality badge_of].
  split; [reflexivity|].
  exact (quality_at_cases badge_info (Z.of_nat i) Ha Hh Hg Hs Hz).
Qed.

Lemma badge_tier_is_positional_witness :
  nth_error (extract_individual_badges doc_two_badges counts_one_gold_total_two) 1
  = Some badge_limitless_unknown /\
  quality badge_limitless_unknown = str "Unknown".
Proof.
  assert (H : nth_error (extract_individual_badges doc_two_badges
                           counts_one_gold_total_two) 1
              = Some badge_limitless_unknown) by (vm_compute; reflexivity).
  split; [exact H|].
  refine (proj2 (proj2 (proj2 (proj2 (proj2 (proj2
    (badge_tier_is_positional doc_two_badges counts_one_gold_total_two 1
       badge_limitless_unknown _ _ _ _ _ H)))))) _);
    vm_compute; discriminate.
Defined.

(** C10. No badge of the list returned in the badge summary has the tier
    "Unknown": each has one of the five tiers. *)
Theorem no_unknown_tier_in_summary (content : text) (badge_info : BadgeInfo)
    (b : Badge) :
  extract_badge_info_from_markdown content = Ret badge_info ->
  In b (individual_badges badge_info) ->
  quality b <> str "Unknown" /\
  (quality b = str "Legendary" \/ quality b = str "Hall of Fame" \/
   quality b = str "Gold" \/ quality b = str "Silver" \/
   quality b = str "Bronze").
Proof.
  intros E Hin.
  destruct (extract_badge_info_shape content badge_info E)
    as (l & h & g & s & z & d & _ & _ & _ & _ & _ & H0 & _ & E').
  rewrite E' in E. inversion E; subst badge_info; clear E E'.
  cbn [individual_badges] in Hin.
  apply In_nth_error in Hin. destruct Hin as [j Hj].
  rewrite extract_individual_badges_eq, badge_loop_nth, Z.add_0_l in Hj.
  cbn [total_badges] in Hj.
  destruct (Z.of_nat j <? l + h + g + s + z)%Z eqn:Hlt; [|discriminate].
  apply Z.ltb_lt in Hlt.
  destruct (nth_error (badge_matches_of content) j) as [mt|]; [|discriminate].
  inversion Hj; subst b; clear Hj.
  cbn [quality badge_of]. unfold quality_at.
  cbn [legendary_badges hof_badges gold_badges silver_badges bronze_badges].
  repeat match goal with
         | |- context [(?x <? ?y)%Z] =>
             let E := fresh "E" in
             destruct (x <? y)%Z eqn:E;
             [apply Z.ltb_lt in E | apply Z.ltb_ge in E]
         end;
    try lia; (split; [intros C; vm_compute in C; discriminate C | tauto]).
Qed.

Lemma no_unknown_tier_in_summary_witness :
  extract_badge_info_from_markdown doc_two_badges = Ret summary_two_badges /\
  In badge_deadeye (individual_badges summary_two_badges) /\
  quality badge_deadeye <> str "Unknown".
Proof.
  assert (E : extract_badge_info_from_markdown doc_two_badges
              = Ret summary_two_badges) by (vm_compute; reflexivity).
  assert (Hin : In badge_deadeye (individual_badges summary_two_badges))
    by (left; reflexivity).
  split; [exact E|]. split; [exact Hin|].
  exact (proj1 (no_unknown_tier_in_summary doc_two_badges summary_two_badges
                  badge_deadeye E Hin)).
Defined.

(** ** Greedy repetition of a character class *)

Lemma star_loop_S (A : Type) (b : bool)
    (body : text -> caps -> (text -> caps -> option A) -> option A)
    (k : text -> caps -> option A) (n : nat) (s : text) (g : caps) :
  star_loop b body k (S n) s g
  = let again :=
      body s g (fun s' g' =>
                  if length s' <? length s then star_loop b body k n s' g'
                  else None) in
    if b
    then match again with Some x => Some x | None => k s g end
    else match k s g with Some x => Some x | None => again end.
Proof. reflexivity. Qed.

(** After a run [d] of the class that [rest] does not continue, the greedy
    repetition hands [rest] to a continuation that accepts it. *)
Lemma star_loop_cls_greedy (A : Type) (p : ascii -> bool)
    (body : text -> caps -> (text -> caps -> option A) -> option A)
    (k : text -> caps -> option A) (rest : text) (g : caps) (x : A) :
  (forall s g' k', body s g' k' = m A (Cls p) s g' k') ->
  (rest = [] \/ exists c t, rest = c :: t /\ p c = false) ->
  k rest g = Some x ->
  forall d n,
    Forall (fun c => p c = true) d -> length d <= n ->
    star_loop true body k n (d ++ rest) g = Some x.
Proof.
  intros Hbody Hrest Hk. induction d as [|c d IH]; intros n Hd Hn.
  - cbn [app]. destruct n as [|n]; [exact Hk|].
    rewrite star_loop_S. cbv zeta. rewrite Hbody.
    destruct Hrest as [->|(c & t & -> & Hc)]; cbn [m].
    + exact Hk.
    + rewrite Hc. exact Hk.
  - destruct n as [|n]; [cbn in Hn; lia|].
    inversion Hd as [|? ? Hc Hd']; subst.
    rewrite star_loop_S. cbv zeta. rewrite Hbody. cbn [app m]. rewrite Hc.
    replace (length (d ++ rest) <? length (c :: d ++ rest)) with true
      by (symmetry; apply Nat.ltb_lt; cbn [length]; lia).
    rewrite (IH n Hd'); [reflexivity | cbn in Hn; lia].
Qed.

Lemma leading_digits_app (d rest : text) :
  Forall (fun c => is_digit c = true) d ->
  (rest = [] \/ exists c t, rest = c :: t /\ is_digit c = false) ->
  leading_digits (d ++ rest) = d.
Proof.
  intros Hd Hrest. induction Hd as [|c d Hc Hd IH]; cbn [app leading_digits].
  - destruct Hrest as [->|(c & t & -> & Hc)]; cbn [leading_digits]; [|rewrite Hc];
      reflexivity.
  - rewrite Hc, IH. reflexivity.
Qed.

(** [re.search(r'(\d+)', w)] on a token that starts with the digits [d]. *)
Lemma search_digits_pattern (d rest : text) :
  digit_string d ->
  (rest = [] \/ exists c t, rest = c :: t /\ is_digit c = false) ->
  search digits_pattern (d ++ rest)
  = Some {| m_start := 0; m_end := length d; m_groups := [(1, d)] |}.
Proof.
  intros [Hne Hd] Hrest. destruct d as [|c d]; [contradiction|].
  inversion Hd as [|? ? Hc Hd']; subst.
  unfold search. set (s := (c :: d) ++ rest).
  assert (E : match_here digits_pattern 0 s
              = Some {| m_start := 0; m_end := length (c :: d);
                        m_groups := [(1, c :: d)] |}).
  { unfold match_here, digits_pattern, Plus, digit. cbn [m]. unfold s.
    cbn [app]. rewrite Hc.
    apply (star_loop_cls_greedy rmatch is_digit); auto.
    - f_equal. f_equal.
      + cbn [length]. rewrite length_app. lia.
      + replace (length (c :: d ++ rest) - length rest) with (length (c :: d))
          by (cbn [length]; rewrite length_app; lia).
        change (c :: d ++ rest) with ((c :: d) ++ rest).
        rewrite firstn_app, Nat.sub_diag, firstn_all. cbn [firstn].
        now rewrite app_nil_r.
    - rewrite length_app. lia. }
  destruct s; cbn [search_from]; rewrite E; reflexivity.
Qed.

Lemma numeral_token_rest (rest : text) :
  (rest = [] \/
   exists sg d2, rest = sg :: d2 /\ (sg = "+"%char \/ sg = "-"%char) /\
                 digit_string d2) ->
  rest = [] \/ exists c t, rest = c :: t /\ is_digit c = false.
Proof.
  intros [->|(sg & d2 & -> & Hsg & _)]; [now left|right].
  exists sg, d2. split; [reflexivity|]. destruct Hsg; subst; reflexivity.
Qed.

(** The number of a token is read from its leading digits. *)
Lemma numeral_token_value (w : text) :
  numeral_token w ->
  exists dm,
    search digits_pattern w = Some dm /\
    int_of_group dm 1 = int (leading_digits w) /\
    digit_string (leading_digits w) /\
    factor (leading_digits w) w.
Proof.
  intros (d & rest & -> & Hd & Hrest).
  apply numeral_token_rest in Hrest.
  rewrite (search_digits_pattern d rest Hd Hrest).
  rewrite (leading_digits_app d rest (proj2 Hd) Hrest).
  eexists. split; [reflexivity|]. split; [reflexivity|]. split; [exact Hd|].
  apply factor_app_l, factor_refl.
Qed.

(** ** Sub-attributes *)

Lemma text_eqb_eq (a b : text) : text_eqb a b = true -> a = b.
Proof. unfold text_eqb. destruct (list_eq_dec ascii_dec a b); [auto|discriminate]. Qed.

Lemma dict_set_In (V : Type) (d : dict V) (k : text) (v : V) (k' : text) (v' : V) :
  In (k', v') (dict_set d k v) -> In (k', v') d \/ (k' = k /\ v' = v).
Proof.
  induction d as [|[k0 v0] d IH]; cbn [dict_set]; intros H.
  - destruct H as [H|[]]. inversion H; auto.
  - destruct (text_eqb k0 k) eqn:E.
    + apply text_eqb_eq in E. destruct H as [H|H].
      * inversion H; subst. auto.
      * left; right; exact H.
    + destruct H as [H|H].
      * left; left; exact H.
      * destruct (IH H) as [H'|H']; [left; right; exact H' | auto].
Qed.

Lemma findall_sub_attr_token (s : text) (mt : rmatch) :
  In mt (findall sub_attr_pattern s) -> numeral_token (group mt 1).
Proof.
  intros H. unfold findall in H.
  destruct sub_attr_pattern_groups as [Hg Hs].
  destruct (findall_gas_sound sub_attr_groups sub_attr_pattern Hg _ _ _ H)
    as [Hc Hset].
  destruct (cap_get_set _ _ (Hset 1 Hs)) as [w Hw].
  unfold group. rewrite Hw.
  exact (cap_get_in sub_attr_groups _ _ _ Hc Hw eq_refl).
Qed.

Lemma findall_group_factor (r : regex) (s : text) (mt : rmatch) (n : nat) :
  In mt (findall r s) -> factor (group mt n) s.
Proof.
  intros H. unfold findall in H. apply findall_gas_factor in H.
  unfold group. destruct (cap_get (m_groups mt) n) as [w|] eqn:E.
  - exact (cap_get_factor _ _ _ _ H E).
  - exists [], s. reflexivity.
Qed.

Lemma sub_attr_loop_entries (all : list rmatch) :
  (forall mt, In mt all -> numeral_token (group mt 1)) ->
  forall ms acc subs,
    incl ms all ->
    (forall k sa, In (k, sa) acc -> entry_of_match all k sa) ->
    sub_attr_loop ms acc = Ret subs ->
    forall k sa, In (k, sa) subs -> entry_of_match all k sa.
Proof.
  intros Hall. induction ms as [|mt ms IH]; intros acc subs Hincl Hacc H;
    cbn [sub_attr_loop] in H.
  - inversion H; subst. exact Hacc.
  - assert (Hmt : In mt all) by (apply Hincl; now left).
    destruct (numeral_token_value _ (Hall mt Hmt)) as (dm & Hdm & Hz & _).
    rewrite Hdm, Hz in H.
    destruct (int (leading_digits (group mt 1))) as [z|] eqn:Ez; [|discriminate].
    cbn [bind] in H.
    refine (IH _ _ (fun x Hx => Hincl x (or_intror Hx)) _ H).
    intros k sa Hin. apply dict_set_In in Hin.
    destruct Hin as [Hin|[-> ->]]; [now apply Hacc|].
    split; [exact Ez|]. split; [now apply Hall|].
    exists mt. auto.
Qed.

(** The loop over the list items found in [s]: it ends, or a number of more
    than [max_str_digits] digits made [int] raise. *)
Lemma sub_attr_loop_outcome (s : text) (ms : list rmatch) :
  (forall mt, In mt ms -> numeral_token (group mt 1) /\ factor (group mt 1) s) ->
  forall acc,
    (exists subs, sub_attr_loop ms acc = Ret subs) \/
    (sub_attr_loop ms acc = Exc ValueError /\ ~ short_numbers s).
Proof.
  induction ms as [|mt ms IH]; intros Hall acc; cbn [sub_attr_loop].
  - eauto.
  - destruct (Hall mt (or_introl eq_refl)) as [Ht Hf].
    destruct (numeral_token_value _ Ht) as (dm & -> & -> & Hd & Hf').
    destruct (int_of_factor _ s (factor_trans _ _ _ Hf' Hf) Hd)
      as [(z & -> & _)|[-> H]]; cbn [bind]; [|now right].
    apply IH. intros x Hx. apply Hall. now right.
Qed.

Lemma section_content_factor (content : text) (section_match : rmatch) :
  factor (section_content_of content section_match) content.
Proof.
  unfold section_content_of. cbv zeta.
  destruct (search next_section_pattern _).
  - eapply factor_trans; [apply factor_firstn | apply factor_skipn].
  - apply factor_skipn.
Qed.

Lemma extract_sub_attributes_entries (content section_name : text)
    (subs : dict SubAttribute) :
  extract_sub_attributes content section_name = Ret subs ->
  forall attr_name sa,
    In (attr_name, sa) subs ->
    exists section_match,
      search (section_pattern section_name) content = Some section_match /\
      entry_of_match
        (findall sub_attr_pattern (section_content_of content section_match))
        attr_name sa.
Proof.
  unfold extract_sub_attributes. intros H attr_name sa Hin.
  destruct (search (section_pattern section_name) content) as [sm|] eqn:E.
  - exists sm. split; [reflexivity|].
    refine (sub_attr_loop_entries
              (findall sub_attr_pattern (section_content_of content sm))
              (findall_sub_attr_token _) _ [] subs (incl_refl _) _ H _ _ Hin).
    intros k sa' [].
  - inversion H; subst. destruct Hin.
Qed.

Lemma extract_sub_attributes_outcome (content section_name : text) :
  (exists subs, extract_sub_attributes content section_name = Ret subs) \/
  (extract_sub_attributes content section_name = Exc ValueError /\
   ~ short_numbers content).
Proof.
  unfold extract_sub_attributes.
  destruct (search (section_pattern section_name) content) as [sm|]; [|eauto].
  apply sub_attr_loop_outcome. intros mt Hmt. split.
  - exact (findall_sub_attr_token _ _ Hmt).
  - eapply factor_trans; [exact (findall_group_factor _ _ _ 1 Hmt)|].
    apply section_content_factor.
Qed.

(** C4. In each entry of the dictionary [extract_sub_attributes] returns,
    the raw value is the numeral token of a list item as matched (a
    numeral, then nothing or a signed modifier), kept as it is, and the
    value is the integer of the leading numeral of that token.  The
    dictionary is returned for every document in which no run of digits is
    longer than 4300. *)
Theorem sub_attribute_value_is_leading_numeral (content section_name : text) :
  (short_numbers content ->
   exists subs, extract_sub_attributes content section_name = Ret subs) /\
  (forall subs attr_name sa,
     extract_sub_attributes content section_name = Ret subs ->
     In (attr_name, sa) subs ->
     int (leading_digits (raw_value sa)) = Ret (value sa) /\
     numeral_token (raw_value sa) /\
     exists section_match mt,
       search (section_pattern section_name) content = Some section_match /\
       In mt (findall sub_attr_pattern
                (section_content_of content section_match)) /\
       raw_value sa = group mt 1 /\
       attr_name = strip (group mt 2)).
Proof.
  split.
  - intros Hshort.
    destruct (extract_sub_attributes_outcome content section_name)
      as [H|[_ H]]; [exact H | contradiction].
  - intros subs attr_name sa E Hin.
    destruct (extract_sub_attributes_entries content section_name subs E
                attr_name sa Hin)
      as (sm & Hsm & Hv & Ht & mt & Hmt & Hr & Hn).
    split; [exact Hv|]. split; [exact Ht|]. exists sm, mt. auto.
Qed.

Lemma sub_attribute_value_is_leading_numeral_witness :
  extract_sub_attributes doc_page (str "Outside Scoring")
  = Ret subs_outside_scoring_page /\
  int (leading_digits (str "98+1")) = Ret 98%Z /\
  int (leading_digits (str "91-1")) = Ret 91%Z.
Proof.
  assert (E : extract_sub_attributes doc_page (str "Outside Scoring")
              = Ret subs_outside_scoring_page) by (vm_compute; reflexivity).
  split; [exact E|]. split.
  - refine (proj1 (proj2 (sub_attribute_value_is_leading_numeral
                            doc_page (str "Outside Scoring"))
                     subs_outside_scoring_page (str "Mid-Range Shot")
                     sub_mid_range E _)).
    right; left; reflexivity.
  - refine (proj1 (proj2 (sub_attribute_value_is_leading_numeral
                            doc_page (str "Outside Scoring"))
                     subs_outside_scoring_page (str "Three-Point Shot")
                     sub_three_point E _)).
    right; right; left; reflexivity.
Defined.

(** C8. From the heading "#### 91-1 Outside Scoring" followed by the list
    item "*   99 Close Shot" the attributes are the single entry "Outside
    Scoring" with rating 91 and the single sub-attribute "Close Shot" of
    value 99 and raw value "99"; within a page the same heading gives the
    same rating, the modifier of the heading being left out. *)
Theorem outside_scoring_heading_and_item :
  extract_attributes_from_markdown doc_outside_scoring
  = Ret [(str "Outside Scoring",
          {| rating := 91;
             sub_attributes :=
               [(str "Close Shot", {| value := 99; raw_value := str "99" |})] |})]
  /\
  extract_attributes_from_markdown (doc_outside_scoring ++ [LF])
  = extract_attributes_from_markdown doc_outside_scoring
  /\
  extract_attributes_from_markdown doc_page
  = Ret [(str "Outside Scoring",
          {| rating := 91; sub_attributes := subs_outside_scoring_page |});
         (str "Athleticism",
          {| rating := 78;
             sub_attributes :=
               [(str "Speed", {| value := 70; raw_value := str "70" |})] |})].
Proof. repeat split; vm_compute; reflexivity. Qed.

Lemma attributes_loop_outcome (content : text) (sections : list text) :
  forall attributes,
    (exists d, attributes_loop content sections attributes = Ret d) \/
    (attributes_loop content sections attributes = Exc ValueError /\
     ~ short_numbers content).
Proof.
  induction sections as [|section rest IH]; intros attributes;
    cbn [attributes_loop].
  - eauto.
  - destruct (search (header_pattern section) content) as [mt|] eqn:E; [|apply IH].
    destruct (header_pattern_groups section) as [Hg Hs].
    destruct (int_of_group_outcome _ _ _ Hg Hs E) as [(z & -> & _)|[-> H]];
      cbn [bind]; [|now right].
    destruct (extract_sub_attributes_outcome content section)
      as [(subs & ->)|[-> H]]; cbn [bind]; [apply IH | now right].
Qed.

Lemma detail_lookup_total (pattern : regex) (key : string) (content : text)
    (details : dict text) :
  groups_in anything pattern -> sets_group pattern 1 = true ->
  exists d, detail_lookup pattern key content details = Ret d.
Proof.
  intros Hg Hs. unfold detail_lookup.
  destruct (search pattern content) as [mt|] eqn:E; [|eauto].
  destruct (strip_of_group_total _ _ _ Hg Hs E) as (v & ->). cbn [bind]. eauto.
Qed.

Lemma extract_player_details_total (content : text) :
  exists d, extract_player_details_from_markdown content = Ret d.
Proof.
  unfold extract_player_details_from_markdown.
  destruct (detail_lookup_total (bracket_pattern "Position") "position" content []
              (proj1 (bracket_pattern_groups _)) (proj2 (bracket_pattern_groups _)))
    as (d1 & ->). cbn [bind].
  destruct (detail_lookup_total (bracket_pattern "Team") "team" content d1
              (proj1 (bracket_pattern_groups _)) (proj2 (bracket_pattern_groups _)))
    as (d2 & ->). cbn [bind].
  destruct (detail_lookup_total (line_pattern "Height") "height" content d2
              (proj1 (line_pattern_groups _)) (proj2 (line_pattern_groups _)))
    as (d3 & ->). cbn [bind].
  destruct (detail_lookup_total (line_pattern "Weight") "weight" content d3
              (proj1 (line_pattern_groups _)) (proj2 (line_pattern_groups _)))
    as (d4 & ->). cbn [bind].
  destruct (detail_lookup_total (line_pattern "Wingspan") "wingspan" content d4
              (proj1 (line_pattern_groups _)) (proj2 (line_pattern_groups _)))
    as (d5 & ->). cbn [bind].
  apply detail_lookup_total; apply line_pattern_groups.
Qed.

Lemma overall_rating_outcome (html_content : text) :
  (exists r, overall_rating_of html_content = Ret r) \/
  (overall_rating_of html_content = Exc ValueError /\
   ~ short_numbers html_content).
Proof.
  unfold overall_rating_of.
  destruct (contains _ html_content); [|eauto].
  destruct (search rating_pattern html_content) as [mt|] eqn:E; [|eauto].
  destruct rating_pattern_groups as [Hg Hs].
  destruct (int_of_group_outcome _ _ _ Hg Hs E) as [(z & -> & _)|[-> H]];
    cbn [bind]; eauto.
Qed.

(** ** Python strings: [find], [split], [replace], [strip] *)

Lemma find_nil (sub : text) : sub <> [] -> find sub [] = None.
Proof. destruct sub; [contradiction | reflexivity]. Qed.

Lemma find_some_nonempty (sub s : text) (i : nat) :
  sub <> [] -> find sub s = Some i -> s <> [].
Proof. intros Hne H ->. rewrite (find_nil sub Hne) in H. discriminate. Qed.

(** The first occurrence of a character. *)
Lemma find_from_char (c : ascii) (s : text) :
  forall k,
    match find_from [c] k s with
    | None => ~ In c s
    | Some i => k <= i /\ ~ In c (firstn (i - k) s) /\ i - k < length s
    end.
Proof.
  induction s as [|a s IH]; intros k; cbn [find_from starts_with].
  - intros [].
  - destruct (Ascii.eqb c a) eqn:E; cbn [andb].
    + rewrite Nat.sub_diag. cbn. repeat split; [lia | tauto | lia].
    + specialize (IH (S k)). apply Ascii.eqb_neq in E.
      destruct (find_from [c] (S k) s) as [i|].
      * destruct IH as (Hk & Hn & Hl).
        replace (i - k) with (S (i - S k)) by lia. cbn [firstn length In].
        repeat split; [lia | | lia]. intros [H|H]; [congruence | auto].
      * intros [H|H]; [congruence | auto].
Qed.

Lemma split_gas_head (sep : text) :
  sep <> [] ->
  forall gas t,
    length t <= gas ->
    exists rest,
      split_gas gas sep t
      = match find sep t with Some j => firstn j t | None => t end :: rest.
Proof.
  intros Hne gas t Hlen. destruct gas as [|gas]; cbn [split_gas].
  - destruct t; [|cbn in Hlen; lia]. rewrite (find_nil sep Hne). eauto.
  - destruct (find sep t); eauto.
Qed.

Lemma replace_gas_absent (gas : nat) (old new s : text) :
  find old s = None -> replace_gas gas old new s = s.
Proof. intros H. destruct gas; cbn [replace_gas]; [|rewrite H]; reflexivity. Qed.

Lemma replace_char_removed (c : ascii) :
  forall gas s, length s <= gas -> ~ In c (replace_gas gas [c] [] s).
Proof.
  induction gas as [|gas IH]; intros s Hlen; cbn [replace_gas].
  - destruct s; [intros [] | cbn in Hlen; lia].
  - pose proof (find_from_char c s 0) as H. fold (find [c] s) in H.
    destruct (find [c] s) as [i|]; [|exact H].
    destruct H as (_ & Hn & Hl). rewrite Nat.sub_0_r in Hn, Hl.
    cbn [app]. intros Hin. apply in_app_or in Hin. destruct Hin as [Hin|Hin].
    + contradiction.
    + revert Hin. apply IH. rewrite length_skipn. cbn [length]. lia.
Qed.

Lemma lstrip_In (x : ascii) (s : text) : In x (lstrip s) -> In x s.
Proof.
  induction s as [|c s IH]; cbn [lstrip]; [auto|].
  destruct (is_space c); [right; auto | auto].
Qed.

Lemma strip_In (x : ascii) (s : text) : In x (strip s) -> In x s.
Proof.
  unfold strip, rstrip. intros H.
  apply in_rev in H. apply lstrip_In in H. apply in_rev in H.
  now apply lstrip_In.
Qed.

Lemma lstrip_tight (s : text) : tight_front (lstrip s).
Proof.
  induction s as [|c s IH]; cbn [lstrip]; [exact I|].
  destruct (is_space c) eqn:E; [exact IH | exact E].
Qed.

Lemma lstrip_of_tight (s : text) : tight_front s -> lstrip s = s.
Proof. destruct s as [|c s]; cbn; [auto | intros ->; reflexivity]. Qed.

Lemma lstrip_snoc (u : text) (c : ascii) :
  is_space c = false -> lstrip (u ++ [c]) = lstrip u ++ [c].
Proof.
  intros Hc. induction u as [|a u IH]; cbn [app lstrip].
  - now rewrite Hc.
  - destruct (is_space a); [exact IH | reflexivity].
Qed.

Lemma rstrip_tight (s : text) : tight_front s -> tight_front (rstrip s).
Proof.
  destruct s as [|c s]; [intros; exact I|]. cbn [tight_front]. intros Hc.
  unfold rstrip. cbn [rev]. rewrite (lstrip_snoc _ _ Hc), rev_app_distr.
  cbn. exact Hc.
Qed.

Lemma strip_strip (s : text) : strip (strip s) = strip s.
Proof.
  unfold strip.
  rewrite (lstrip_of_tight (rstrip (lstrip s)))
    by (apply rstrip_tight, lstrip_tight).
  unfold rstrip. rewrite rev_involutive.
  now rewrite (lstrip_of_tight _ (lstrip_tight _)).
Qed.

(** ** The player name *)

Lemma player_name_of_marked (html_content : text) (i : nat) :
  find (str "Title:") html_content = Some i ->
  player_name_of html_content
  = Ret (without_boilerplate (title_of html_content i)).
Proof.
  intros Hi. unfold player_name_of, contains. rewrite Hi.
  assert (Hsep : str "Title:" <> []) by discriminate.
  assert (Hlf : [LF] <> []) by discriminate.
  pose proof (find_some_nonempty _ _ _ Hsep Hi) as Hne.
  unfold split at 1. destruct html_content as [|c0 html]; [contradiction|].
  cbn [length split_gas]. rewrite Hi.
  change (length (str "Title:")) with 6.
  destruct (split_gas_head (str "Title:") Hsep (length html)
              (skipn (i + 6) (c0 :: html))) as (tl & ->).
  { rewrite length_skipn. cbn [length]. lia. }
  unfold index at 1. cbn [nth_error bind].
  unfold split.
  match goal with
  | |- context [split_gas (length ?t) [LF] ?t] =>
      destruct (split_gas_head [LF] Hlf (length t) t (le_n _)) as (tl' & ->)
  end.
  unfold index. cbn [nth_error bind]. reflexivity.
Qed.

Lemma player_name_of_total (html_content : text) :
  exists player_name, player_name_of html_content = Ret player_name.
Proof.
  destruct (find (str "Title:") html_content) as [i|] eqn:E.
  - rewrite (player_name_of_marked _ _ E). eauto.
  - unfold player_name_of, contains. rewrite E. eauto.
Qed.

(** C6, as the code has it.  Without the title marker the name is "Unknown
    Player".  With it, the name is made from the title text (what follows
    the first marker up to the next line break or the next marker, trimmed)
    by removing every " NBA 2K25 Rating (Current" and then every ")",
    wherever they stand, and trimming again; a title text with neither is
    the name unchanged, and no name contains ")". *)
Theorem player_name_from_title (html_content : text) :
  (find (str "Title:") html_content = None ->
   player_name_of html_content = Ret (str "Unknown Player")) /\
  (forall i,
     find (str "Title:") html_content = Some i ->
     let title := title_of html_content i in
     player_name_of html_content
     = Ret (strip (replace (str ")") []
                     (replace (str " NBA 2K25 Rating (Current") [] title))) /\
     (find (str " NBA 2K25 Rating (Current") title = None ->
      find (str ")") title = None ->
      player_name_of html_content = Ret title)) /\
  (forall player_name,
     player_name_of html_content = Ret player_name ->
     ~ In ")"%char player_name).
Proof.
  split; [|split].
  - intros E. unfold player_name_of, contains. now rewrite E.
  - intros i Hi title. rewrite (player_name_of_marked _ _ Hi).
    split; [reflexivity|]. intros Ha Hp. fold title. unfold without_boilerplate.
    unfold replace.
    rewrite (replace_gas_absent _ _ _ _ Ha), (replace_gas_absent _ _ _ _ Hp).
    unfold title, title_of. now rewrite strip_strip.
  - intros player_name H.
    destruct (find (str "Title:") html_content) as [i|] eqn:E.
    + rewrite (player_name_of_marked _ _ E) in H. inversion H; subst.
      unfold without_boilerplate. intros Hin. apply strip_In in Hin.
      revert Hin. apply (replace_char_removed ")"%char). apply le_n.
    + unfold player_name_of, contains in H. rewrite E in H.
      inversion H; subst. vm_compute. intuition discriminate.
Qed.

Lemma player_name_from_title_witness :
  player_name_of doc_hello = Ret (str "Unknown Player") /\
  player_name_of doc_page = Ret (str "Nikola Jokic Denver Nuggets") /\
  player_name_of doc_plain_title = Ret (str "Nikola Jokic") /\
  ~ In ")"%char (str "Nikola Jokic Denver Nuggets").
Proof.
  assert (E0 : find (str "Title:") doc_page = Some 0) by (vm_compute; reflexivity).
  assert (E1 : find (str "Title:") doc_plain_title = Some 0)
    by (vm_compute; reflexivity).
  assert (Hpage : player_name_of doc_page = Ret (str "Nikola Jokic Denver Nuggets")).
  { rewrite (proj1 (proj1 (proj2 (player_name_from_title doc_page)) 0 E0)).
    vm_compute. reflexivity. }
  split; [|split; [|split]].
  - apply (proj1 (player_name_from_title doc_hello)). vm_compute. reflexivity.
  - exact Hpage.
  - rewrite (proj2 (proj1 (proj2 (player_name_from_title doc_plain_title)) 0 E1));
      vm_compute; reflexivity.
  - exact (proj2 (proj2 (player_name_from_title doc_page)) _ Hpage).
Defined.

(** C6, as the specification has it, fails on a page title: the name keeps
    the text of the parenthetical and is no prefix of the title. *)
Lemma player_name_keeps_parenthetical :
  title_text_of doc_page
  = Some (str "Nikola Jokic NBA 2K25 Rating (Current Denver Nuggets)") /\
  player_name_of doc_page = Ret (str "Nikola Jokic Denver Nuggets") /\
  ~ name_strips_suffix_only doc_page.
Proof.
  assert (Ht : title_text_of doc_page
               = Some (str "Nikola Jokic NBA 2K25 Rating (Current Denver Nuggets)"))
    by (vm_compute; reflexivity).
  assert (Hn : player_name_of doc_page = Ret (str "Nikola Jokic Denver Nuggets"))
    by (vm_compute; reflexivity).
  split; [exact Ht|]. split; [exact Hn|].
  intros H. destruct (H _ _ Ht Hn) as [boilerplate E].
  vm_compute in E. discriminate E.
Qed.

(** ** One page *)

(** The body of [parse_player_page] gives a record, or a number of more
    than [max_str_digits] digits made [int] raise: no other step of the
    extraction raises. *)
Lemma parse_player_page_outcome (html_content u : text) :
  (exists player_data,
     parse_player_page_body html_content u = Ret player_data /\
     url player_data = u) \/
  (parse_player_page_body html_content u = Exc ValueError /\
   ~ short_numbers html_content).
Proof.
  unfold parse_player_page_body.
  destruct (player_name_of_total html_content) as (n & ->). cbn [bind].
  destruct (overall_rating_outcome html_content) as [(r & ->)|[-> H]];
    cbn [bind]; [|now right].
  destruct (extract_badge_info_outcome html_content) as [(b & ->)|[-> H]];
    cbn [bind]; [|now right].
  unfold extract_attributes_from_markdown.
  destruct (attributes_loop_outcome html_content attribute_sections [])
    as [(a & ->)|[-> H]]; cbn [bind]; [|now right].
  destruct (extract_player_details_total html_content) as (d & ->).
  cbn [bind]. left. eexists. split; reflexivity.
Qed.

(** [parse_player_page] returns a record for every document in which no
    run of digits is longer than [max_str_digits]. *)
Lemma parse_player_page_short (html_content u : text) :
  short_numbers html_content ->
  exists player_data,
    parse_player_page html_content u = Some player_data /\
    url player_data = u.
Proof.
  intros Hshort. unfold parse_player_page.
  destruct (parse_player_page_outcome html_content u)
    as [(p & -> & Hu)|[_ H]]; [eauto | contradiction].
Qed.

Lemma parse_player_page_None (html_content u : text) :
  parse_player_page html_content u = None ->
  parse_player_page_body html_content u = Exc ValueError /\
  ~ short_numbers html_content.
Proof.
  unfold parse_player_page.
  destruct (parse_player_page_outcome html_content u)
    as [(p & -> & Hu)|[-> H]]; [discriminate | auto].
Qed.

Lemma parse_player_page_url (html_content u : text) (p : PlayerData) :
  parse_player_page html_content u = Some p -> url p = u.
Proof.
  unfold parse_player_page.
  destruct (parse_player_page_outcome html_content u)
    as [(q & -> & Hu)|[-> H]]; [|discriminate].
  intros E. inversion E as [Eq]. rewrite <- Eq. exact Hu.
Qed.

(** ** Search *)

Section SearchProperties.
Variable scrape_url : text -> option text.

Lemma try_patterns_skip (u : text) (rest : list text) :
  no_record scrape_url u ->
  try_patterns scrape_url (u :: rest)
  = (fst (try_patterns scrape_url rest),
     Fetch u :: Sleep 1 :: snd (try_patterns scrape_url rest)).
Proof.
  intros H. cbn [try_patterns].
  destruct (try_patterns scrape_url rest) as [players trace].
  destruct H as [[-> | ->]|(c & -> & Hc)]; try reflexivity.
  destruct c as [|c0 c]; [reflexivity|]. now rewrite Hc.
Qed.

(** After candidates that give no record the search goes on with the
    others. *)
Lemma try_patterns_app (before rest : list text) :
  (forall v, In v before -> no_record scrape_url v) ->
  try_patterns scrape_url (before ++ rest)
  = (fst (try_patterns scrape_url rest),
     failed_attempts before ++ snd (try_patterns scrape_url rest)).
Proof.
  induction before as [|v before IH]; intros Hb.
  - cbn [app failed_attempts flat_map]. now destruct (try_patterns scrape_url rest).
  - cbn [app]. rewrite try_patterns_skip by (apply Hb; now left).
    rewrite IH by (intros w Hw; apply Hb; now right). reflexivity.
Qed.

Lemma try_patterns_all_fail (patterns : list text) :
  (forall u, In u patterns -> no_record scrape_url u) ->
  try_patterns scrape_url patterns = ([], failed_attempts patterns).
Proof.
  intros H. rewrite <- (app_nil_r patterns) at 1.
  rewrite (try_patterns_app patterns [] H). cbn [try_patterns fst snd].
  now rewrite app_nil_r.
Qed.

Lemma try_patterns_first_record (before : list text) (u : text)
    (rest : list text) (c : text) (player_data : PlayerData) :
  (forall v, In v before -> no_record scrape_url v) ->
  scrape_url u = Some c -> c <> [] ->
  parse_player_page c u = Some player_data ->
  try_patterns scrape_url (before ++ u :: rest)
  = ([player_data], failed_attempts before ++ [Fetch u]).
Proof.
  intros Hb Hu Hc Hpd. rewrite (try_patterns_app before (u :: rest) Hb).
  cbn [try_patterns]. rewrite Hu.
  destruct c as [|c0 c]; [contradiction|]. cbv beta iota. rewrite Hpd.
  reflexivity.
Qed.
End SearchProperties.

(** C5, as the code has it.  A fetched non-empty document gives a record
    unless a number it holds is too long to convert: every document without
    a run of more than 4300 digits gives one, whatever can be extracted
    from it.  The search returns the record of the first candidate whose
    document gives a record and requests no later candidate; it moves on to
    the next candidate after a request that failed or gave an empty
    document, and after a document that gives no record. *)
Theorem search_returns_first_fetched_document
    (scrape_url : text -> option text) (player_name : text)
    (before : list text) (u : text) (rest : list text) (c : text) :
  url_patterns player_name = before ++ u :: rest ->
  (forall v, In v before -> no_record scrape_url v) ->
  scrape_url u = Some c -> c <> [] ->
  (short_numbers c ->
   exists player_data, parse_player_page c u = Some player_data) /\
  (forall player_data,
     parse_player_page c u = Some player_data ->
     url player_data = u /\
     search_player scrape_url player_name
     = ([player_data], failed_attempts before ++ [Fetch u])) /\
  (parse_player_page c u = None ->
   parse_player_page_body c u = Exc ValueError /\
   ~ short_numbers c /\
   search_player scrape_url player_name
   = (fst (try_patterns scrape_url rest),
      failed_attempts (before ++ [u]) ++ snd (try_patterns scrape_url rest))).
Proof.
  intros Hp Hb Hu Hc. unfold search_player. rewrite Hp. split; [|split].
  - intros Hshort. destruct (parse_player_page_short c u Hshort) as (pd & Hpd & _).
    eauto.
  - intros pd Hpd. split; [exact (parse_player_page_url _ _ _ Hpd)|].
    now apply (try_patterns_first_record scrape_url before u rest c).
  - intros Hnone. destruct (parse_player_page_None _ _ Hnone) as [He Hl].
    split; [exact He|]. split; [exact Hl|].
    replace (before ++ u :: rest) with ((before ++ [u]) ++ rest)
      by (now rewrite <- app_assoc).
    apply try_patterns_app. intros v Hv. apply in_app_or in Hv.
    destruct Hv as [Hv|[<-|[]]]; [now apply Hb|].
    right. exists c. auto.
Qed.

Lemma search_returns_first_fetched_document_witness :
  exists player_data,
    parse_player_page doc_page (str "https://www.2kratings.com/player/nikola-jokic")
    = Some player_data /\
    url player_data = str "https://www.2kratings.com/player/nikola-jokic" /\
    search_player
      (fun u => if text_eqb u (str "https://www.2kratings.com/player/nikola-jokic")
                then Some doc_page else None)
      (str "Nikola Jokic")
    = ([player_data],
       failed_attempts [str "https://www.2kratings.com/nikola-jokic"]
       ++ [Fetch (str "https://www.2kratings.com/player/nikola-jokic")]).
Proof.
  destruct (search_returns_first_fetched_document
              (fun u => if text_eqb u
                             (str "https://www.2kratings.com/player/nikola-jokic")
                        then Some doc_page else None)
              (str "Nikola Jokic")
              [str "https://www.2kratings.com/nikola-jokic"]
              (str "https://www.2kratings.com/player/nikola-jokic")
              [str "https://www.2kratings.com/players/nikola-jokic"] doc_page)
    as (Hret & Hfirst & _).
  - vm_compute. reflexivity.
  - intros v [<-|[]]. left. left. vm_compute. reflexivity.
  - vm_compute. reflexivity.
  - discriminate.
  - destruct Hret as (pd & Hpd); [vm_compute; discriminate|].
    exists pd. split; [exact Hpd|]. exact (Hfirst pd Hpd).
Defined.

(** C5, as the specification has it, fails: a document from which nothing
    is extracted is given a record, and the search returns that record
    without requesting the next candidate. *)
Lemma search_returns_record_of_unusable_document :
  search_player (fun _ => Some doc_hello) (str "x")
  = ([record_of_hello], [Fetch (str "https://www.2kratings.com/x")]) /\
  nothing_extracted record_of_hello /\
  ~ search_skips_unusable_documents.
Proof.
  assert (E : search_player (fun _ => Some doc_hello) (str "x")
              = ([record_of_hello], [Fetch (str "https://www.2kratings.com/x")]))
    by (vm_compute; reflexivity).
  assert (N : nothing_extracted record_of_hello)
    by (repeat split; vm_compute; reflexivity).
  split; [exact E|]. split; [exact N|].
  intros H.
  apply (H (fun _ => Some doc_hello) (str "x")
           (str "https://www.2kratings.com/x") doc_hello record_of_hello).
  - left. vm_compute. reflexivity.
  - reflexivity.
  - discriminate.
  - vm_compute. reflexivity.
  - exact N.
  - rewrite E. left. reflexivity.
Qed.

(** C9. When every candidate's request fails or gives an empty document,
    the search returns the empty list, having requested in this order the
    slug at the root, under /player/ and under /players/, the slug being the
    player name in lower case with hyphens for spaces. *)
Theorem search_without_content_is_empty
    (scrape_url : text -> option text) (player_name : text) :
  (forall u, In u (url_patterns player_name) ->
             scrape_url u = None \/ scrape_url u = Some []) ->
  let slug := replace (str " ") (str "-") (lower player_name) in
  search_player scrape_url player_name
  = ([],
     [Fetch (str "https://www.2kratings.com" ++ str "/" ++ slug); Sleep 1;
      Fetch (str "https://www.2kratings.com" ++ str "/player/" ++ slug); Sleep 1;
      Fetch (str "https://www.2kratings.com" ++ str "/players/" ++ slug); Sleep 1]).
Proof.
  intros H slug. unfold search_player.
  rewrite (try_patterns_all_fail scrape_url _ (fun u Hu => or_introl (H u Hu))).
  reflexivity.
Qed.

Lemma search_without_content_is_empty_witness :
  search_player (fun _ => None) (str "Stephen Curry")
  = ([],
     [Fetch (str "https://www.2kratings.com/stephen-curry"); Sleep 1;
      Fetch (str "https://www.2kratings.com/player/stephen-curry"); Sleep 1;
      Fetch (str "https://www.2kratings.com/players/stephen-curry"); Sleep 1]).
Proof.
  rewrite (search_without_content_is_empty (fun _ => None) (str "Stephen Curry")).
  - vm_compute. reflexivity.
  - intros u _. left. reflexivity.
Defined.

(** ** The bounds of the loops are never reached early *)

(** A match only hands over rests no longer than what it was given. *)
Lemma m_rests_only (r : regex) :
  forall (A : Type) (s : text) (g : caps) (k1 k2 : text -> caps -> option A),
    (forall s' g', length s' <= length s -> k1 s' g' = k2 s' g') ->
    m A r s g k1 = m A r s g k2.
Proof.
  induction r as [ | c | p | r1 IH1 r2 IH2 | r1 IH1 r2 IH2 | r1 IH1 | r1 IH1
                  | n r1 IH1 | r1 IH1 | ]; intros A s g k1 k2 H; cbn [m].
  - apply H, le_n.
  - destruct s as [|x s]; [reflexivity|].
    destruct (Ascii.eqb x c); [|reflexivity]. apply H. cbn [length]. lia.
  - destruct s as [|x s]; [reflexivity|].
    destruct (p x); [|reflexivity]. apply H. cbn [length]. lia.
  - apply IH1. intros s' g' Hs'. apply IH2. intros s'' g'' Hs''. apply H. lia.
  - rewrite (IH1 A s g k1 k2 H), (IH2 A s g k1 k2 H). reflexivity.
  - assert (L : forall n t g0, length t <= length s ->
              star_loop true (m A r1) k1 n t g0 = star_loop true (m A r1) k2 n t g0).
    { induction n as [|n IHn]; intros t g0 Ht.
      - cbn. now apply H.
      - rewrite !star_loop_S. cbv zeta.
        rewrite (IH1 A t g0 _
                   (fun s' g' => if length s' <? length t
                                 then star_loop true (m A r1) k2 n s' g' else None)).
        + now rewrite (H t g0 Ht).
        + intros s' g' Hs'. destruct (length s' <? length t); [|reflexivity].
          apply IHn. lia. }
    apply L, le_n.
  - assert (L : forall n t g0, length t <= length s ->
              star_loop false (m A r1) k1 n t g0 = star_loop false (m A r1) k2 n t g0).
    { induction n as [|n IHn]; intros t g0 Ht.
      - cbn. now apply H.
      - rewrite !star_loop_S. cbv zeta.
        rewrite (IH1 A t g0 _
                   (fun s' g' => if length s' <? length t
                                 then star_loop false (m A r1) k2 n s' g' else None)).
        + now rewrite (H t g0 Ht).
        + intros s' g' Hs'. destruct (length s' <? length t); [|reflexivity].
          apply IHn. lia. }
    apply L, le_n.
  - apply IH1. intros s' g' Hs'. now apply H.
  - destruct (m unit r1 s g _); [|reflexivity]. apply H, le_n.
  - destruct s as [|c [|? ?]]; try reflexivity.
    + apply H, le_n.
    + destruct (Ascii.eqb c LF); [|reflexivity]. apply H, le_n.
Qed.

(** A match fails when what follows always fails. *)
Lemma m_no_rest (r : regex) :
  forall (A : Type) (s : text) (g : caps) (k : text -> caps -> option A),
    (forall s' g', k s' g' = None) -> m A r s g k = None.
Proof.
  induction r as [ | c | p | r1 IH1 r2 IH2 | r1 IH1 r2 IH2 | r1 IH1 | r1 IH1
                  | n r1 IH1 | r1 IH1 | ]; intros A s g k H; cbn [m].
  - apply H.
  - destruct s as [|x s]; [reflexivity|]. destruct (Ascii.eqb x c); auto.
  - destruct s as [|x s]; [reflexivity|]. destruct (p x); auto.
  - apply IH1. intros s' g'. now apply IH2.
  - rewrite (IH1 A s g k H). now apply IH2.
  - generalize (length s) at 1. intros n. revert s g.
    induction n as [|n IHn]; intros s g; [apply H|].
    rewrite star_loop_S. cbv zeta. rewrite IH1, H; [reflexivity|].
    intros s' g'. destruct (length s' <? length s); auto.
  - generalize (length s) at 1. intros n. revert s g.
    induction n as [|n IHn]; intros s g; [apply H|].
    rewrite star_loop_S. cbv zeta. rewrite IH1, H; [reflexivity|].
    intros s' g'. destruct (length s' <? length s); auto.
  - apply IH1. intros s' g'. apply H.
  - destruct (m unit r1 s g _); auto.
  - destruct s as [|c [|? ?]]; auto. destruct (Ascii.eqb c LF); auto.
Qed.

(** A repetition bounded by the length of the text is the repetition with
    any larger bound: the bound stops no repetition that could go on. *)
Lemma star_loop_bound_enough (A : Type) (b : bool) (r1 : regex)
    (k : text -> caps -> option A) :
  forall n1 n2 s g,
    length s <= n1 -> length s <= n2 ->
    star_loop b (m A r1) k n1 s g = star_loop b (m A r1) k n2 s g.
Proof.
  assert (Hnil : forall n g, star_loop b (m A r1) k n [] g = k [] g).
  { intros [|n] g; [reflexivity|]. rewrite star_loop_S. cbv zeta.
    rewrite m_no_rest by reflexivity.
    destruct b; [reflexivity|]. now destruct (k [] g). }
  induction n1 as [|n1 IH]; intros n2 s g H1 H2.
  - destruct s; [|cbn in H1; lia]. now rewrite !Hnil.
  - destruct n2 as [|n2].
    + destruct s; [|cbn in H2; lia]. now rewrite !Hnil.
    + rewrite !star_loop_S. cbv zeta.
      rewrite (m_rests_only r1 A s g _
                 (fun s' g' => if length s' <? length s
                               then star_loop b (m A r1) k n2 s' g' else None)).
      * reflexivity.
      * intros s' g' _. destruct (length s' <? length s) eqn:E; [|reflexivity].
        apply Nat.ltb_lt in E. apply IH; lia.
Qed.

Lemma split_gas_enough (sep : text) :
  sep <> [] ->
  forall gas1 gas2 s,
    length s <= gas1 -> length s <= gas2 ->
    split_gas gas1 sep s = split_gas gas2 sep s.
Proof.
  intros Hne.
  assert (Hnil : forall gas, split_gas gas sep [] = [[]]).
  { intros [|gas]; cbn [split_gas]; [|rewrite (find_nil sep Hne)]; reflexivity. }
  assert (Hsep : 1 <= length sep) by (destruct sep; [contradiction | cbn; lia]).
  induction gas1 as [|gas1 IH]; intros gas2 s H1 H2.
  - destruct s; [|cbn in H1; lia]. now rewrite !Hnil.
  - destruct gas2 as [|gas2].
    + destruct s; [|cbn in H2; lia]. now rewrite !Hnil.
    + cbn [split_gas]. destruct (find sep s) as [i|] eqn:E; [|reflexivity].
      pose proof (find_some_nonempty _ _ _ Hne E) as Hs.
      f_equal. apply IH; rewrite length_skipn;
        (destruct s; [contradiction | cbn [length] in *; lia]).
Qed.

(** [split] cuts at the first separator and goes on after it. *)
Lemma split_unfold (sep s : text) :
  sep <> [] ->
  split sep s
  = match find sep s with
    | None => [s]
    | Some i => firstn i s :: split sep (skipn (i + length sep) s)
    end.
Proof.
  intros Hne. unfold split. destruct s as [|c s].
  - cbn [length split_gas]. now rewrite (find_nil sep Hne).
  - cbn [length split_gas]. destruct (find sep (c :: s)) as [i|]; [|reflexivity].
    f_equal. apply (split_gas_enough sep Hne); [|apply le_n].
    rewrite length_skipn. cbn [length].
    destruct sep; [contradiction | cbn [length]; lia].
Qed.

Lemma replace_gas_enough (old new : text) :
  old <> [] ->
  forall gas1 gas2 s,
    length s <= gas1 -> length s <= gas2 ->
    replace_gas gas1 old new s = replace_gas gas2 old new s.
Proof.
  intros Hne.
  assert (Hnil : forall gas, replace_gas gas old new [] = []).
  { intros [|gas]; cbn [replace_gas]; [|rewrite (find_nil old Hne)]; reflexivity. }
  induction gas1 as [|gas1 IH]; intros gas2 s H1 H2.
  - destruct s; [|cbn in H1; lia]. now rewrite !Hnil.
  - destruct gas2 as [|gas2].
    + destruct s; [|cbn in H2; lia]. now rewrite !Hnil.
    + cbn [replace_gas]. destruct (find old s) as [i|] eqn:E; [|reflexivity].
      pose proof (find_some_nonempty _ _ _ Hne E) as Hs.
      do 2 f_equal. apply IH; rewrite length_skipn;
        (destruct s; [contradiction|]; destruct old; [contradiction|];
         cbn [length] in *; lia).
Qed.

(** [replace] rewrites the first occurrence and goes on after it. *)
Lemma replace_unfold (old new s : text) :
  old <> [] ->
  replace old new s
  = match find old s with
    | None => s
    | Some i => firstn i s ++ new ++ replace old new (skipn (i + length old) s)
    end.
Proof.
  intros Hne. unfold replace. destruct s as [|c s].
  - cbn [length replace_gas]. now rewrite (find_nil old Hne).
  - cbn [length replace_gas]. destruct (find old (c :: s)) as [i|]; [|reflexivity].
    do 2 f_equal. apply (replace_gas_enough old new Hne); [|apply le_n].
    rewrite length_skipn. cbn [length].
    destruct old; [contradiction | cbn [length]; lia].
Qed.

Lemma groups_in_anything (r : regex) : groups_in anything r.
Proof. induction r; cbn [groups_in]; auto. split; [intros; exact I | auto]. Qed.

Lemma search_span (r : regex) (s : text) (mt : rmatch) :
  search r s = Some mt ->
  exists w, lang r w /\ m_end mt = m_start mt + length w /\ m_end mt <= length s.
Proof.
  intros H. apply (search_sound anything r s mt (groups_in_anything r)) in H.
  destruct H as (pre & w & post & -> & Hw & Hs & He & _).
  exists w. rewrite !length_app. repeat split; [assumption | lia | lia].
Qed.

Lemma findall_gas_enough (r : regex) :
  forall gas1 gas2 s,
    length s < gas1 -> length s < gas2 ->
    findall_gas gas1 r s = findall_gas gas2 r s.
Proof.
  induction gas1 as [|gas1 IH]; intros gas2 s H1 H2; [lia|].
  destruct gas2 as [|gas2]; [lia|]. cbn [findall_gas].
  destruct (search r s) as [mt|] eqn:E; [|reflexivity]. cbv zeta.
  destruct (search_span r s mt E) as (w & _ & Hw & Hlen).
  f_equal.
  destruct (length s <? _) eqn:El; [reflexivity|].
  apply Nat.ltb_ge in El.
  apply IH; rewrite length_skipn;
    (destruct (m_end mt =? m_start mt) eqn:Ee;
     [apply Nat.eqb_eq in Ee | apply Nat.eqb_neq in Ee]; lia).
Qed.

Lemma findall_gas_S (gas : nat) (r : regex) (s : text) :
  findall_gas (S gas) r s
  = match search r s with
    | None => []
    | Some mt =>
        let next := if m_end mt =? m_start mt then S (m_end mt) else m_end mt in
        mt :: (if length s <? next then [] else findall_gas gas r (skipn next s))
    end.
Proof. reflexivity. Qed.

(** [findall] takes the first match and goes on in what is left. *)
Lemma findall_unfold (r : regex) (s : text) :
  findall r s
  = match search r s with
    | None => []
    | Some mt =>
        let next := if m_end mt =? m_start mt then S (m_end mt) else m_end mt in
        mt :: (if length s <? next then [] else findall r (skipn next s))
    end.
Proof.
  unfold findall at 1. rewrite findall_gas_S.
  destruct (search r s) as [mt|] eqn:E; [|reflexivity]. cbv zeta.
  destruct (search_span r s mt E) as (w & _ & Hw & Hlen).
  f_equal. destruct (length s <? _) eqn:El; [reflexivity|].
  apply Nat.ltb_ge in El. unfold findall.
  apply findall_gas_enough; rewrite length_skipn;
    (destruct (m_end mt =? m_start mt) eqn:Ee;
     [apply Nat.eqb_eq in Ee | apply Nat.eqb_neq in Ee]; lia).
Qed.

(** A pattern that accepts no empty text has no empty match. *)
Lemma search_not_empty (r : regex) (s : text) (mt : rmatch) :
  (forall w, lang r w -> w <> []) ->
  search r s = Some mt -> m_start mt < m_end mt.
Proof.
  intros Hne H. destruct (search_span r s mt H) as (w & Hw & He & _).
  specialize (Hne w Hw). destruct w; [contradiction | cbn [length] in He; lia].
Qed.

Lemma lang_Seq_Chr_not_empty (c : ascii) (r : regex) (w : text) :
  lang (Seq (Chr c) r) w -> w <> [].
Proof.
  intros H. inversion H as [ | | |r1 r2 w1 w2 H1 H2| | | | | | | | | ]; subst.
  inversion H1; subst. discriminate.
Qed.

(** The patterns given to [re.findall] and [re.sub] accept no empty text. *)
Lemma scanned_patterns_not_empty (w : text) :
  (lang sub_attr_pattern w -> w <> []) /\
  (lang badge_pattern_v2 w -> w <> []) /\
  (lang newlines_pattern w -> w <> []).
Proof.
  repeat split.
  - apply lang_Seq_Chr_not_empty.
  - unfold badge_pattern_v2. cbn [Cat].
    intros H. inversion H as [ | | |r1 r2 w1 w2 H1 H2| | | | | | | | | ]; subst.
    apply lang_Seq_Chr_not_empty in H1. destruct w1; [contradiction|discriminate].
  - apply lang_Seq_Chr_not_empty.
Qed.

Lemma sub_gas_enough (r : regex) (repl : text) :
  forall gas1 gas2 s,
    length s <= gas1 -> length s <= gas2 ->
    sub_gas gas1 r repl s = sub_gas gas2 r repl s.
Proof.
  assert (Hnil : forall gas, sub_gas gas r repl [] = []).
  { intros [|gas]; cbn [sub_gas]; [reflexivity|].
    destruct (search r []) as [mt|] eqn:E; [|reflexivity].
    destruct (search_span r [] mt E) as (w & _ & Hw & Hlen).
    cbn [length] in Hlen.
    replace (m_end mt =? m_start mt) with true
      by (symmetry; apply Nat.eqb_eq; lia).
    reflexivity. }
  induction gas1 as [|gas1 IH]; intros gas2 s H1 H2.
  - destruct s; [|cbn in H1; lia]. now rewrite !Hnil.
  - destruct gas2 as [|gas2].
    + destruct s; [|cbn in H2; lia]. now rewrite !Hnil.
    + cbn [sub_gas]. destruct (search r s) as [mt|] eqn:E; [|reflexivity].
      destruct (search_span r s mt E) as (w & _ & Hw & Hlen).
      destruct (m_end mt =? m_start mt) eqn:Ee; [reflexivity|].
      apply Nat.eqb_neq in Ee. do 2 f_equal.
      apply IH; rewrite length_skipn; lia.
Qed.

(* ================================================================== *)
(** * Further properties of the extraction *)

(** ** Dictionaries: assignment and lookup *)

Lemma text_eqb_refl (a : text) : text_eqb a a = true.
Proof. unfold text_eqb. destruct (list_eq_dec ascii_dec a a); [reflexivity | contradiction]. Qed.

Lemma text_eqb_neq (a b : text) : a <> b -> text_eqb a b = false.
Proof. unfold text_eqb. destruct (list_eq_dec ascii_dec a b); [contradiction | reflexivity]. Qed.

Lemma dict_get_set_same (V : Type) (d : dict V) (k : text) (v : V) :
  dict_get (dict_set d k v) k = Some v.
Proof.
  induction d as [|[k0 v0] d IH]; cbn [dict_set dict_get].
  - now rewrite text_eqb_refl.
  - destruct (text_eqb k0 k) eqn:E; cbn [dict_get]; rewrite E; auto.
Qed.

Lemma dict_get_set_other (V : Type) (d : dict V) (k k' : text) (v : V) :
  k' <> k -> dict_get (dict_set d k v) k' = dict_get d k'.
Proof.
  intros Hne. induction d as [|[k0 v0] d IH]; cbn [dict_set dict_get].
  - rewrite text_eqb_neq; auto.
  - destruct (text_eqb k0 k) eqn:E; cbn [dict_get].
    + apply text_eqb_eq in E. subst k0. rewrite text_eqb_neq; auto.
    + destruct (text_eqb k0 k'); auto.
Qed.

Lemma dict_set_keys (V : Type) (d : dict V) (k : text) (v : V) :
  map fst (dict_set d k v)
  = if in_dec (list_eq_dec ascii_dec) k (map fst d)
    then map fst d else map fst d ++ [k].
Proof.
  induction d as [|[k0 v0] d IH]; cbn [dict_set map fst].
  - destruct (in_dec (list_eq_dec ascii_dec) k []) as [[]|]; reflexivity.
  - destruct (text_eqb k0 k) eqn:E; cbn [map fst].
    + apply text_eqb_eq in E. subst k0.
      destruct (in_dec (list_eq_dec ascii_dec) k (k :: map fst d)) as [|Hn]; [reflexivity|].
      exfalso. apply Hn. now left.
    + rewrite IH.
      assert (Hk : k0 <> k) by (intros ->; rewrite text_eqb_refl in E; discriminate).
      destruct (in_dec (list_eq_dec ascii_dec) k (map fst d)) as [Hi|Hn];
        destruct (in_dec (list_eq_dec ascii_dec) k (k0 :: map fst d)) as [Hi'|Hn']; try reflexivity.
      * exfalso. apply Hn'. now right.
      * destruct Hi' as [Hi'|Hi']; [congruence|contradiction].
Qed.

Lemma dict_set_NoDup (V : Type) (d : dict V) (k : text) (v : V) :
  NoDup (map fst d) -> NoDup (map fst (dict_set d k v)).
Proof.
  intros H. rewrite dict_set_keys.
  destruct (in_dec (list_eq_dec ascii_dec) k (map fst d)) as [Hi|Hn]; [exact H|].
  apply NoDup_app; repeat split; auto.
  - repeat constructor. intros [].
  - intros x Hx [<-|[]]. contradiction.
Qed.

(** ** The record of a page, field by field *)

Lemma parse_player_page_fields (html_content u : text) (p : PlayerData) :
  parse_player_page html_content u = Some p ->
  player_name_of html_content = Ret (name p) /\
  overall_rating_of html_content = Ret (overall_rating p) /\
  extract_badge_info_from_markdown html_content = Ret (badge_info p) /\
  extract_attributes_from_markdown html_content = Ret (attributes p) /\
  extract_player_details_from_markdown html_content = Ret (player_details p) /\
  url p = u /\
  raw_content p = (if 1000 <? length html_content
                   then firstn 1000 html_content ++ str "..."
                   else html_content).
Proof.
  unfold parse_player_page, parse_player_page_body. intros H.
  destruct (player_name_of html_content) as [n|]; [|discriminate].
  destruct (overall_rating_of html_content) as [r|]; [|discriminate].
  destruct (extract_badge_info_from_markdown html_content) as [b|]; [|discriminate].
  destruct (extract_attributes_from_markdown html_content) as [a|]; [|discriminate].
  destruct (extract_player_details_from_markdown html_content) as [d|];
    [|discriminate].
  cbn [bind] in H. inversion H; subst p; clear H. cbn. repeat split.
Qed.

(** ** Attribute categories *)

Lemma attribute_sections_NoDup : NoDup attribute_sections.
Proof.
  unfold attribute_sections.
  repeat (constructor; [cbn [In]; intros H; repeat destruct H as [H|H];
                        try discriminate H; exact H|]).
  constructor.
Qed.

Lemma dict_set_fresh_keys (V : Type) (d : dict V) (k : text) (v : V) :
  ~ In k (map fst d) -> map fst (dict_set d k v) = map fst d ++ [k].
Proof.
  intros H. rewrite dict_set_keys.
  destruct (in_dec (list_eq_dec ascii_dec) k (map fst d)); [contradiction|reflexivity].
Qed.

(** What an entry of the attribute dictionary holds. *)
Lemma attributes_loop_entries (content : text) (sections : list text) :
  forall attributes d,
    NoDup sections ->
    (forall k, In k (map fst attributes) -> ~ In k sections) ->
    attributes_loop content sections attributes = Ret d ->
    map fst d = map fst attributes ++ filter (has_heading content) sections /\
    forall section entry,
      In (section, entry) d ->
      In (section, entry) attributes \/
      (In section sections /\
       exists mt,
         search (header_pattern section) content = Some mt /\
         int_of_group mt 1 = Ret (rating entry) /\
         extract_sub_attributes content section = Ret (sub_attributes entry)).
Proof.
  induction sections as [|section rest IH]; intros attributes d Hnd Hfresh H;
    cbn [attributes_loop filter] in H |- *.
  - inversion H; subst. rewrite app_nil_r. auto.
  - inversion Hnd as [|? ? Hnot Hnd']; subst. unfold has_heading at 1.
    destruct (search (header_pattern section) content) as [mt|] eqn:E.
    + destruct (int_of_group mt 1) as [z|] eqn:Hz; [|discriminate].
      destruct (extract_sub_attributes content section) as [subs|] eqn:Hsubs;
        [|discriminate].
      cbn [bind] in H.
      assert (Hk : ~ In section (map fst attributes)).
      { intros Hin. apply (Hfresh _ Hin). now left. }
      destruct (IH (dict_set attributes section
                      {| rating := z; sub_attributes := subs |}) d Hnd')
        as (Hkeys & Hent); [|exact H|].
      { intros k Hin. rewrite (dict_set_fresh_keys _ _ _ _ Hk) in Hin.
        apply in_app_or in Hin. destruct Hin as [Hin|[<-|[]]].
        - intros Hr. apply (Hfresh _ Hin). now right.
        - exact Hnot. }
      split.
      * rewrite Hkeys, (dict_set_fresh_keys _ _ _ _ Hk), <- app_assoc. reflexivity.
      * intros sec entry Hin. destruct (Hent sec entry Hin) as [H'|(Hr & H')].
        -- apply dict_set_In in H'. destruct H' as [H'|[-> ->]]; [now left|].
           right. split; [now left|]. exists mt. cbn. auto.
        -- right. split; [now right | exact H'].
    + destruct (IH attributes d Hnd') as (Hkeys & Hent); [|exact H|].
      { intros k Hin Hr. apply (Hfresh _ Hin). now right. }
      split; [exact Hkeys|].
      intros sec entry Hin. destruct (Hent sec entry Hin) as [H'|(Hr & H')];
        [now left|]. right. split; [now right | exact H'].
Qed.

(** X1. The attribute dictionary that is returned has one entry for each
    of the six known categories that has a heading in the document, in the
    order of the list of categories whatever the order of the headings, and
    no other entry; the entry of a category holds the number of its heading
    and the sub-attributes read under it.  The dictionary is returned for
    every document in which no run of digits is longer than 4300. *)
Theorem attributes_follow_known_categories (content : text) :
  (short_numbers content ->
   exists attributes, extract_attributes_from_markdown content = Ret attributes) /\
  (forall attributes,
     extract_attributes_from_markdown content = Ret attributes ->
     map fst attributes = filter (has_heading content) attribute_sections /\
     NoDup (map fst attributes) /\
     length attributes <= 6 /\
     forall section entry,
       In (section, entry) attributes ->
       exists mt,
         search (header_pattern section) content = Some mt /\
         int_of_group mt 1 = Ret (rating entry) /\
         extract_sub_attributes content section = Ret (sub_attributes entry)).
Proof.
  split.
  - intros Hshort.
    destruct (attributes_loop_outcome content attribute_sections [])
      as [H|[_ H]]; [exact H | contradiction].
  - intros d Hd.
    destruct (attributes_loop_entries content attribute_sections [] d
                attribute_sections_NoDup) as (Hkeys & Hent);
      [intros k [] | exact Hd |].
    cbn [map app] in Hkeys.
    split; [exact Hkeys|]. split; [|split].
    + rewrite Hkeys. apply NoDup_filter, attribute_sections_NoDup.
    + rewrite <- (length_map fst), Hkeys.
      etransitivity; [apply filter_length_le | apply le_n].
    + intros section entry Hin.
      destruct (Hent section entry Hin) as [[]|(_ & H)]. exact H.
Qed.

Lemma attributes_follow_known_categories_witness :
  exists attributes,
    extract_attributes_from_markdown doc_headings_reversed = Ret attributes /\
    map fst attributes = [str "Defense"; str "Rebounding"].
Proof.
  destruct (attributes_follow_known_categories doc_headings_reversed)
    as [Hret Hkeys].
  destruct Hret as (a & E); [vm_compute; discriminate|].
  exists a. split; [exact E|].
  rewrite (proj1 (Hkeys a E)). vm_compute. reflexivity.
Defined.

(** ** Sub-attributes: one entry per name *)

Lemma sub_attr_loop_app (l1 l2 : list rmatch) :
  forall acc,
    sub_attr_loop (l1 ++ l2) acc
    = (d <- sub_attr_loop l1 acc ;; sub_attr_loop l2 d).
Proof.
  induction l1 as [|mt l1 IH]; intros acc; cbn [app sub_attr_loop bind].
  - reflexivity.
  - destruct (search digits_pattern (group mt 1)) as [dm|]; [|reflexivity].
    destruct (int_of_group dm 1); cbn [bind]; [apply IH | reflexivity].
Qed.

Lemma sub_attr_loop_keeps_others (k : text) (ms : list rmatch) :
  (forall mt, In mt ms -> item_name mt <> k) ->
  forall acc d,
    sub_attr_loop ms acc = Ret d -> dict_get d k = dict_get acc k.
Proof.
  induction ms as [|mt ms IH]; intros Hk acc d H; cbn [sub_attr_loop] in H.
  - now inversion H.
  - destruct (search digits_pattern (group mt 1)) as [dm|]; [|discriminate].
    destruct (int_of_group dm 1) as [z|]; [|discriminate]. cbn [bind] in H.
    rewrite (IH (fun x Hx => Hk x (or_intror Hx)) _ _ H).
    apply dict_get_set_other. intros E. apply (Hk mt (or_introl eq_refl)).
    now symmetry.
Qed.

Lemma sub_attr_loop_NoDup (ms : list rmatch) :
  forall acc d,
    NoDup (map fst acc) -> sub_attr_loop ms acc = Ret d -> NoDup (map fst d).
Proof.
  induction ms as [|mt ms IH]; intros acc d Hnd H; cbn [sub_attr_loop] in H.
  - now inversion H; subst.
  - destruct (search digits_pattern (group mt 1)) as [dm|]; [|discriminate].
    destruct (int_of_group dm 1) as [z|]; [|discriminate]. cbn [bind] in H.
    eapply IH; [|exact H]. now apply dict_set_NoDup.
Qed.

(** X2. The sub-attribute dictionary of a category has one entry per item
    name, the names have no white space at either end, and when several
    list items carry the same name the entry holds the number and the raw
    value of the last of them. *)
Theorem sub_attributes_last_item_wins (content section_name : text)
    (subs : dict SubAttribute) :
  extract_sub_attributes content section_name = Ret subs ->
  NoDup (map fst subs) /\
  (forall attr_name sa, In (attr_name, sa) subs -> trimmed attr_name) /\
  (forall section_match before mt after,
     search (section_pattern section_name) content = Some section_match ->
     findall sub_attr_pattern (section_content_of content section_match)
     = before ++ mt :: after ->
     (forall later, In later after -> item_name later <> item_name mt) ->
     exists sa,
       dict_get subs (item_name mt) = Some sa /\
       raw_value sa = group mt 1 /\
       int (leading_digits (group mt 1)) = Ret (value sa)).
Proof.
  intros E. split; [|split].
  - unfold extract_sub_attributes in E.
    destruct (search (section_pattern section_name) content) as [sm|].
    + eapply sub_attr_loop_NoDup; [|exact E]. constructor.
    + inversion E; subst. constructor.
  - intros attr_name sa Hin.
    destruct (extract_sub_attributes_entries content section_name subs E
                attr_name sa Hin) as (sm & _ & _ & _ & mt & _ & _ & ->).
    unfold trimmed. apply strip_strip.
  - intros sm before mt after Hsm Hall Hlater.
    unfold extract_sub_attributes in E. rewrite Hsm, Hall in E.
    rewrite sub_attr_loop_app in E.
    destruct (sub_attr_loop before []) as [d1|]; [|discriminate].
    cbn [bind sub_attr_loop] in E.
    assert (Ht : numeral_token (group mt 1)).
    { apply (findall_sub_attr_token (section_content_of content sm)).
      rewrite Hall. apply in_or_app. right. now left. }
    destruct (numeral_token_value _ Ht) as (dm & Hdm & Hz & _).
    rewrite Hdm, Hz in E.
    destruct (int (leading_digits (group mt 1))) as [z|] eqn:Hlead;
      [|discriminate].
    cbn [bind] in E.
    exists {| value := z; raw_value := group mt 1 |}.
    rewrite (sub_attr_loop_keeps_others (item_name mt) after Hlater _ _ E).
    split; [apply dict_get_set_same|]. split; reflexivity.
Qed.

Lemma sub_attributes_last_item_wins_witness :
  exists subs,
    extract_sub_attributes doc_repeated_item (str "Outside Scoring") = Ret subs /\
    NoDup (map fst subs) /\
    dict_get subs (str "Close Shot") = Some sub_close_shot_last.
Proof.
  eexists. split; [vm_compute; reflexivity|]. split.
  - refine (proj1 (sub_attributes_last_item_wins doc_repeated_item
                     (str "Outside Scoring") _ _)).
    vm_compute. reflexivity.
  - vm_compute. reflexivity.
Defined.

(** ** The badge breakdown by category *)

Lemma badge_categories_NoDup : NoDup badge_categories.
Proof.
  unfold badge_categories.
  repeat (constructor; [cbn [In]; intros H; repeat destruct H as [H|H];
                        try discriminate H; exact H|]).
  constructor.
Qed.

Lemma breakdown_loop_entries (content : text) (categories : list text) :
  forall breakdown d,
    NoDup categories ->
    (forall k, In k (map fst breakdown) -> ~ In k categories) ->
    breakdown_loop content categories breakdown = Ret d ->
    map fst d
    = map fst breakdown ++ filter (has_category_count content) categories /\
    forall cat n,
      In (cat, n) d ->
      In (cat, n) breakdown \/
      (In cat categories /\ (0 <= n)%Z /\
       exists mt,
         search (cat_pattern cat) content = Some mt /\
         int_of_group mt 1 = Ret n).
Proof.
  induction categories as [|cat rest IH]; intros breakdown d Hnd Hfresh H;
    cbn [breakdown_loop filter] in H |- *.
  - inversion H; subst. rewrite app_nil_r. auto.
  - inversion Hnd as [|? ? Hnot Hnd']; subst. unfold has_category_count at 1.
    destruct (search (cat_pattern cat) content) as [mt|] eqn:E.
    + destruct (int_of_group mt 1) as [z|] eqn:Hz; [|discriminate].
      pose proof (int_of_group_Ret _ _ _ Hz) as Hz0.
      cbn [bind] in H.
      assert (Hk : ~ In cat (map fst breakdown)).
      { intros Hin. apply (Hfresh _ Hin). now left. }
      destruct (IH (dict_set breakdown cat z) d Hnd') as (Hkeys & Hent);
        [|exact H|].
      { intros k Hin. rewrite (dict_set_fresh_keys _ _ _ _ Hk) in Hin.
        apply in_app_or in Hin. destruct Hin as [Hin|[<-|[]]].
        - intros Hr. apply (Hfresh _ Hin). now right.
        - exact Hnot. }
      split.
      * rewrite Hkeys, (dict_set_fresh_keys _ _ _ _ Hk), <- app_assoc. reflexivity.
      * intros c n Hin. destruct (Hent c n Hin) as [H'|(Hr & H')].
        -- apply dict_set_In in H'. destruct H' as [H'|[-> ->]]; [now left|].
           right. split; [now left|]. split; [exact Hz0|]. exists mt. auto.
        -- right. split; [now right | exact H'].
    + destruct (IH breakdown d Hnd') as (Hkeys & Hent); [|exact H|].
      { intros k Hin Hr. apply (Hfresh _ Hin). now right. }
      split; [exact Hkeys|].
      intros c n Hin. destruct (Hent c n Hin) as [H'|(Hr & H')];
        [now left|]. right. split; [now right | exact H'].
Qed.

(** X3. The badge breakdown of the summary that is returned has one entry
    for each of the seven known badge categories followed somewhere in the
    document by " (<number>)", in the order of the list of categories, and
    no other entry; the entry is that number, read at the first such place.
    The summary is returned for every document in which no run of digits is
    longer than 4300. *)
Theorem badge_breakdown_follows_known_categories (content : text) :
  (short_numbers content ->
   exists badge_info,
     extract_badge_info_from_markdown content = Ret badge_info) /\
  (forall badge_info,
     extract_badge_info_from_markdown content = Ret badge_info ->
     map fst (badge_breakdown badge_info)
     = filter (has_category_count content) badge_categories /\
     NoDup (map fst (badge_breakdown badge_info)) /\
     forall cat n,
       In (cat, n) (badge_breakdown badge_info) ->
       (0 <= n)%Z /\
       exists mt,
         search (cat_pattern cat) content = Some mt /\
         int_of_group mt 1 = Ret n).
Proof.
  split.
  - intros Hshort.
    destruct (extract_badge_info_outcome content) as [H|[_ H]];
      [exact H | contradiction].
  - intros badge_info E.
    destruct (extract_badge_info_shape content badge_info E)
      as (l & h & g & s & b & d & _ & _ & _ & _ & _ & _ & Hd & E').
    rewrite E' in E. inversion E; subst badge_info; clear E.
    cbn [badge_breakdown].
    destruct (breakdown_loop_entries content badge_categories [] d
                badge_categories_NoDup) as (Hkeys & Hent);
      [intros k [] | exact Hd |].
    cbn [map app] in Hkeys.
    split; [exact Hkeys|]. split.
    + rewrite Hkeys. apply NoDup_filter, badge_categories_NoDup.
    + intros cat n Hin. destruct (Hent cat n Hin) as [[]|(_ & H0 & H)]. auto.
Qed.

Lemma badge_breakdown_follows_known_categories_witness :
  exists badge_info,
    extract_badge_info_from_markdown doc_breakdown_reversed = Ret badge_info /\
    map fst (badge_breakdown badge_info)
    = [str "Outside Scoring"; str "Inside Scoring"] /\
    badge_breakdown badge_info
    = [(str "Outside Scoring", 4%Z); (str "Inside Scoring", 9%Z)].
Proof.
  destruct (badge_breakdown_follows_known_categories doc_breakdown_reversed)
    as [Hret Hkeys].
  destruct Hret as (b & E); [vm_compute; discriminate|].
  exists b. split; [exact E|]. split.
  - rewrite (proj1 (Hkeys b E)). vm_compute. reflexivity.
  - revert E. vm_compute. intros E. inversion E. reflexivity.
Defined.

(** ** Numbers *)

Lemma numeral_token_value_non_negative (w : text) (z : Z) :
  numeral_token w -> int (leading_digits w) = Ret z -> (0 <= z)%Z.
Proof. intros _ H. exact (proj1 (int_Ret _ _ H)). Qed.

(** X4. No number of a record is negative: the overall rating when there is
    one, the five tier counts and their total, the counts of the badge
    breakdown, the rating of every attribute category and the value of every
    sub-attribute. *)
Theorem numbers_are_never_negative (html_content u : text) (p : PlayerData) :
  parse_player_page html_content u = Some p ->
  (forall n, overall_rating p = Some n -> (0 <= n)%Z) /\
  (0 <= legendary_badges (badge_info p) /\ 0 <= hof_badges (badge_info p) /\
   0 <= gold_badges (badge_info p) /\ 0 <= silver_badges (badge_info p) /\
   0 <= bronze_badges (badge_info p) /\ 0 <= total_badges (badge_info p))%Z /\
  (forall cat n, In (cat, n) (badge_breakdown (badge_info p)) -> (0 <= n)%Z) /\
  (forall section entry,
     In (section, entry) (attributes p) ->
     (0 <= rating entry)%Z /\
     forall attr_name sa,
       In (attr_name, sa) (sub_attributes entry) -> (0 <= value sa)%Z).
Proof.
  intros H.
  destruct (parse_player_page_fields _ _ _ H) as (_ & Hr & Hb & Ha & _).
  split; [|split; [|split]].
  - intros n Hn. unfold overall_rating_of in Hr.
    destruct (contains _ html_content); [|rewrite Hn in Hr; discriminate].
    destruct (search rating_pattern html_content) as [mt|] eqn:E;
      [|rewrite Hn in Hr; discriminate].
    destruct (int_of_group mt 1) as [z|] eqn:Hz; [|discriminate].
    cbn [bind] in Hr. rewrite Hn in Hr.
    inversion Hr; subst. exact (int_of_group_Ret _ _ _ Hz).
  - destruct (extract_badge_info_shape html_content _ Hb)
      as (l & h & g & s & b & d & _ & _ & _ & _ & _ & H0 & _ & E).
    rewrite E in Hb. inversion Hb as [Hb']. cbn. lia.
  - intros cat n Hin.
    destruct (extract_badge_info_shape html_content _ Hb)
      as (l & h & g & s & b & d & _ & _ & _ & _ & _ & _ & Hd & E).
    rewrite E in Hb. inversion Hb as [Hb']. rewrite <- Hb' in Hin.
    cbn [badge_breakdown] in Hin.
    destruct (breakdown_loop_entries html_content badge_categories [] d
                badge_categories_NoDup) as (_ & Hent);
      [intros k [] | exact Hd |].
    destruct (Hent cat n Hin) as [[]|(_ & H0 & _)]. exact H0.
  - intros section entry Hin.
    destruct (attributes_loop_entries html_content attribute_sections []
                (attributes p) attribute_sections_NoDup) as (_ & Hent);
      [intros k [] | exact Ha |].
    destruct (Hent section entry Hin) as [[]|(_ & mt & Hmt & Hz & Hsubs)].
    split; [exact (int_of_group_Ret _ _ _ Hz)|].
    intros attr_name sa Hsa.
    destruct (extract_sub_attributes_entries html_content section _ Hsubs
                attr_name sa Hsa) as (sm & _ & Hv & Ht & _).
    exact (numeral_token_value_non_negative _ _ Ht Hv).
Qed.

Lemma numbers_are_never_negative_witness :
  exists p,
    parse_player_page doc_page (str "https://www.2kratings.com/nikola-jokic")
    = Some p /\
    (forall n, overall_rating p = Some n -> (0 <= n)%Z).
Proof.
  destruct (parse_player_page doc_page
              (str "https://www.2kratings.com/nikola-jokic")) as [p|] eqn:E;
    [|vm_compute in E; discriminate E].
  exists p. split; [reflexivity|].
  exact (proj1 (numbers_are_never_negative _ _ _ E)).
Defined.

(** ** Player details *)

Lemma detail_lookup_step (pattern : regex) (key : string) (content : text)
    (details : dict text) :
  groups_in anything pattern -> sets_group pattern 1 = true ->
  ~ In (str key) (map fst details) ->
  exists d,
    detail_lookup pattern key content details = Ret d /\
    map fst d
    = map fst details ++ (if found pattern content then [str key] else []) /\
    forall k v,
      In (k, v) d ->
      In (k, v) details \/
      (k = str key /\
       exists mt, search pattern content = Some mt /\
                  strip_of_group mt 1 = Ret v).
Proof.
  intros Hg Hs Hk. unfold detail_lookup, found.
  destruct (search pattern content) as [mt|] eqn:E.
  - destruct (strip_of_group_total _ _ _ Hg Hs E) as (v & Hv). rewrite Hv.
    cbn [bind]. eexists. split; [reflexivity|]. split.
    + apply dict_set_fresh_keys, Hk.
    + intros k v' Hin. apply dict_set_In in Hin.
      destruct Hin as [Hin|[-> ->]]; [now left|]. right. eauto.
  - exists details. rewrite app_nil_r. auto.
Qed.

Lemma strip_of_group_trimmed (mt : rmatch) (n : nat) (v : text) :
  strip_of_group mt n = Ret v -> trimmed v.
Proof.
  unfold strip_of_group. destruct (cap_get (m_groups mt) n); [|discriminate].
  intros H. inversion H; subst. apply strip_strip.
Qed.

Ltac fresh_detail_key H :=
  rewrite H;
  repeat match goal with
         | |- context [found ?p ?c] => destruct (found p c)
         end;
  cbn [app map fst In]; intros C;
  repeat destruct C as [C|C]; try discriminate C; exact C.

Lemma player_details_entries (content : text) :
  exists details,
    extract_player_details_from_markdown content = Ret details /\
    map fst details
    = map (fun f => str (fst f))
          (filter (fun f => found (snd f) content) detail_fields) /\
    forall k v,
      In (k, v) details ->
      exists key pattern mt,
        In (key, pattern) detail_fields /\ k = str key /\
        search pattern content = Some mt /\
        strip_of_group mt 1 = Ret v.
Proof.
  unfold extract_player_details_from_markdown.
  destruct (detail_lookup_step (bracket_pattern "Position") "position" content []
              (proj1 (bracket_pattern_groups _)) (proj2 (bracket_pattern_groups _)))
    as (d1 & -> & K1 & E1); [intros []|]. cbn [bind].
  destruct (detail_lookup_step (bracket_pattern "Team") "team" content d1
              (proj1 (bracket_pattern_groups _)) (proj2 (bracket_pattern_groups _)))
    as (d2 & -> & K2 & E2); [fresh_detail_key K1|]. cbn [bind].
  rewrite K1 in K2.
  destruct (detail_lookup_step (line_pattern "Height") "height" content d2
              (proj1 (line_pattern_groups _)) (proj2 (line_pattern_groups _)))
    as (d3 & -> & K3 & E3); [fresh_detail_key K2|]. cbn [bind].
  rewrite K2 in K3.
  destruct (detail_lookup_step (line_pattern "Weight") "weight" content d3
              (proj1 (line_pattern_groups _)) (proj2 (line_pattern_groups _)))
    as (d4 & -> & K4 & E4); [fresh_detail_key K3|]. cbn [bind].
  rewrite K3 in K4.
  destruct (detail_lookup_step (line_pattern "Wingspan") "wingspan" content d4
              (proj1 (line_pattern_groups _)) (proj2 (line_pattern_groups _)))
    as (d5 & -> & K5 & E5); [fresh_detail_key K4|]. cbn [bind].
  rewrite K4 in K5.
  destruct (detail_lookup_step (line_pattern "Archetype") "archetype" content d5
              (proj1 (line_pattern_groups _)) (proj2 (line_pattern_groups _)))
    as (d6 & -> & K6 & E6); [fresh_detail_key K5|].
  rewrite K5 in K6.
  exists d6. split; [reflexivity|]. split.
  - rewrite K6. unfold detail_fields. cbn [filter snd].
    repeat match goal with
           | |- context [found ?p ?c] => destruct (found p c)
           end; reflexivity.
  - intros k v Hin.
    assert (H : exists key pattern mt,
               In (key, pattern) detail_fields /\ k = str key /\
               search pattern content = Some mt /\
               strip_of_group mt 1 = Ret v).
    { unfold detail_fields.
      destruct (E6 k v Hin) as [H6|(-> & mt & Hm & Hv)];
        [|do 3 eexists; split; [do 5 right; left; reflexivity | eauto]].
      destruct (E5 k v H6) as [H5|(-> & mt & Hm & Hv)];
        [|do 3 eexists; split; [do 4 right; left; reflexivity | eauto]].
      destruct (E4 k v H5) as [H4|(-> & mt & Hm & Hv)];
        [|do 3 eexists; split; [do 3 right; left; reflexivity | eauto]].
      destruct (E3 k v H4) as [H3|(-> & mt & Hm & Hv)];
        [|do 3 eexists; split; [do 2 right; left; reflexivity | eauto]].
      destruct (E2 k v H3) as [H2|(-> & mt & Hm & Hv)];
        [|do 3 eexists; split; [right; left; reflexivity | eauto]].
      destruct (E1 k v H2) as [[]|(-> & mt & Hm & Hv)].
      do 3 eexists; split; [left; reflexivity | eauto]. }
    exact H.
Qed.


(** X5. The player details hold, in the order position, team, height,
    weight, wingspan, archetype, an entry for each of these whose labelled
    pattern is found in the document and no entry for the others; each
    value is the text captured by its pattern without the white space
    around it. *)
Theorem player_details_follow_labels (content : text) :
  exists details,
    extract_player_details_from_markdown content = Ret details /\
    map fst details
    = map (fun f => str (fst f))
          (filter (fun f => found (snd f) content) detail_fields) /\
    forall k v,
      In (k, v) details ->
      trimmed v /\
      exists key pattern mt,
        In (key, pattern) detail_fields /\ k = str key /\
        search pattern content = Some mt /\
        strip_of_group mt 1 = Ret v.
Proof.
  destruct (player_details_entries content) as (details & E & K & H).
  exists details. split; [exact E|]. split; [exact K|].
  intros k v Hin. destruct (H k v Hin) as (key & pattern & mt & H1 & H2 & H3 & Hv).
  split; [exact (strip_of_group_trimmed _ _ _ Hv)|].
  exists key, pattern, mt. auto.
Qed.

Lemma player_details_follow_labels_witness :
  exists details,
    extract_player_details_from_markdown doc_details = Ret details /\
    details = [(str "position", str "C");
               (str "height", str "6'11 (211cm)");
               (str "weight", str "284lbs (129kg)")].
Proof.
  destruct (player_details_follow_labels doc_details) as (d & E & _).
  exists d. split; [exact E|].
  assert (E' : extract_player_details_from_markdown doc_details
               = Ret [(str "position", str "C");
                      (str "height", str "6'11 (211cm)");
                      (str "weight", str "284lbs (129kg)")])
    by (vm_compute; reflexivity).
  rewrite E' in E. now inversion E.
Defined.

(** ** The player name is one trimmed line *)

Lemma In_firstn_inv (A : Type) (x : A) (n : nat) (l : list A) :
  In x (firstn n l) -> In x l.
Proof.
  revert n. induction l as [|a l IH]; intros [|n]; cbn; try tauto.
  intros [H|H]; [auto | right; eauto].
Qed.

Lemma In_skipn_inv (A : Type) (x : A) (n : nat) (l : list A) :
  In x (skipn n l) -> In x l.
Proof.
  revert n. induction l as [|a l IH]; intros [|n]; cbn; try tauto.
  intros H. right; eauto.
Qed.

(** Replacing by nothing only removes characters. *)
Lemma replace_gas_In (x : ascii) (old : text) :
  forall gas s, In x (replace_gas gas old [] s) -> In x s.
Proof.
  induction gas as [|gas IH]; intros s; cbn [replace_gas]; [auto|].
  destruct (find old s) as [i|]; [|auto]. cbn [app]. intros H.
  apply in_app_or in H. destruct H as [H|H].
  - exact (In_firstn_inv _ _ _ _ H).
  - exact (In_skipn_inv _ _ _ _ (IH _ H)).
Qed.

Lemma title_of_one_line (html_content : text) (i : nat) :
  ~ In LF (title_of html_content i).
Proof.
  unfold title_of. intros H. apply strip_In in H. revert H.
  match goal with
  | |- context [find [LF] ?seg] =>
      pose proof (find_from_char LF seg 0) as Hc; fold (find [LF] seg) in Hc;
      destruct (find [LF] seg) as [j|]
  end.
  - destruct Hc as (_ & Hn & _). now rewrite Nat.sub_0_r in Hn.
  - exact Hc.
Qed.

(** X6. The player name is a single line without white space at either
    end: it holds no line break, and trimming it again changes nothing. *)
Theorem player_name_is_one_trimmed_line (html_content player_name : text) :
  player_name_of html_content = Ret player_name ->
  trimmed player_name /\ ~ In LF player_name.
Proof.
  intros H. destruct (find (str "Title:") html_content) as [i|] eqn:E.
  - rewrite (player_name_of_marked _ _ E) in H. inversion H; subst.
    unfold without_boilerplate. split; [apply strip_strip|].
    intros Hin. apply strip_In in Hin.
    apply replace_gas_In in Hin. apply replace_gas_In in Hin.
    exact (title_of_one_line _ _ Hin).
  - unfold player_name_of, contains in H. rewrite E in H. inversion H; subst.
    split; [vm_compute; reflexivity|]. vm_compute. intuition discriminate.
Qed.

Lemma player_name_is_one_trimmed_line_witness :
  trimmed (str "Nikola Jokic Denver Nuggets") /\
  ~ In LF (str "Nikola Jokic Denver Nuggets").
Proof.
  apply (player_name_is_one_trimmed_line doc_page).
  vm_compute. reflexivity.
Defined.

(** ** The fields of a badge *)

Lemma lang_plus_not_nl (w : text) : lang (Plus not_nl) w -> ~ In LF w.
Proof.
  intros H. inversion H as [ | | |r1 r2 w1 w2 H1 H2| | | | | | | | | ]; subst.
  assert (Hall : Forall (fun c => negb (Ascii.eqb c LF) = true) (w1 ++ w2)).
  { apply Forall_app. split.
    - inversion H1; subst. now repeat constructor.
    - now apply (lang_star_cls _ (Star not_nl)). }
  intros Hin. rewrite Forall_forall in Hall. specialize (Hall _ Hin).
  now rewrite Ascii.eqb_refl in Hall.
Qed.

Lemma badge_pattern_groups : groups_in badge_groups badge_pattern_v2.
Proof.
  unfold badge_pattern_v2. cbn [Cat groups_in]. repeat split;
    try apply groups_in_Lit.
  - intros w Hw _. now apply lang_plus_not_nl.
  - intros w Hw _. now apply lang_plus_not_nl.
  - intros w _ C. now contradiction C.
Qed.

Lemma badge_match_groups (s : text) (mt : rmatch) :
  In mt (findall badge_pattern_v2 s) ->
  ~ In LF (group mt 1) /\ ~ In LF (group mt 2).
Proof.
  intros H. unfold findall in H.
  destruct (findall_gas_sound badge_groups badge_pattern_v2
              badge_pattern_groups _ _ _ H) as [Hc _].
  unfold group. split.
  - destruct (cap_get (m_groups mt) 1) as [w|] eqn:E; [|intros []].
    apply (cap_get_in badge_groups _ _ _ Hc E). discriminate.
  - destruct (cap_get (m_groups mt) 2) as [w|] eqn:E; [|intros []].
    apply (cap_get_in badge_groups _ _ _ Hc E). discriminate.
Qed.

Lemma star_loop_succeeds (A : Type) (b : bool)
    (body : text -> caps -> (text -> caps -> option A) -> option A)
    (k : text -> caps -> option A) :
  (forall s g, k s g <> None) ->
  forall n s g, star_loop b body k n s g <> None.
Proof.
  intros Hk [|n] s g; [apply Hk|]. rewrite star_loop_S. cbv zeta.
  destruct b.
  - destruct (body s g _); [discriminate | apply Hk].
  - destruct (k s g) eqn:E; [discriminate | now apply Hk in E].
Qed.

(** The first match of [\n+] starts at the first line break. *)
Lemma search_from_newlines (s : text) :
  forall pos,
    match search_from newlines_pattern pos s with
    | None => ~ In LF s
    | Some mt => pos <= m_start mt /\ ~ In LF (firstn (m_start mt - pos) s)
    end.
Proof.
  induction s as [|c s IH]; intros pos; cbn [search_from].
  - unfold match_here, newlines_pattern, Plus. cbn [m]. intros [].
  - destruct (match_here newlines_pattern pos (c :: s)) as [mt|] eqn:E.
    + destruct (match_here_sound anything _ _ _ _ (groups_in_anything _) E)
        as (w & s' & _ & _ & -> & _). rewrite Nat.sub_diag. cbn. split; [lia|tauto].
    + unfold match_here, newlines_pattern, Plus in E. cbn [m] in E.
      destruct (Ascii.eqb c LF) eqn:Ec.
      * exfalso. revert E. apply star_loop_succeeds. discriminate.
      * apply Ascii.eqb_neq in Ec. specialize (IH (S pos)).
        destruct (search_from newlines_pattern (S pos) s) as [mt|].
        -- destruct IH as [Hp Hn].
           replace (m_start mt - pos) with (S (m_start mt - S pos)) by lia.
           cbn [firstn In]. split; [lia|]. intros [H|H]; [congruence|auto].
        -- intros [H|H]; [congruence|auto].
Qed.

Lemma sub_newlines_one_line :
  forall gas s,
    length s <= gas -> ~ In LF (sub_gas gas newlines_pattern (str " ") s).
Proof.
  induction gas as [|gas IH]; intros s Hlen; cbn [sub_gas].
  - destruct s; [intros [] | cbn in Hlen; lia].
  - pose proof (search_from_newlines s 0) as H. fold (search newlines_pattern s) in H.
    destruct (search newlines_pattern s) as [mt|] eqn:E; [|exact H].
    destruct H as [_ Hn]. rewrite Nat.sub_0_r in Hn.
    pose proof (search_not_empty _ _ _
                  (fun w => proj2 (proj2 (scanned_patterns_not_empty w))) E) as Hlt.
    destruct (search_span _ _ _ E) as (w & _ & _ & Hend).
    replace (m_end mt =? m_start mt) with false
      by (symmetry; apply Nat.eqb_neq; lia).
    intros Hin. apply in_app_or in Hin. destruct Hin as [Hin|Hin]; [auto|].
    apply in_app_or in Hin. destruct Hin as [Hin|Hin].
    + destruct Hin as [Hin|[]]. vm_compute in Hin. discriminate Hin.
    + revert Hin. apply IH. rewrite length_skipn. lia.
Qed.

Lemma badge_loop_In (badge_info : BadgeInfo) (b : Badge) (ms : list rmatch) :
  forall i,
    In b (badge_loop badge_info i ms) ->
    exists j mt, In mt ms /\ b = badge_of badge_info j mt.
Proof.
  induction ms as [|mt ms IH]; intros i H; cbn [badge_loop] in H; [contradiction|].
  destruct (i >=? total_badges badge_info)%Z; [contradiction|].
  destruct H as [<-|H].
  - exists i, mt. split; [now left|reflexivity].
  - destruct (IH _ H) as (j & mt' & Hin & ->). exists j, mt'. split; [now right|reflexivity].
Qed.

(** X7. The name, the category and the description of every returned badge
    are single lines without white space at either end: none holds a line
    break, the line breaks inside a description having become spaces. *)
Theorem badge_fields_are_trimmed_lines (content : text) (badge_info : BadgeInfo)
    (b : Badge) :
  In b (extract_individual_badges content badge_info) ->
  (trimmed (badge_name b) /\ ~ In LF (badge_name b)) /\
  (trimmed (category b) /\ ~ In LF (category b)) /\
  (trimmed (description b) /\ ~ In LF (description b)).
Proof.
  intros H. unfold extract_individual_badges in H.
  destruct (badge_section_of content) as [sec|]; [|contradiction].
  apply badge_loop_In in H. destruct H as (j & mt & Hmt & ->).
  destruct (badge_match_groups _ _ Hmt) as [H1 H2].
  cbn [badge_of badge_name category description].
  repeat split; try apply strip_strip.
  - intros Hin. apply strip_In in Hin. contradiction.
  - intros Hin. apply strip_In in Hin. contradiction.
  - intros Hin. apply strip_In in Hin. revert Hin.
    apply sub_newlines_one_line, le_n.
Qed.

Lemma badge_fields_are_trimmed_lines_witness :
  description badge_deadeye = str "Shoots well under pressure" /\
  ~ In LF (description badge_deadeye).
Proof.
  split; [reflexivity|].
  refine (proj2 (proj2 (proj2 (badge_fields_are_trimmed_lines doc_two_badges
                                 counts_one_gold badge_deadeye _)))).
  vm_compute. left. reflexivity.
Defined.

(** ** Occurrences of a text *)

(** [find] gives the first place where the text starts, if there is one. *)
Lemma find_from_first (sub s : text) :
  forall k,
    match find_from sub k s with
    | Some i =>
        k <= i /\ i - k <= length s /\
        starts_with sub (skipn (i - k) s) = true /\
        forall j, j < i - k -> starts_with sub (skipn j s) = false
    | None => forall j, starts_with sub (skipn j s) = false
    end.
Proof.
  induction s as [|c t IH]; intros k; cbn [find_from].
  - destruct (starts_with sub []) eqn:E.
    + rewrite Nat.sub_diag. cbn. repeat split; auto; lia.
    + intros j. now rewrite skipn_nil.
  - destruct (starts_with sub (c :: t)) eqn:E.
    + rewrite Nat.sub_diag. cbn [skipn]. repeat split; auto; lia.
    + specialize (IH (S k)). destruct (find_from sub (S k) t) as [i|].
      * destruct IH as (Hk & Hl & Hs & Hmin).
        replace (i - k) with (S (i - S k)) by lia. cbn [skipn length].
        repeat split; [lia | lia | exact Hs |].
        intros [|j] Hj; [exact E|]. cbn [skipn]. apply Hmin. lia.
      * intros [|j]; [exact E | apply IH].
Qed.

Lemma starts_with_app_r (sub t u : text) :
  starts_with sub t = true -> starts_with sub (t ++ u) = true.
Proof.
  revert t. induction sub as [|a sub IH]; intros [|b t]; cbn; try discriminate; auto.
  intros H. apply andb_true_iff in H. destruct H as [-> H]. cbn. auto.
Qed.

Lemma starts_with_split (sub s : text) :
  starts_with sub s = true -> s = sub ++ skipn (length sub) s.
Proof.
  revert s. induction sub as [|a sub IH]; intros [|b s]; cbn; try discriminate; auto.
  intros H. apply andb_true_iff in H. destruct H as [E H].
  apply Ascii.eqb_eq in E. subst. f_equal. auto.
Qed.

Lemma starts_with_self (sub u : text) : starts_with sub (sub ++ u) = true.
Proof. induction sub as [|a sub IH]; cbn; [|rewrite Ascii.eqb_refl]; auto. Qed.

(** Before its first occurrence a text does not occur. *)
Lemma find_absent_before (sub s : text) (i : nat) :
  sub <> [] -> find sub s = Some i -> find sub (firstn i s) = None.
Proof.
  intros Hne H.
  pose proof (find_from_first sub s 0) as Hs. fold (find sub s) in Hs.
  rewrite H in Hs. destruct Hs as (_ & Hl & _ & Hmin). rewrite Nat.sub_0_r in *.
  pose proof (find_from_first sub (firstn i s) 0) as Hp.
  fold (find sub (firstn i s)) in Hp.
  destruct (find sub (firstn i s)) as [p|]; [|reflexivity].
  destruct Hp as (_ & Hpl & Hps & _). rewrite Nat.sub_0_r in *.
  rewrite length_firstn in Hpl.
  destruct (Nat.eq_dec p i) as [->|Hpi].
  - rewrite skipn_all2 in Hps by (rewrite length_firstn; lia).
    destruct sub; [contradiction | discriminate].
  - assert (Hlt : p < i) by lia.
    specialize (Hmin p Hlt).
    rewrite <- (firstn_skipn i s) in Hmin at 1.
    rewrite skipn_app in Hmin.
    apply (starts_with_app_r _ _ (skipn (p - length (firstn i s)) (skipn i s)))
      in Hps.
    congruence.
Qed.

(** ** The badges section *)

Lemma no_hot_zones_inside_marker (rest : text) (j : nat) :
  j < 17 ->
  starts_with (str "NBA 2K25 Hot Zones")
    (skipn j (str "[NBA 2K25 Badges]" ++ rest)) = false.
Proof.
  intros Hj.
  do 17 (destruct j as [|j]; [reflexivity|]). lia.
Qed.

(** X8. The text the badges are read from is a part of the document that
    begins at the first "[NBA 2K25 Badges]", with that marker, and holds no
    "NBA 2K25 Hot Zones": what follows the first hot-zones heading after
    the marker gives no badge. *)
Theorem badge_section_ends_before_hot_zones (content badge_section : text) :
  badge_section_of content = Some badge_section ->
  starts_with (str "[NBA 2K25 Badges]") badge_section = true /\
  find (str "NBA 2K25 Hot Zones") badge_section = None /\
  exists before after,
    content = before ++ badge_section ++ after /\
    find (str "[NBA 2K25 Badges]") content = Some (length before).
Proof.
  unfold badge_section_of.
  destruct (find (str "[NBA 2K25 Badges]") content) as [i|] eqn:Ei; [|discriminate].
  pose proof (find_from_first (str "[NBA 2K25 Badges]") content 0) as Hs.
  fold (find (str "[NBA 2K25 Badges]") content) in Hs. rewrite Ei in Hs.
  destruct Hs as (_ & Hl & Hst & _). rewrite Nat.sub_0_r in *.
  set (section := skipn i content) in *.
  destruct (find (str "NBA 2K25 Hot Zones") section) as [j|] eqn:Ej;
    intros H; inversion H; subst badge_section; clear H.
  - pose proof (find_from_first (str "NBA 2K25 Hot Zones") section 0) as Hh.
    fold (find (str "NBA 2K25 Hot Zones") section) in Hh. rewrite Ej in Hh.
    destruct Hh as (_ & Hjl & Hjs & _). rewrite Nat.sub_0_r in *.
    assert (Hj : 17 <= j).
    { destruct (le_lt_dec 17 j) as [|Hlt]; [assumption|exfalso].
      rewrite (starts_with_split _ _ Hst) in Hjs.
      rewrite (no_hot_zones_inside_marker _ j Hlt) in Hjs. discriminate. }
    split; [|split].
    + rewrite (starts_with_split _ _ Hst).
      rewrite firstn_app.
      change (length (str "[NBA 2K25 Badges]")) with 17.
      rewrite firstn_all2 by (cbn; lia).
      apply starts_with_self.
    + apply find_absent_before; [discriminate | exact Ej].
    + exists (firstn i content), (skipn j section).
      rewrite firstn_skipn. unfold section. rewrite firstn_skipn.
      split; [reflexivity|]. rewrite length_firstn. f_equal. lia.
  - split; [exact Hst|]. split; [exact Ej|].
    exists (firstn i content), []. rewrite app_nil_r. unfold section.
    rewrite firstn_skipn. split; [reflexivity|]. rewrite length_firstn. f_equal. lia.
Qed.

Lemma badge_section_ends_before_hot_zones_witness :
  exists badge_section,
    badge_section_of doc_badges_then_hot_zones = Some badge_section /\
    find (str "NBA 2K25 Hot Zones") badge_section = None /\
    map badge_name
        (extract_individual_badges doc_badges_then_hot_zones
           counts_one_gold_total_two)
    = [str "Deadeye"].
Proof.
  destruct (badge_section_of doc_badges_then_hot_zones) as [sec|] eqn:E;
    [|vm_compute in E; discriminate E].
  exists sec. split; [reflexivity|]. split.
  - exact (proj1 (proj2 (badge_section_ends_before_hot_zones _ _ E))).
  - vm_compute. reflexivity.
Defined.

(** ** The order of the tiers *)

(** X9. Along the returned list the tiers never go back up: a badge is
    never followed by a badge of a higher tier, in the order Legendary,
    Hall of Fame, Gold, Silver, Bronze, Unknown. *)
Theorem badge_tiers_never_rise (content : text) (badge_info : BadgeInfo)
    (i j : nat) (b1 b2 : Badge) :
  (0 <= legendary_badges badge_info)%Z -> (0 <= hof_badges badge_info)%Z ->
  (0 <= gold_badges badge_info)%Z -> (0 <= silver_badges badge_info)%Z ->
  (0 <= bronze_badges badge_info)%Z ->
  i <= j ->
  nth_error (extract_individual_badges content badge_info) i = Some b1 ->
  nth_error (extract_individual_badges content badge_info) j = Some b2 ->
  tier_rank (quality b1) <= tier_rank (quality b2).
Proof.
  intros Ha Hh Hg Hs Hz Hij H1 H2.
  rewrite extract_individual_badges_eq, badge_loop_nth, Z.add_0_l in H1, H2.
  destruct (Z.of_nat i <? total_badges badge_info)%Z; [|discriminate].
  destruct (Z.of_nat j <? total_badges badge_info)%Z; [|discriminate].
  destruct (nth_error (badge_matches_of content) i); [|discriminate].
  destruct (nth_error (badge_matches_of content) j); [|discriminate].
  inversion H1; subst b1. inversion H2; subst b2. clear H1 H2.
  cbn [quality badge_of]. unfold quality_at.
  apply Nat2Z.inj_le in Hij.
  repeat match goal with
         | |- context [(?x <? ?y)%Z] =>
             let E := fresh "E" in
             destruct (x <? y)%Z eqn:E;
             [apply Z.ltb_lt in E | apply Z.ltb_ge in E]
         end;
    try lia; vm_compute; lia.
Qed.

Lemma badge_tiers_never_rise_witness :
  map quality (extract_individual_badges doc_two_badges counts_one_hof_one_gold)
  = [str "Hall of Fame"; str "Gold"] /\
  tier_rank (str "Hall of Fame") <= tier_rank (str "Gold").
Proof.
  split; [vm_compute; reflexivity|].
  refine (badge_tiers_never_rise doc_two_badges counts_one_hof_one_gold 0 1
            {| badge_name := str "Deadeye"; quality := str "Hall of Fame";
               category := str "Outside Scoring";
               description := str "Shoots well under pressure" |}
            {| badge_name := str "Limitless"; quality := str "Gold";
               category := str "Outside Scoring";
               description := str "Deep range" |} _ _ _ _ _ _ _ _);
    try (vm_compute; discriminate); try lia; vm_compute; reflexivity.
Defined.

(** ** The outcome of a search *)

Lemma try_patterns_cases (scrape_url : text -> option text) (patterns : list text) :
  (forall u, In u patterns -> no_record scrape_url u) \/
  exists before u rest c p,
    patterns = before ++ u :: rest /\
    (forall v, In v before -> no_record scrape_url v) /\
    scrape_url u = Some c /\ c <> [] /\ parse_player_page c u = Some p.
Proof.
  induction patterns as [|u rest IH].
  - left. intros u [].
  - assert (Hskip : no_record scrape_url u ->
              (forall v, In v (u :: rest) -> no_record scrape_url v) \/
              exists before v rest' c p,
                u :: rest = before ++ v :: rest' /\
                (forall w, In w before -> no_record scrape_url w) /\
                scrape_url v = Some c /\ c <> [] /\
                parse_player_page c v = Some p).
    { intros Hu.
      destruct IH as [IH|(before & v & rest' & c & p & -> & Hb & Hv & Hc & Hp)].
      - left. intros w [<-|Hw]; auto.
      - right. exists (u :: before), v, rest', c, p. repeat split; auto.
        intros w [<-|Hw]; auto. }
    destruct (scrape_url u) as [[|c0 c]|] eqn:E.
    + apply Hskip. left. now right.
    + destruct (parse_player_page (c0 :: c) u) as [p|] eqn:Ep.
      * right. exists [], u, rest, (c0 :: c), p. repeat split; auto.
        -- intros v [].
        -- discriminate.
      * apply Hskip. right. exists (c0 :: c). auto.
    + apply Hskip. left. now left.
Qed.

Lemma fetched_failed_attempts (urls : list text) (trace : list event) :
  fetched (failed_attempts urls ++ trace) = urls ++ fetched trace /\
  pauses (failed_attempts urls ++ trace) = length urls + pauses trace.
Proof.
  induction urls as [|u urls [IH1 IH2]]; [split; reflexivity|].
  change (failed_attempts (u :: urls) ++ trace)
    with (Fetch u :: Sleep 1 :: (failed_attempts urls ++ trace)).
  cbn [fetched pauses length]. rewrite IH1, IH2. split; reflexivity.
Qed.

(** A document whose rating cannot be converted gives no record. *)
Lemma parse_player_page_no_rating (html_content u : text) (e : exn) :
  overall_rating_of html_content = Exc e ->
  parse_player_page html_content u = None.
Proof.
  intros H. unfold parse_player_page, parse_player_page_body.
  destruct (player_name_of_total html_content) as (n & ->).
  cbn [bind]. rewrite H. reflexivity.
Qed.

Lemma long_rating_gives_no_record (u : text) :
  parse_player_page doc_long_rating u = None.
Proof.
  apply (parse_player_page_no_rating _ _ ValueError). vm_compute. reflexivity.
Qed.

(** X10. A search returns no record exactly when every candidate gave no
    record: its request failed, gave an empty document, or gave a document
    from which [parse_player_page] builds none.  Otherwise it returns one
    record, that of the first candidate whose document gives a record.  In
    both cases the requests made are the first candidates in order, one
    pause of a second follows each request that gave no record, and no
    request follows the one that gave the record.  A candidate with a
    non-empty document in which no run of digits is longer than 4300 always
    makes the search return a record. *)
Theorem search_outcome (scrape_url : text -> option text) (player_name : text) :
  let players := fst (search_player scrape_url player_name) in
  let trace := snd (search_player scrape_url player_name) in
  (players = [] <->
   forall u, In u (url_patterns player_name) -> no_record scrape_url u) /\
  length players <= 1 /\
  (forall p,
     In p players ->
     exists before rest c,
       url_patterns player_name = before ++ url p :: rest /\
       (forall v, In v before -> no_record scrape_url v) /\
       scrape_url (url p) = Some c /\ c <> [] /\
       parse_player_page c (url p) = Some p /\
       fetched trace = before ++ [url p] /\
       pauses trace = length before) /\
  (players = [] ->
   fetched trace = url_patterns player_name /\ pauses trace = 3) /\
  (forall u c,
     In u (url_patterns player_name) ->
     scrape_url u = Some c -> c <> [] -> short_numbers c ->
     players <> []).
Proof.
  intros players trace. unfold players, trace, search_player.
  assert (Hshort : forall u c,
            In u (url_patterns player_name) ->
            scrape_url u = Some c -> c <> [] -> short_numbers c ->
            ~ (forall v, In v (url_patterns player_name) ->
                         no_record scrape_url v)).
  { intros u c Hin Hu Hc Hs Hall.
    destruct (Hall u Hin) as [[H|H]|(c' & Hc' & Hnone)].
    - congruence.
    - rewrite Hu in H. inversion H. contradiction.
    - rewrite Hu in Hc'. inversion Hc'; subst c'.
      exact (proj2 (parse_player_page_None _ _ Hnone) Hs). }
  destruct (try_patterns_cases scrape_url (url_patterns player_name))
    as [Hall|(before & u & rest & c & p & Hp & Hb & Hu & Hc & Hpd)].
  - rewrite (try_patterns_all_fail scrape_url _ Hall). cbn [fst snd].
    split; [tauto|]. split; [cbn; lia|]. split; [intros p []|]. split.
    + intros _.
      destruct (fetched_failed_attempts (url_patterns player_name) []) as [H1 H2].
      rewrite !app_nil_r in *. rewrite H1, H2. split; reflexivity.
    + intros v c Hin Hv Hc Hs. exfalso. exact (Hshort v c Hin Hv Hc Hs Hall).
  - rewrite Hp in *.
    rewrite (try_patterns_first_record scrape_url before u rest c p Hb Hu Hc Hpd).
    pose proof (parse_player_page_url _ _ _ Hpd) as Hurl.
    cbn [fst snd].
    split; [|split; [cbn; lia|split; [|split]]].
    + split; [discriminate|]. intros Hall. exfalso.
      destruct (Hall u) as [[H|H]|(c' & Hc' & Hnone)].
      * apply in_or_app. right. now left.
      * congruence.
      * rewrite Hu in H. inversion H. contradiction.
      * rewrite Hu in Hc'. inversion Hc'; subst c'. congruence.
    + intros q [<-|[]]. rewrite Hurl. exists before, rest, c.
      destruct (fetched_failed_attempts before [Fetch u]) as [H1 H2].
      rewrite H1, H2. cbn. repeat split; auto.
    + discriminate.
    + intros; discriminate.
Qed.

Lemma search_outcome_witness :
  fst (search_player (fun _ => Some doc_long_rating) (str "Stephen Curry")) = [] /\
  fetched (snd (search_player (fun _ => Some doc_long_rating)
                  (str "Stephen Curry")))
  = url_patterns (str "Stephen Curry").
Proof.
  pose proof (search_outcome (fun _ => Some doc_long_rating)
                (str "Stephen Curry")) as H.
  cbv zeta in H. destruct H as (H1 & _ & _ & H4 & _).
  assert (E : fst (search_player (fun _ => Some doc_long_rating)
                     (str "Stephen Curry")) = []).
  { apply H1. intros u _. right. exists doc_long_rating.
    split; [reflexivity | apply long_rating_gives_no_record]. }
  split; [exact E|]. exact (proj1 (H4 E)).
Defined.

(** ** The URL name *)

Lemma skipn_succ_of_start (a : ascii) (s : text) (i : nat) :
  starts_with [a] (skipn i s) = true -> skipn i s = a :: skipn (i + 1) s.
Proof.
  intros H. rewrite (starts_with_split _ _ H) at 1. cbn [app length].
  rewrite skipn_skipn. now rewrite (Nat.add_comm 1 i).
Qed.

(** Replacing one character by another rewrites the text place by place. *)
Lemma replace_char_map (a b : ascii) :
  forall gas s,
    length s <= gas ->
    replace_gas gas [a] [b] s = map (fun c => if Ascii.eqb c a then b else c) s.
Proof.
  assert (Hid : forall s, ~ In a s ->
            map (fun c => if Ascii.eqb c a then b else c) s = s).
  { intros s Hn. rewrite <- (map_id s) at 2. apply map_ext_in.
    intros c Hc. destruct (Ascii.eqb c a) eqn:E; [|reflexivity].
    apply Ascii.eqb_eq in E. subst. contradiction. }
  induction gas as [|gas IH]; intros s Hlen; cbn [replace_gas].
  - destruct s; [reflexivity | cbn in Hlen; lia].
  - pose proof (find_from_char a s 0) as Hc. fold (find [a] s) in Hc.
    pose proof (find_from_first [a] s 0) as Hf. fold (find [a] s) in Hf.
    destruct (find [a] s) as [i|]; [|now rewrite Hid].
    destruct Hc as (_ & Hn & Hl). destruct Hf as (_ & _ & Hs & _).
    rewrite Nat.sub_0_r in *.
    rewrite <- (firstn_skipn i s) at 3.
    rewrite map_app, (Hid _ Hn), (skipn_succ_of_start _ _ _ Hs).
    cbn [map length]. rewrite Ascii.eqb_refl.
    rewrite IH by (rewrite length_skipn; lia). reflexivity.
Qed.

Lemma lower_char_not_upper (c : ascii) : is_upper_ascii (lower_char c) = false.
Proof. destruct c as [[] [] [] [] [] [] [] []]; vm_compute; reflexivity. Qed.

Lemma slug_char_idempotent (c : ascii) : slug_char (slug_char c) = slug_char c.
Proof. destruct c as [[] [] [] [] [] [] [] []]; vm_compute; reflexivity. Qed.

Lemma slug_char_lower (c : ascii) : slug_char (lower_char c) = slug_char c.
Proof. destruct c as [[] [] [] [] [] [] [] []]; vm_compute; reflexivity. Qed.

Lemma slug_char_plain (c : ascii) :
  slug_char c <> " "%char /\ is_upper_ascii (slug_char c) = false.
Proof.
  destruct c as [[] [] [] [] [] [] [] []]; vm_compute; split;
    (reflexivity || discriminate).
Qed.

Lemma url_name_of_map (player_name : text) :
  url_name_of player_name = map slug_char player_name.
Proof.
  unfold url_name_of, replace, lower.
  rewrite (replace_char_map " " "-" _ _ (le_n _)), map_map. reflexivity.
Qed.

(** X11. For a player name of characters up to U+00FF: the URL name holds
    no space and no ASCII capital, and is its own URL name; a name, its
    lower-case form and its URL name have the same three candidates. *)
Theorem url_name_is_plain (player_name : text) :
  ~ In " "%char (url_name_of player_name) /\
  Forall (fun c => is_upper_ascii c = false) (url_name_of player_name) /\
  url_name_of (url_name_of player_name) = url_name_of player_name /\
  url_patterns (lower player_name) = url_patterns player_name /\
  url_patterns (url_name_of player_name) = url_patterns player_name.
Proof.
  assert (Hidem : url_name_of (url_name_of player_name) = url_name_of player_name).
  { rewrite !url_name_of_map, map_map. apply map_ext, slug_char_idempotent. }
  assert (Hlow : url_name_of (lower player_name) = url_name_of player_name).
  { rewrite !url_name_of_map. unfold lower. rewrite map_map.
    apply map_ext, slug_char_lower. }
  split; [|split; [|split; [|split]]].
  - rewrite url_name_of_map. intros H. apply in_map_iff in H.
    destruct H as (c & Hc & _). exact (proj1 (slug_char_plain c) Hc).
  - rewrite url_name_of_map. apply Forall_forall. intros x H.
    apply in_map_iff in H. destruct H as (c & <- & _).
    exact (proj2 (slug_char_plain c)).
  - exact Hidem.
  - unfold url_patterns. now rewrite Hlow.
  - unfold url_patterns. now rewrite Hidem.
Qed.

(** ** The record of a page *)

Lemma firstn_of_firstn_app (n : nat) (l t : text) :
  n <= length l -> firstn n (firstn n l ++ t) = firstn n l.
Proof.
  intros H. rewrite firstn_app, length_firstn.
  replace (n - Nat.min n (length l)) with 0 by lia.
  rewrite firstn_O, app_nil_r, firstn_firstn, Nat.min_id. reflexivity.
Qed.

(** X12. A document in which no run of digits is longer than 4300 gives a
    record, whatever it holds: no index or group access of the extraction
    fails.  No record is given only when [int] raises [ValueError] on a
    number of more than 4300 digits.  A record carries the URL it was
    given, and as raw content the document itself when it has at most 1000
    characters, else its first 1000 characters followed by three dots. *)
Theorem page_gives_record (html_content u : text) :
  (short_numbers html_content ->
   exists p, parse_player_page html_content u = Some p) /\
  (parse_player_page html_content u = None ->
   parse_player_page_body html_content u = Exc ValueError /\
   ~ short_numbers html_content) /\
  (forall p,
     parse_player_page html_content u = Some p ->
     url p = u /\
     length (raw_content p) <= 1003 /\
     firstn 1000 (raw_content p) = firstn 1000 html_content /\
     (length html_content <= 1000 -> raw_content p = html_content) /\
     (1000 < length html_content ->
      raw_content p = firstn 1000 html_content ++ str "...")).
Proof.
  split; [|split].
  - intros Hshort.
    destruct (parse_player_page_short html_content u Hshort) as (p & Hp & _).
    eauto.
  - apply parse_player_page_None.
  - intros p Hp.
    destruct (parse_player_page_fields _ _ _ Hp)
      as (_ & _ & _ & _ & _ & Hu & Hr).
    split; [exact Hu|].
    rewrite Hr. destruct (1000 <? length html_content) eqn:E.
    + apply Nat.ltb_lt in E. repeat split.
      * rewrite length_app, length_firstn.
        change (length (str "...")) with 3. lia.
      * apply firstn_of_firstn_app. lia.
      * intros H. lia.
    + apply Nat.ltb_ge in E. repeat split; try lia.
Qed.

Lemma page_gives_record_witness :
  (exists p,
     parse_player_page doc_hello (str "https://www.2kratings.com/x") = Some p /\
     raw_content p = doc_hello) /\
  parse_player_page doc_long_rating (str "https://www.2kratings.com/x") = None /\
  ~ short_numbers doc_long_rating.
Proof.
  destruct (page_gives_record doc_hello (str "https://www.2kratings.com/x"))
    as (Hret & _ & Hrec).
  destruct (page_gives_record doc_long_rating (str "https://www.2kratings.com/x"))
    as (_ & Hnone & _).
  split; [|split].
  - destruct Hret as (p & Hp); [vm_compute; discriminate|].
    exists p. split; [exact Hp|].
    destruct (Hrec p Hp) as (_ & _ & _ & Hshort & _).
    apply Hshort. vm_compute. lia.
  - apply long_rating_gives_no_record.
  - exact (proj2 (Hnone (long_rating_gives_no_record _))).
Defined.

(** ** A local file *)

(** X13. [test_with_local_file] returns no record exactly when the file
    cannot be read, is empty, or holds a document from which
    [parse_player_page] builds none; a non-empty document in which no run
    of digits is longer than 4300 always gives one.  The record returned
    has as URL "file://" followed by the path, and its other fields are
    those of the record any search builds from the same document. *)
Theorem local_file_gives_the_same_record (read_local_file : text -> option text)
    (file_path : text) :
  (test_with_local_file read_local_file file_path = [] <->
   read_local_file file_path = None \/ read_local_file file_path = Some [] \/
   exists html_content,
     read_local_file file_path = Some html_content /\
     parse_player_page html_content (str "file://" ++ file_path) = None) /\
  (forall html_content,
     read_local_file file_path = Some html_content -> html_content <> [] ->
     (short_numbers html_content ->
      test_with_local_file read_local_file file_path <> []) /\
     forall p,
       parse_player_page html_content (str "file://" ++ file_path) = Some p ->
       test_with_local_file read_local_file file_path = [p] /\
       url p = str "file://" ++ file_path /\
       forall u q,
         parse_player_page html_content u = Some q ->
         name q = name p /\ overall_rating q = overall_rating p /\
         badge_info q = badge_info p /\ attributes q = attributes p /\
         player_details q = player_details p /\
         raw_content q = raw_content p).
Proof.
  unfold test_with_local_file. split.
  - destruct (read_local_file file_path) as [[|c0 c]|] eqn:E.
    + split; auto.
    + destruct (parse_player_page (c0 :: c) (str "file://" ++ file_path))
        as [p|] eqn:Ep.
      * split; [discriminate|].
        intros [H|[H|(h & Hh & Hn)]]; try discriminate.
        inversion Hh; subst h. congruence.
      * split; [|reflexivity]. intros _. right. right. eauto.
    + split; auto.
  - intros html_content E Hne. rewrite E.
    destruct html_content as [|c0 c]; [contradiction|]. split.
    + intros Hshort.
      destruct (parse_player_page_short (c0 :: c) (str "file://" ++ file_path)
                  Hshort) as (p & -> & _). discriminate.
    + intros p Hp. rewrite Hp. split; [reflexivity|].
      split; [exact (parse_player_page_url _ _ _ Hp)|].
      intros u q Hq.
      destruct (parse_player_page_fields _ _ _ Hp)
        as (A1 & A2 & A3 & A4 & A5 & _ & A7).
      destruct (parse_player_page_fields _ _ _ Hq)
        as (B1 & B2 & B3 & B4 & B5 & _ & B7).
      rewrite A1 in B1. rewrite A2 in B2. rewrite A3 in B3. rewrite A4 in B4.
      rewrite A5 in B5. rewrite <- A7 in B7.
      inversion B1. inversion B2. inversion B3. inversion B4. inversion B5.
      repeat split; congruence.
Qed.

Lemma local_file_gives_the_same_record_witness :
  exists p,
    test_with_local_file (fun _ => Some doc_page) (str "jokic.md") = [p] /\
    url p = str "file://jokic.md".
Proof.
  destruct (proj2 (local_file_gives_the_same_record (fun _ => Some doc_page)
                     (str "jokic.md")) doc_page eq_refl)
    as (_ & Hrec).
  - vm_compute. discriminate.
  - destruct (parse_player_page doc_page (str "file://" ++ str "jokic.md"))
      as [p|] eqn:Ep; [|vm_compute in Ep; discriminate Ep].
    exists p. destruct (Hrec p eq_refl) as (H1 & H2 & _).
    split; [exact H1 | exact H2].
Defined.

(** ** Numbers after a label *)

Lemma m_Lit (A : Type) (l s : text) (g : caps) (k : text -> caps -> option A) :
  m A (Lit l) s g k
  = if starts_with l s then k (skipn (length l) s) g else None.
Proof.
  revert s. induction l as [|a l IH]; intros s; cbn [Lit m starts_with length skipn].
  - reflexivity.
  - destruct s as [|b s]; [reflexivity|].
    rewrite Ascii.eqb_sym. destruct (Ascii.eqb a b); cbn [andb]; [apply IH | reflexivity].
Qed.

Lemma starts_with_app (a b s : text) :
  starts_with (a ++ b) s
  = starts_with a s && starts_with b (skipn (length a) s).
Proof.
  revert s. induction a as [|x a IH]; intros s; cbn [app starts_with length skipn].
  - reflexivity.
  - destruct s as [|y s]; [reflexivity|]. rewrite IH. apply andb_assoc.
Qed.

Lemma leading_digits_all (s : text) :
  Forall (fun c => is_digit c = true) (leading_digits s).
Proof.
  induction s as [|c s IH]; cbn [leading_digits]; [constructor|].
  destruct (is_digit c) eqn:E; constructor; assumption.
Qed.

Lemma leading_digits_split (s : text) :
  exists rest,
    s = leading_digits s ++ rest /\
    (rest = [] \/ exists c t, rest = c :: t /\ is_digit c = false).
Proof.
  induction s as [|c s (rest & IH & Hrest)]; cbn [leading_digits].
  - exists []. auto.
  - destruct (is_digit c) eqn:E.
    + exists rest. cbn [app]. rewrite <- IH. auto.
    + exists (c :: s). split; [reflexivity|]. right. eauto.
Qed.

(** A run of digits in a group, followed by no digit, is taken whole. *)
Lemma m_group_digits (A : Type) (n : nat) (d rest : text) (g : caps)
    (k : text -> caps -> option A) :
  digit_string d ->
  (rest = [] \/ exists c t, rest = c :: t /\ is_digit c = false) ->
  k rest ((n, d) :: g) <> None ->
  m A (Grp n (Plus digit)) (d ++ rest) g k = k rest ((n, d) :: g).
Proof.
  intros [Hne Hd] Hrest Hk. destruct d as [|c d]; [contradiction|].
  inversion Hd as [|? ? Hc Hd']; subst.
  destruct (k rest ((n, c :: d) :: g)) as [x|] eqn:Ek; [|contradiction].
  unfold Plus, digit. cbn [m app]. rewrite Hc.
  transitivity (Some x); [|symmetry; exact Ek].
  apply (star_loop_cls_greedy A is_digit); auto.
  - replace (length (c :: d ++ rest) - length rest) with (length (c :: d))
      by (cbn [length]; rewrite length_app; lia).
    change (c :: d ++ rest) with ((c :: d) ++ rest).
    rewrite firstn_app, Nat.sub_diag, firstn_all. cbn [firstn].
    rewrite app_nil_r. exact Ek.
  - rewrite length_app. lia.
Qed.

(** Without a digit at the front the group of digits does not match. *)
Lemma m_group_no_digit (A : Type) (n : nat) (s : text) (g : caps)
    (k : text -> caps -> option A) :
  leading_digits s = [] -> m A (Grp n (Plus digit)) s g k = None.
Proof.
  intros H. unfold Plus, digit. cbn [m]. destruct s as [|c s]; [reflexivity|].
  cbn [leading_digits] in H. destruct (is_digit c); [discriminate | reflexivity].
Qed.

Lemma skipn_length_app (l r : text) : skipn (length l) (l ++ r) = r.
Proof. induction l; cbn; auto. Qed.

(** The group of digits at the front of a text, in terms of
    [leading_digits]. *)
Lemma m_group_leading (A : Type) (s : text) (g : caps)
    (k : text -> caps -> option A) :
  (forall s' g', k s' g' <> None) ->
  match leading_digits s with
  | [] => m A (Grp 1 (Plus digit)) s g k = None
  | d => exists x, m A (Grp 1 (Plus digit)) s g k = Some x /\
                   k (skipn (length d) s) ((1, d) :: g) = Some x
  end.
Proof.
  intros Hk. destruct (leading_digits s) as [|c d] eqn:E.
  - now apply m_group_no_digit.
  - destruct (leading_digits_split s) as (rest & Hs & Hrest). rewrite E in Hs.
    assert (Hd : digit_string (c :: d)).
    { split; [discriminate|]. rewrite <- E. apply leading_digits_all. }
    clear E. subst s.
    rewrite (m_group_digits A 1 (c :: d) rest g k Hd Hrest (Hk _ _)).
    cbv zeta. rewrite (skipn_length_app (c :: d) rest).
    destruct (k rest ((1, c :: d) :: g)) as [x|] eqn:Ek; [eauto|].
    now apply Hk in Ek.
Qed.

Lemma space_is_no_digit (c : ascii) : is_space c = true -> is_digit c = false.
Proof. destruct c as [[] [] [] [] [] [] [] []]; vm_compute; congruence. Qed.

(** White space before a group of digits is skipped whole. *)
Lemma star_space_then_digits (A : Type)
    (body : text -> caps -> (text -> caps -> option A) -> option A)
    (k : text -> caps -> option A) :
  (forall s g' k', body s g' k' = m A (Cls is_space) s g' k') ->
  (forall c t g, is_space c = true -> k (c :: t) g = None) ->
  forall s n g,
    length s <= n ->
    star_loop true body k n s g = k (lstrip s) g.
Proof.
  intros Hbody Hk. induction s as [|c s IH]; intros n g Hn.
  - destruct n as [|n]; [reflexivity|]. rewrite star_loop_S. cbv zeta.
    rewrite Hbody. reflexivity.
  - destruct n as [|n]; [cbn in Hn; lia|].
    rewrite star_loop_S. cbv zeta. rewrite Hbody. cbn [m lstrip].
    destruct (is_space c) eqn:Ec; [|reflexivity].
    replace (length s <? length (c :: s)) with true
      by (symmetry; apply Nat.ltb_lt; cbn [length]; lia).
    rewrite (IH n g) by (cbn in Hn; lia). rewrite (Hk c s g Ec).
    now destruct (k (lstrip s) g).
Qed.

Lemma number_here_digits (skip_ws : bool) (label s d : text) :
  number_here skip_ws label s = Some d -> digit_string d.
Proof.
  unfold number_here. destruct (starts_with label s); [|discriminate].
  cbv zeta.
  pose proof (leading_digits_all
                (if skip_ws then lstrip (skipn (length label) s)
                 else skipn (length label) s)) as Hall.
  destruct (leading_digits _) as [|c t]; [discriminate|].
  intros H. inversion H; subst. split; [discriminate | exact Hall].
Qed.

Lemma number_after_digits (skip_ws : bool) (label s d : text) :
  number_after skip_ws label s = Some d -> digit_string d.
Proof.
  induction s as [|c s IH]; cbn [number_after].
  - destruct (number_here skip_ws label []) eqn:E; [|discriminate].
    intros H. inversion H; subst. eapply number_here_digits, E.
  - destruct (number_here skip_ws label (c :: s)) eqn:E; [|exact IH].
    intros H. inversion H; subst. eapply number_here_digits, E.
Qed.

(** What a search finds when each attempt reads the number at its place. *)
Lemma search_from_number (skip_ws : bool) (label : text) (r : regex) :
  (forall pos s,
     match number_here skip_ws label s with
     | Some d => exists mt, match_here r pos s = Some mt /\
                            cap_get (m_groups mt) 1 = Some d
     | None => match_here r pos s = None
     end) ->
  forall s pos,
    match number_after skip_ws label s with
    | Some d => exists mt, search_from r pos s = Some mt /\
                           cap_get (m_groups mt) 1 = Some d
    | None => search_from r pos s = None
    end.
Proof.
  intros Hhere. induction s as [|c s IH]; intros pos;
    cbn [search_from number_after].
  - specialize (Hhere pos []). destruct (number_here skip_ws label []).
    + destruct Hhere as (mt & -> & Hg). eauto.
    + now rewrite Hhere.
  - specialize (Hhere pos (c :: s)). destruct (number_here skip_ws label (c :: s)).
    + destruct Hhere as (mt & -> & Hg). eauto.
    + rewrite Hhere. apply IH.
Qed.

Lemma m_Seq (A : Type) (r1 r2 : regex) (s : text) (g : caps)
    (k : text -> caps -> option A) :
  m A (Seq r1 r2) s g k = m A r1 s g (fun s' g' => m A r2 s' g' k).
Proof. reflexivity. Qed.

Lemma m_Star (A : Type) (r1 : regex) (s : text) (g : caps)
    (k : text -> caps -> option A) :
  m A (Star r1) s g k = star_loop true (m A r1) k (length s) s g.
Proof. reflexivity. Qed.

(** The group of digits at the front, handed to the end of a match. *)
Lemma group_then_end (pos len : nat) (s : text) :
  match leading_digits s with
  | [] =>
      m rmatch (Grp 1 (Plus digit)) s []
        (fun s2 g2 =>
           m rmatch Eps s2 g2
             (fun s' g' => Some {| m_start := pos;
                                   m_end := pos + (len - length s');
                                   m_groups := g' |})) = None
  | d =>
      exists mt,
        m rmatch (Grp 1 (Plus digit)) s []
          (fun s2 g2 =>
             m rmatch Eps s2 g2
               (fun s' g' => Some {| m_start := pos;
                                     m_end := pos + (len - length s');
                                     m_groups := g' |})) = Some mt /\
        cap_get (m_groups mt) 1 = Some d
  end.
Proof.
  pose proof (m_group_leading rmatch s []
                (fun s2 g2 =>
                   m rmatch Eps s2 g2
                     (fun s' g' => Some {| m_start := pos;
                                           m_end := pos + (len - length s');
                                           m_groups := g' |}))) as H.
  destruct (leading_digits s) as [|c d].
  - apply H. intros s' g'. cbn [m]. discriminate.
  - destruct H as (x & Hx & Hk); [intros s' g'; cbn [m]; discriminate|].
    exists x. split; [exact Hx|]. cbn [m] in Hk. inversion Hk. reflexivity.
Qed.

Lemma rating_pattern_here (pos : nat) (s : text) :
  match number_here false (str "Overall 2K Rating of ") s with
  | Some d => exists mt, match_here rating_pattern pos s = Some mt /\
                         cap_get (m_groups mt) 1 = Some d
  | None => match_here rating_pattern pos s = None
  end.
Proof.
  unfold number_here, match_here, rating_pattern. cbn [Cat].
  rewrite m_Seq, m_Lit.
  destruct (starts_with (str "Overall 2K Rating of ") s); [|reflexivity].
  cbv zeta. rewrite m_Seq.
  pose proof (group_then_end pos (length s)
                (skipn (length (str "Overall 2K Rating of ")) s)) as H.
  destruct (leading_digits _) as [|c d]; exact H.
Qed.

Lemma tier_pattern_here (tier : string) (pos : nat) (s : text) :
  match number_here true (str tier ++ str "-sum.png)") s with
  | Some d => exists mt, match_here (tier_pattern tier) pos s = Some mt /\
                         cap_get (m_groups mt) 1 = Some d
  | None => match_here (tier_pattern tier) pos s = None
  end.
Proof.
  unfold number_here, match_here, tier_pattern. cbn [Cat].
  rewrite m_Seq, m_Lit, starts_with_app.
  destruct (starts_with (str tier) s); [|reflexivity]. cbn [andb].
  rewrite m_Seq, m_Lit.
  destruct (starts_with (str "-sum.png)") (skipn (length (str tier)) s));
    [|reflexivity].
  cbv zeta. rewrite m_Seq, m_Star, skipn_skipn, length_app.
  rewrite (Nat.add_comm (length (str "-sum.png)"))).
  set (t := skipn (length (str tier) + length (str "-sum.png)")) s).
  rewrite (star_space_then_digits rmatch (m rmatch space)); [| | |apply le_n].
  - rewrite m_Seq.
    pose proof (group_then_end pos (length s) (lstrip t)) as H.
    destruct (leading_digits (lstrip t)) as [|c d]; exact H.
  - reflexivity.
  - intros c u g Hc. rewrite m_Seq. apply m_group_no_digit.
    cbn [leading_digits]. now rewrite (space_is_no_digit c Hc).
Qed.

Lemma number_after_place (skip_ws : bool) (label s d : text) :
  number_after skip_ws label s = Some d ->
  exists j, starts_with label (skipn j s) = true.
Proof.
  induction s as [|c s IH]; cbn [number_after]; intros H.
  - unfold number_here in H. destruct (starts_with label []) eqn:E;
      [exists 0; exact E | discriminate].
  - unfold number_here in H at 1. destruct (starts_with label (c :: s)) eqn:E.
    + exists 0. exact E.
    + destruct (IH H) as [j Hj]. exists (S j). exact Hj.
Qed.

(** X14. The overall rating is the number made of the digits that follow
    the first "Overall 2K Rating of " directly followed by a digit: places
    where the phrase is followed by something else are passed over, and
    without such a place there is no rating.  A run of at most 4300 digits
    gives the rating; a longer one makes the conversion raise. *)
Theorem overall_rating_is_first_number_after_phrase (html_content : text) :
  match number_after false (str "Overall 2K Rating of ") html_content with
  | Some d =>
      overall_rating_of html_content = (n <- int d ;; Ret (Some n)) /\
      ((Z.of_nat (length d) <= max_str_digits)%Z ->
       exists n, int d = Ret n /\
                 overall_rating_of html_content = Ret (Some n)) /\
      ((max_str_digits < Z.of_nat (length d))%Z ->
       overall_rating_of html_content = Exc ValueError)
  | None => overall_rating_of html_content = Ret None
  end.
Proof.
  pose proof (search_from_number false _ rating_pattern rating_pattern_here
                html_content 0) as H.
  fold (search rating_pattern html_content) in H.
  destruct (number_after false (str "Overall 2K Rating of ") html_content)
    as [d|] eqn:E.
  - destruct H as (mt & Hmt & Hg).
    assert (Hc : contains (str "Overall 2K Rating of") html_content = true).
    { destruct (number_after_place _ _ _ _ E) as [j Hj].
      change (str "Overall 2K Rating of ")
        with (str "Overall 2K Rating of" ++ str " ") in Hj.
      rewrite starts_with_app in Hj. apply andb_true_iff in Hj.
      destruct Hj as [Hj _]. unfold contains.
      pose proof (find_from_first (str "Overall 2K Rating of") html_content 0) as Hf.
      fold (find (str "Overall 2K Rating of") html_content) in Hf.
      destruct (find (str "Overall 2K Rating of") html_content); [reflexivity|].
      rewrite Hf in Hj. discriminate. }
    assert (Heq : overall_rating_of html_content = (n <- int d ;; Ret (Some n))).
    { unfold overall_rating_of. rewrite Hc, Hmt. unfold int_of_group.
      now rewrite Hg. }
    split; [exact Heq|]. rewrite Heq. split.
    + intros Hlen.
      destruct (int_digit_string d (number_after_digits _ _ _ _ E) Hlen)
        as (n & Hn & _).
      exists n. rewrite Hn. split; reflexivity.
    + intros Hlen. now rewrite (int_too_long d Hlen).
  - unfold overall_rating_of. rewrite H. now destruct (contains _ html_content).
Qed.

Lemma overall_rating_is_first_number_after_phrase_witness :
  number_after false (str "Overall 2K Rating of ") doc_rating_second_phrase
  = Some (str "97") /\
  overall_rating_of doc_rating_second_phrase = Ret (Some 97%Z).
Proof.
  assert (E : number_after false (str "Overall 2K Rating of ")
                doc_rating_second_phrase = Some (str "97"))
    by (vm_compute; reflexivity).
  split; [exact E|].
  pose proof (overall_rating_is_first_number_after_phrase
                doc_rating_second_phrase) as H.
  rewrite E in H. destruct H as (_ & H & _).
  destruct H as (n & Hn & ->); [vm_compute; discriminate|].
  vm_compute in Hn. inversion Hn. reflexivity.
Defined.

(** The search for the image of a tier reads what [count_after_image]
    reads. *)
Lemma tier_count_after_image (tier : string) (content : text) :
  tier_count tier content = count_after_image tier content.
Proof.
  pose proof (search_from_number true _ (tier_pattern tier)
                (tier_pattern_here tier) content 0) as H.
  fold (search (tier_pattern tier) content) in H.
  unfold tier_count, count_after_image.
  destruct (number_after true (str tier ++ str "-sum.png)") content) as [d|].
  - destruct H as (mt & -> & Hg). unfold int_of_group. now rewrite Hg.
  - now rewrite H.
Qed.

(** X15. A tier count is the number made of the digits found after the
    first "<tier>-sum.png)" that is followed, past any white space and line
    breaks, by a digit; without such a place the count is 0.  A run of at
    most 4300 digits gives the count; a longer one makes the conversion
    raise. *)
Theorem tier_count_is_first_number_after_image (tier : string) (content : text) :
  match number_after true (str tier ++ str "-sum.png)") content with
  | Some d =>
      tier_count tier content = int d /\
      ((Z.of_nat (length d) <= max_str_digits)%Z ->
       exists n, tier_count tier content = Ret n /\ (0 <= n)%Z) /\
      ((max_str_digits < Z.of_nat (length d))%Z ->
       tier_count tier content = Exc ValueError)
  | None => tier_count tier content = Ret 0%Z
  end.
Proof.
  pose proof (tier_count_after_image tier content) as H.
  unfold count_after_image in H.
  destruct (number_after true (str tier ++ str "-sum.png)") content)
    as [d|] eqn:E; [|exact H].
  split; [exact H|]. rewrite H. split.
  - intros Hlen. exact (int_digit_string d (number_after_digits _ _ _ _ E) Hlen).
  - apply int_too_long.
Qed.

Lemma tier_count_is_first_number_after_image_witness :
  number_after true (str "gold" ++ str "-sum.png)") doc_gold_count_next_line
  = Some (str "12") /\
  tier_count "gold" doc_gold_count_next_line = Ret 12%Z.
Proof.
  assert (E : number_after true (str "gold" ++ str "-sum.png)")
                doc_gold_count_next_line = Some (str "12"))
    by (vm_compute; reflexivity).
  split; [exact E|].
  pose proof (tier_count_is_first_number_after_image "gold"
                doc_gold_count_next_line) as H.
  rewrite E in H. destruct H as (-> & _). vm_compute. reflexivity.
Defined.

(** ** Tier counts without a badges section *)

(** C7. Without the start marker of the badges section the list of
    individual badges of the summary that is returned is empty, and each of
    its five tier counts is still what the search for the tier's image
    finds in the document: the number after the first "<tier>-sum.png)"
    followed by a digit, 0 without such a place.  The summary is returned
    for every such document in which no run of digits is longer than
    4300. *)
Theorem no_badge_section_keeps_tier_counts (content : text) :
  find (str "[NBA 2K25 Badges]") content = None ->
  (short_numbers content ->
   exists badge_info,
     extract_badge_info_from_markdown content = Ret badge_info) /\
  (forall badge_info,
     extract_badge_info_from_markdown content = Ret badge_info ->
     individual_badges badge_info = [] /\
     count_after_image "legendary" content = Ret (legendary_badges badge_info) /\
     count_after_image "hof" content = Ret (hof_badges badge_info) /\
     count_after_image "gold" content = Ret (gold_badges badge_info) /\
     count_after_image "silver" content = Ret (silver_badges badge_info) /\
     count_after_image "bronze" content = Ret (bronze_badges badge_info)).
Proof.
  intros Hm. split.
  - intros Hshort.
    destruct (extract_badge_info_outcome content) as [H|[_ H]];
      [exact H | contradiction].
  - intros badge_info E.
    destruct (extract_badge_info_shape content badge_info E)
      as (l & h & g & s & b & d & Hl & Hh & Hg & Hs & Hb & _ & _ & E').
    rewrite E' in E. inversion E; subst badge_info; clear E.
    cbn [individual_badges legendary_badges hof_badges gold_badges
         silver_badges bronze_badges].
    rewrite <- !tier_count_after_image.
    repeat split; try assumption.
    unfold extract_individual_badges, badge_section_of. now rewrite Hm.
Qed.

Lemma no_badge_section_keeps_tier_counts_witness :
  exists badge_info,
    extract_badge_info_from_markdown doc_no_badge_section = Ret badge_info /\
    individual_badges badge_info = [] /\
    gold_badges badge_info = 3%Z /\
    silver_badges badge_info = 0%Z.
Proof.
  destruct (no_badge_section_keeps_tier_counts doc_no_badge_section)
    as [Hret Hcounts]; [vm_compute; reflexivity|].
  destruct Hret as (badge_info & E); [vm_compute; discriminate|].
  exists badge_info. split; [exact E|].
  destruct (Hcounts badge_info E) as (Hnone & _ & _ & Hg & Hs & _).
  split; [exact Hnone|]. split.
  - vm_compute in Hg. now inversion Hg.
  - vm_compute in Hs. now inversion Hs.
Defined.

(** ** Groups do not move a match *)

(** Mapping the result of the continuation maps the result of the match. *)
Lemma m_map (r : regex) :
  forall (A B : Type) (f : A -> B) (s : text) (g : caps)
         (k1 : text -> caps -> option A) (k2 : text -> caps -> option B),
    (forall s' g', k2 s' g' = option_map f (k1 s' g')) ->
    m B r s g k2 = option_map f (m A r s g k1).
Proof.
  induction r as [ | c | p | r1 IH1 r2 IH2 | r1 IH1 r2 IH2 | r1 IH1 | r1 IH1
                  | n r1 IH1 | r1 IH1 | ]; intros A B f s g k1 k2 H; cbn [m].
  - apply H.
  - destruct s as [|x s]; [reflexivity|]. destruct (Ascii.eqb x c); [apply H|reflexivity].
  - destruct s as [|x s]; [reflexivity|]. destruct (p x); [apply H|reflexivity].
  - apply IH1. intros s' g'. now apply IH2.
  - rewrite (IH1 A B f s g k1 k2 H), (IH2 A B f s g k1 k2 H).
    now destruct (m A r1 s g k1).
  - generalize (length s) at 1 2. intros n. revert s g.
    induction n as [|n IHn]; intros s g; [apply H|].
    rewrite !star_loop_S. cbv zeta.
    rewrite (IH1 A B f s g
               (fun s' g' => if length s' <? length s
                             then star_loop true (m A r1) k1 n s' g' else None)).
    + rewrite H. now destruct (m A r1 s g _).
    + intros s' g'. destruct (length s' <? length s); [apply IHn | reflexivity].
  - generalize (length s) at 1 2. intros n. revert s g.
    induction n as [|n IHn]; intros s g; [apply H|].
    rewrite !star_loop_S. cbv zeta.
    rewrite (IH1 A B f s g
               (fun s' g' => if length s' <? length s
                             then star_loop false (m A r1) k1 n s' g' else None)).
    + rewrite H. now destruct (k1 s g).
    + intros s' g'. destruct (length s' <? length s); [apply IHn | reflexivity].
  - apply IH1. intros s' g'. apply H.
  - destruct (m unit r1 s g _); [apply H | reflexivity].
  - destruct s as [|c [|? ?]]; try reflexivity; [apply H|].
    destruct (Ascii.eqb c LF); [apply H | reflexivity].
Qed.

(** When what follows does not look at the groups, neither does the match. *)
Lemma m_caps_free (r : regex) :
  forall (A : Type) (s : text) (g1 g2 : caps) (k : text -> caps -> option A),
    (forall s' h1 h2, k s' h1 = k s' h2) ->
    m A r s g1 k = m A r s g2 k.
Proof.
  induction r as [ | c | p | r1 IH1 r2 IH2 | r1 IH1 r2 IH2 | r1 IH1 | r1 IH1
                  | n r1 IH1 | r1 IH1 | ]; intros A s g1 g2 k H; cbn [m].
  - apply H.
  - destruct s as [|x s]; [reflexivity|]. destruct (Ascii.eqb x c); [apply H|reflexivity].
  - destruct s as [|x s]; [reflexivity|]. destruct (p x); [apply H|reflexivity].
  - apply IH1. intros s' h1 h2. now apply IH2.
  - now rewrite (IH1 A s g1 g2 k H), (IH2 A s g1 g2 k H).
  - generalize (length s) at 1 2. intros n. revert s g1 g2.
    induction n as [|n IHn]; intros s g1 g2; [apply H|].
    rewrite !star_loop_S. cbv zeta. rewrite (H s g1 g2).
    rewrite (IH1 A s g1 g2); [reflexivity|].
    intros s' h1 h2. destruct (length s' <? length s); [apply IHn | reflexivity].
  - generalize (length s) at 1 2. intros n. revert s g1 g2.
    induction n as [|n IHn]; intros s g1 g2; [apply H|].
    rewrite !star_loop_S. cbv zeta. rewrite (H s g1 g2).
    rewrite (IH1 A s g1 g2); [reflexivity|].
    intros s' h1 h2. destruct (length s' <? length s); [apply IHn | reflexivity].
  - apply IH1. intros s' h1 h2. apply H.
  - rewrite (IH1 unit s g1 g2) by reflexivity. rewrite (H s g1 g2). reflexivity.
  - destruct s as [|c [|? ?]]; try reflexivity; [apply H|].
    destruct (Ascii.eqb c LF); [apply H | reflexivity].
Qed.

Lemma m_Grp_free (A : Type) (n : nat) (r : regex) (s : text) (g : caps)
    (k : text -> caps -> option A) :
  (forall s' h1 h2, k s' h1 = k s' h2) ->
  m A (Grp n r) s g k = m A r s g k.
Proof.
  intros H. cbn [m]. apply m_rests_only. intros s' g' _. apply H.
Qed.

Lemma match_here_span (r : regex) (pos : nat) (s : text) :
  option_map span (match_here r pos s)
  = m (nat * nat) r s [] (fun s' _ => Some (pos, pos + (length s - length s'))).
Proof.
  unfold match_here. symmetry. apply m_map. reflexivity.
Qed.

Lemma heading_patterns_here (section : text) (pos : nat) (s : text) :
  option_map span (match_here (header_pattern section) pos s)
  = option_map span (match_here (section_pattern section) pos s).
Proof.
  rewrite !match_here_span. unfold header_pattern, section_pattern. cbn [Cat].
  rewrite !m_Seq. apply m_rests_only. intros s1 g1 _.
  rewrite !m_Seq. apply m_Grp_free.
  intros s' h1 h2. apply m_caps_free. reflexivity.
Qed.

Lemma heading_patterns_search (section : text) (s : text) :
  forall pos,
    option_map span (search_from (header_pattern section) pos s)
    = option_map span (search_from (section_pattern section) pos s).
Proof.
  induction s as [|c s IH]; intros pos; cbn [search_from];
    pose proof (heading_patterns_here section pos) as H.
  - specialize (H []).
    destruct (match_here (header_pattern section) pos []),
             (match_here (section_pattern section) pos []);
      cbn in *; congruence.
  - specialize (H (c :: s)).
    destruct (match_here (header_pattern section) pos (c :: s)),
             (match_here (section_pattern section) pos (c :: s));
      cbn in H |- *; try congruence. apply IH.
Qed.

(** X16. The heading that gives the rating of a category and the heading
    under which its sub-attributes are read are the same place of the
    document: the two searches succeed together, on the same span, and the
    sub-attributes are read from the text that follows the heading of the
    rating. *)
Theorem rating_and_sub_attributes_share_heading (content section : text) :
  option_map span (search (header_pattern section) content)
  = option_map span (search (section_pattern section) content) /\
  (forall heading,
     search (header_pattern section) content = Some heading ->
     extract_sub_attributes content section
     = sub_attr_loop
         (findall sub_attr_pattern (section_content_of content heading)) []) /\
  (search (header_pattern section) content = None ->
   extract_sub_attributes content section = Ret []).
Proof.
  pose proof (heading_patterns_search section content 0) as H.
  fold (search (header_pattern section) content) in H.
  fold (search (section_pattern section) content) in H.
  split; [exact H|]. unfold extract_sub_attributes. split.
  - intros heading E. rewrite E in H.
    destruct (search (section_pattern section) content) as [sm|]; [|discriminate].
    cbn in H. inversion H as [[Hs He]].
    unfold section_content_of. now rewrite He.
  - intros E. rewrite E in H.
    destruct (search (section_pattern section) content); [discriminate|reflexivity].
Qed.

Lemma rating_and_sub_attributes_share_heading_witness :
  option_map span (search (header_pattern (str "Athleticism")) doc_page)
  = option_map span (search (section_pattern (str "Athleticism")) doc_page) /\
  extract_sub_attributes doc_page (str "Athleticism")
  = Ret [(str "Speed", {| value := 70; raw_value := str "70" |})].
Proof.
  split.
  - exact (proj1 (rating_and_sub_attributes_share_heading doc_page
                    (str "Athleticism"))).
  - destruct (search (header_pattern (str "Athleticism")) doc_page)
      as [heading|] eqn:E; [|vm_compute in E; discriminate E].
    rewrite (proj1 (proj2 (rating_and_sub_attributes_share_heading doc_page
                             (str "Athleticism"))) heading E).
    vm_compute in E. inversion E as [Eh]. vm_compute. reflexivity.
Defined.

(* ================================================================== *)
(** * Numbers shown by the bot *)

Lemma int_acc_string_of_uint (d : Decimal.uint) :
  forall acc,
    int_acc acc (str (NilEmpty.string_of_uint d)) = Ret (uint_value d acc) /\
    Forall (fun c => is_digit c = true) (str (NilEmpty.string_of_uint d)).
Proof.
  induction d as [|d IH|d IH|d IH|d IH|d IH|d IH|d IH|d IH|d IH|d IH]; intros acc;
    cbn [NilEmpty.string_of_uint str list_ascii_of_string int_acc uint_value];
    try (split; [reflexivity | constructor]);
    fold (str (NilEmpty.string_of_uint d));
    (split; [|constructor; [reflexivity | apply (IH 0%Z)]]);
    match goal with
    | |- (if is_digit ?c then _ else _) = _ =>
        change (is_digit c) with true; cbv iota
    end;
    match goal with
    | |- int_acc (10 * acc + ?v) _ = Ret (uint_value d ?w) =>
        replace (10 * acc + v)%Z with w by (vm_compute Z.of_nat; lia);
        apply IH
    end.
Qed.

Lemma uint_value_of_uint_acc (d : Decimal.uint) :
  forall acc, uint_value d (Zpos acc) = Zpos (Pos.of_uint_acc d acc).
Proof.
  induction d; intros acc; cbn [uint_value Pos.of_uint_acc]; try reflexivity;
    rewrite <- IHd; f_equal; lia.
Qed.

Lemma uint_value_of_uint (d : Decimal.uint) :
  uint_value d 0 = Z.of_N (Pos.of_uint d).
Proof.
  induction d; cbn [uint_value Pos.of_uint]; try reflexivity;
    try exact IHd;
    change (10 * 0 + 1)%Z with 1%Z; change (10 * 0 + 2)%Z with 2%Z;
    change (10 * 0 + 3)%Z with 3%Z; change (10 * 0 + 4)%Z with 4%Z;
    change (10 * 0 + 5)%Z with 5%Z; change (10 * 0 + 6)%Z with 6%Z;
    change (10 * 0 + 7)%Z with 7%Z; change (10 * 0 + 8)%Z with 8%Z;
    change (10 * 0 + 9)%Z with 9%Z;
    rewrite uint_value_of_uint_acc; reflexivity.
Qed.

Lemma length_string_of_uint (u : Decimal.uint) :
  length (str (NilEmpty.string_of_uint u)) = Decimal.nb_digits u.
Proof.
  induction u; cbn [NilEmpty.string_of_uint str list_ascii_of_string length
                    Decimal.nb_digits]; try reflexivity;
    fold (str (NilEmpty.string_of_uint u)); now rewrite IHu.
Qed.

(** The numeral of a number that is not negative: its digits, without a
    leading zero. *)
Lemma str_of_int_of_N (x : N) :
  str_of_int (Z.of_N x) = str (NilEmpty.string_of_uint (N.to_uint x)) /\
  N.to_uint x <> Decimal.Nil.
Proof.
  unfold str_of_int. destruct x as [|p]; [split; [reflexivity | discriminate]|].
  cbn [Z.of_N Z.to_int N.to_uint NilZero.string_of_int].
  pose proof (DecimalPos.Unsigned.to_uint_nonnil p) as Hnil.
  split; [|exact Hnil]. unfold NilZero.string_of_uint.
  destruct (Pos.to_uint p); [contradiction|..]; reflexivity.
Qed.

Lemma int_str_of_int (n : Z) :
  (0 <= n)%Z -> (Z.of_nat (length (str_of_int n)) <= max_str_digits)%Z ->
  int (str_of_int n) = Ret n /\ digit_string (str_of_int n).
Proof.
  intros Hn Hlen. rewrite <- (Z2N.id n Hn) in *.
  destruct (str_of_int_of_N (Z.to_N n)) as [E Hnil]. rewrite E in *.
  destruct (int_acc_string_of_uint (N.to_uint (Z.to_N n)) 0) as [Hv Hd].
  assert (Hne : str (NilEmpty.string_of_uint (N.to_uint (Z.to_N n))) <> []).
  { intros C. apply (f_equal (@length ascii)) in C.
    rewrite length_string_of_uint in C.
    now apply DecimalFacts.nb_digits_0 in C. }
  split; [|split; assumption].
  unfold int.
  destruct (str (NilEmpty.string_of_uint (N.to_uint (Z.to_N n)))) as [|c0 t] eqn:Es;
    [contradiction|].
  apply Z.ltb_ge in Hlen. rewrite Hlen.
  rewrite Hv, uint_value_of_uint.
  change (Pos.of_uint (N.to_uint (Z.to_N n))) with (N.of_uint (N.to_uint (Z.to_N n))).
  now rewrite DecimalN.Unsigned.of_to.
Qed.

(** A run of digits is the numeral of some sequence of decimal digits. *)
Lemma digits_as_uint (d : text) :
  Forall (fun c => is_digit c = true) d ->
  exists u, str (NilEmpty.string_of_uint u) = d.
Proof.
  induction 1 as [|c d Hc Hd (u & Hu)].
  - exists Decimal.Nil. reflexivity.
  - subst d.
    destruct c as [[] [] [] [] [] [] [] []]; try discriminate Hc;
      first [ now exists (Decimal.D0 u) | now exists (Decimal.D1 u)
            | now exists (Decimal.D2 u) | now exists (Decimal.D3 u)
            | now exists (Decimal.D4 u) | now exists (Decimal.D5 u)
            | now exists (Decimal.D6 u) | now exists (Decimal.D7 u)
            | now exists (Decimal.D8 u) | now exists (Decimal.D9 u) ].
Qed.

(** The numeral of a converted number is no longer than the digits it was
    read from. *)
Lemma str_of_int_of_digits (d : text) (n : Z) :
  int d = Ret n -> length (str_of_int n) <= length d.
Proof.
  intros H. destruct (int_Ret _ _ H) as (_ & [Hne Hd] & _).
  destruct (digits_as_uint d Hd) as (u & Hu).
  assert (Hn : n = Z.of_N (N.of_uint u)).
  { unfold int in H. destruct d as [|c0 t]; [contradiction|].
    destruct (max_str_digits <? _)%Z; [discriminate|].
    rewrite <- Hu in H.
    rewrite (proj1 (int_acc_string_of_uint u 0)), uint_value_of_uint in H.
    now inversion H. }
  subst n. destruct (str_of_int_of_N (N.of_uint u)) as [E _]. rewrite E.
  rewrite DecimalN.Unsigned.to_of, length_string_of_uint.
  rewrite <- Hu, length_string_of_uint.
  apply DecimalFacts.nb_digits_unorm.
  intros ->. apply Hne. now rewrite <- Hu.
Qed.

Lemma format_int_small (n : Z) :
  (digits_of n <= max_str_digits)%Z -> format_int n = Ret (str_of_int n).
Proof. intros H. unfold format_int. apply Z.ltb_ge in H. now rewrite H. Qed.

Lemma format_int_large (n : Z) :
  (max_str_digits < digits_of n)%Z -> format_int n = Exc ValueError.
Proof. intros H. unfold format_int. apply Z.ltb_lt in H. now rewrite H. Qed.

Lemma format_int_Ret (n : Z) (shown : text) :
  format_int n = Ret shown ->
  shown = str_of_int n /\ (digits_of n <= max_str_digits)%Z.
Proof.
  unfold format_int. destruct (max_str_digits <? digits_of n)%Z eqn:E;
    [discriminate|].
  apply Z.ltb_ge in E. intros H. inversion H. auto.
Qed.

Lemma format_int_Exc (n : Z) (e : exn) : format_int n = Exc e -> e = ValueError.
Proof.
  unfold format_int. destruct (max_str_digits <? digits_of n)%Z;
    [|discriminate]. intros H. now inversion H.
Qed.

(** A number that was converted from a text is shown without error. *)
Lemma format_int_of_int (d : text) (n : Z) :
  int d = Ret n -> format_int n = Ret (str_of_int n).
Proof.
  intros H. apply format_int_small. unfold digits_of.
  destruct (int_Ret _ _ H) as (Hn & _ & Hlen).
  rewrite Z.abs_eq by exact Hn.
  pose proof (str_of_int_of_digits d n H). lia.
Qed.

Lemma format_int_of_group (mt : rmatch) (k : nat) (n : Z) :
  int_of_group mt k = Ret n -> format_int n = Ret (str_of_int n).
Proof.
  unfold int_of_group. destruct (cap_get (m_groups mt) k) as [d|]; [|discriminate].
  apply format_int_of_int.
Qed.

Lemma format_int_of_tier_count (tier : string) (content : text) (n : Z) :
  tier_count tier content = Ret n -> format_int n = Ret (str_of_int n).
Proof.
  unfold tier_count. destruct (search (tier_pattern tier) content) as [mt|].
  - apply format_int_of_group.
  - intros H. inversion H. reflexivity.
Qed.

(* ================================================================== *)
(** * Properties of the bot *)

Lemma get_rating_color_some (n : Z) :
  exists c,
    get_rating_color (Some n) = Ret c /\
    (c = 16766720 <-> 95 <= n)%Z /\
    (c = 12632256 <-> 90 <= n < 95)%Z /\
    (c = 13467442 <-> 85 <= n < 90)%Z /\
    (c = 8421504 <-> n < 85)%Z.
Proof.
  cbn [get_rating_color].
  destruct (n >=? 95)%Z eqn:E1; [|destruct (n >=? 90)%Z eqn:E2;
                                   [|destruct (n >=? 85)%Z eqn:E3]];
    rewrite Z.geb_leb in *;
    repeat match goal with
           | H : (_ <=? _)%Z = true |- _ => apply Z.leb_le in H
           | H : (_ <=? _)%Z = false |- _ => apply Z.leb_gt in H
           end;
    eexists; (split; [reflexivity|]);
    repeat split; intros; try lia; try discriminate.
Qed.

Lemma attr_text_loop_Exc (items : dict AttributeSection) :
  forall attr_text e, attr_text_loop items attr_text = Exc e -> e = ValueError.
Proof.
  induction items as [|[attr attr_data] rest IH]; intros attr_text e;
    cbn [attr_text_loop]; [discriminate|].
  destruct (format_int (rating attr_data)) as [shown|e'] eqn:E; cbn [bind].
  - apply IH.
  - intros H. inversion H; subst. exact (format_int_Exc _ _ E).
Qed.

Lemma attr_text_loop_formats (items : dict AttributeSection) :
  (forall k entry, In (k, entry) items ->
                   format_int (rating entry) = Ret (str_of_int (rating entry))) ->
  forall attr_text, exists t, attr_text_loop items attr_text = Ret t.
Proof.
  induction items as [|[attr attr_data] rest IH]; intros H attr_text;
    cbn [attr_text_loop]; [eauto|].
  rewrite (H attr attr_data (or_introl eq_refl)). cbn [bind].
  apply IH. intros k entry Hin. apply (H k entry). now right.
Qed.

Lemma badge_text_of_Exc (badge_info : BadgeInfo) (e : exn) :
  badge_text_of badge_info = Exc e -> e = ValueError.
Proof.
  unfold badge_text_of.
  repeat match goal with
         | |- context [format_int ?n] =>
             let E := fresh "E" in
             destruct (format_int n) eqn:E; cbn [bind];
             [|intros H; inversion H; subst; eapply format_int_Exc; eassumption]
         end.
  discriminate.
Qed.

(** The exceptions of [create_player_embed]: [TypeError] exactly when the
    record has no rating, else [ValueError] only. *)
Lemma create_player_embed_errors (player : PlayerData) :
  (overall_rating player = None -> create_player_embed player = Exc TypeError) /\
  (forall e n,
     overall_rating player = Some n ->
     create_player_embed player = Exc e -> e = ValueError).
Proof.
  unfold create_player_embed. split.
  - intros ->. reflexivity.
  - intros e n ->. cbn [format_optional_int].
    destruct (format_int n) as [shown|e0] eqn:E0; cbn [bind];
      [|intros H; inversion H; subst; exact (format_int_Exc _ _ E0)].
    destruct (get_rating_color_some n) as (c & -> & _). cbn [bind].
    destruct (attributes player) as [|item items].
    + cbn [bind]. destruct (badge_text_of (badge_info player)) eqn:Eb;
        cbn [bind]; [discriminate|].
      intros H. inversion H; subst. exact (badge_text_of_Exc _ _ Eb).
    + destruct (attr_text_loop (item :: items) []) eqn:Ea; cbn [bind].
      * destruct (badge_text_of (badge_info player)) eqn:Eb;
          cbn [bind]; [discriminate|].
        intros H. inversion H; subst. exact (badge_text_of_Exc _ _ Eb).
      * intros H. inversion H; subst. exact (attr_text_loop_Exc _ _ _ Ea).
Qed.

(** What the embed of a record holds, when it is built. *)
Lemma create_player_embed_Ret (player : PlayerData) (e : Embed) :
  create_player_embed player = Ret e ->
  exists n c,
    overall_rating player = Some n /\
    format_int n = Ret (str_of_int n) /\
    get_rating_color (Some n) = Ret c /\
    color e = c /\
    title e = Wide 127936 :: wide (str " " ++ name player) /\
    embed_description e
    = wide (str "**Overall Rating: " ++ str_of_int n ++ str "**") /\
    field_names e
    = match player_details player with
      | [] => []
      | _ :: _ => [Wide 128202 :: wide (str " Player Info")]
      end
      ++ match attributes player with
         | [] => []
         | _ :: _ => [Wide 128200 :: wide (str " Attributes")]
         end
      ++ [Wide 127942 :: wide (str " Badges")] /\
    Forall (fun f => snd f = true) (fields e).
Proof.
  unfold create_player_embed.
  destruct (overall_rating player) as [n|]; [|discriminate].
  cbn [format_optional_int].
  destruct (format_int n) as [shown|] eqn:E0; [|discriminate]. cbn [bind].
  destruct (format_int_Ret _ _ E0) as [-> _].
  destruct (get_rating_color (Some n)) as [c|] eqn:Ec; [|discriminate].
  cbn [bind]. intros H. exists n, c.
  split; [reflexivity|]. split; [exact E0|]. split; [exact Ec|].
  destruct (attributes player) as [|item items].
  - cbn [bind] in H.
    destruct (badge_text_of (badge_info player)); [|discriminate].
    cbn [bind] in H. inversion H; subst e; clear H.
    unfold field_names. cbn [color title embed_description fields].
    destruct (player_details player); cbn;
      repeat split; repeat constructor.
  - destruct (attr_text_loop (item :: items) []); [|discriminate].
    cbn [bind] in H.
    destruct (badge_text_of (badge_info player)); [|discriminate].
    cbn [bind] in H. inversion H; subst e; clear H.
    unfold field_names. cbn [color title embed_description fields].
    destruct (player_details player); cbn;
      repeat split; repeat constructor.
Qed.

Lemma rating_of_page_formats (html_content : text) (n : Z) :
  overall_rating_of html_content = Ret (Some n) ->
  format_int n = Ret (str_of_int n).
Proof.
  unfold overall_rating_of.
  destruct (contains _ html_content); [|discriminate].
  destruct (search rating_pattern html_content) as [mt|]; [|discriminate].
  destruct (int_of_group mt 1) as [z|] eqn:Hz; [|discriminate].
  cbn [bind]. intros H. inversion H; subst.
  exact (format_int_of_group _ _ _ Hz).
Qed.

(** The embed of the record of a page: it is built unless the record has
    no rating or the total of the badges has too many digits to be
    shown. *)
Lemma embed_of_page (html_content u : text) (p : PlayerData) (n : Z) :
  parse_player_page html_content u = Some p ->
  overall_rating p = Some n ->
  ((max_str_digits < digits_of (total_badges (badge_info p)))%Z ->
   create_player_embed p = Exc ValueError) /\
  ((digits_of (total_badges (badge_info p)) <= max_str_digits)%Z ->
   exists e, create_player_embed p = Ret e).
Proof.
  intros Hp Hn.
  destruct (parse_player_page_fields _ _ _ Hp) as (_ & Hr & Hb & Ha & _).
  rewrite Hn in Hr. pose proof (rating_of_page_formats _ _ Hr) as Hfmt.
  assert (Hattr : forall attr_text,
            exists t, attr_text_loop (attributes p) attr_text = Ret t).
  { apply attr_text_loop_formats. intros k entry Hin.
    destruct (attributes_loop_entries html_content attribute_sections []
                (attributes p) attribute_sections_NoDup) as (_ & Hent);
      [intros k' [] | exact Ha |].
    destruct (Hent k entry Hin) as [[]|(_ & mt & _ & Hz & _)].
    exact (format_int_of_group _ _ _ Hz). }
  destruct (extract_badge_info_shape html_content _ Hb)
    as (l & h & g & s & b & d & _ & Hh & Hg & Hs & Hbz & _ & _ & E).
  rewrite E in Hb. inversion Hb as [Hb']. clear Hb E.
  assert (Hfields :
            exists fields1,
              (match attributes p with
               | [] =>
                   Ret match player_details p with
                       | [] => []
                       | details =>
                           [(Wide 128202 :: wide (str " Player Info"),
                             wide (player_info_text details), true)]
                       end
               | items =>
                   attr_text <- attr_text_loop items [] ;;
                   Ret (match player_details p with
                        | [] => []
                        | details =>
                            [(Wide 128202 :: wide (str " Player Info"),
                              wide (player_info_text details), true)]
                        end ++
                        [(Wide 128200 :: wide (str " Attributes"),
                          wide attr_text, true)])
               end) = Ret fields1).
  { destruct (Hattr []) as (t & Ht).
    destruct (attributes p) as [|item items]; [eauto|].
    rewrite Ht. cbn [bind]. eauto. }
  destruct Hfields as (fields1 & Hfields).
  destruct (get_rating_color_some n) as (c & Hc & _).
  unfold create_player_embed. rewrite Hn. cbn [format_optional_int].
  rewrite Hfmt. cbn [bind]. rewrite Hc. cbn [bind]. rewrite Hfields.
  cbn [bind]. unfold badge_text_of. rewrite <- Hb'.
  cbn [total_badges hof_badges gold_badges silver_badges bronze_badges].
  rewrite (format_int_of_tier_count _ _ _ Hh),
    (format_int_of_tier_count _ _ _ Hg),
    (format_int_of_tier_count _ _ _ Hs),
    (format_int_of_tier_count _ _ _ Hbz).
  split; intros Hlen.
  - rewrite (format_int_large _ Hlen). reflexivity.
  - rewrite (format_int_small _ Hlen). cbn [bind]. eauto.
Qed.

(** X17. Building the embed of a record raises [TypeError] exactly when
    the record has no overall rating: choosing the colour fails.  With a
    rating it raises nothing but [ValueError].  For the record of a page
    with a rating it raises [ValueError] exactly when the total of the
    badges, the sum of the five tier counts, has more than 4300 digits;
    otherwise the embed is built, its colour is gold from 95, silver from
    90, bronze from 85 and gray below, and its title is the basketball and
    the name. *)
Theorem embed_needs_a_rating (player : PlayerData) :
  (create_player_embed player = Exc TypeError <-> overall_rating player = None) /\
  (forall e, create_player_embed player = Exc e ->
             e = TypeError \/ e = ValueError) /\
  (forall html_content u n,
     parse_player_page html_content u = Some player ->
     overall_rating player = Some n ->
     ((max_str_digits < digits_of (total_badges (badge_info player)))%Z ->
      create_player_embed player = Exc ValueError) /\
     ((digits_of (total_badges (badge_info player)) <= max_str_digits)%Z ->
      exists e,
        create_player_embed player = Ret e /\
        title e = Wide 127936 :: wide (str " " ++ name player) /\
        (color e = 16766720 <-> 95 <= n)%Z /\
        (color e = 12632256 <-> 90 <= n < 95)%Z /\
        (color e = 13467442 <-> 85 <= n < 90)%Z /\
        (color e = 8421504 <-> n < 85)%Z)).
Proof.
  destruct (create_player_embed_errors player) as [Hnone Hsome].
  split; [|split].
  - split; [|exact Hnone]. intros H.
    destruct (overall_rating player) as [n|] eqn:E; [|reflexivity].
    pose proof (Hsome _ n eq_refl H). discriminate.
  - intros e H. destruct (overall_rating player) as [n|] eqn:E.
    + right. exact (Hsome e n eq_refl H).
    + left. rewrite (Hnone eq_refl) in H. now inversion H.
  - intros html_content u n Hp Hn.
    destruct (embed_of_page _ _ _ _ Hp Hn) as [Hlarge Hsmall].
    split; [exact Hlarge|]. intros Hlen.
    destruct (Hsmall Hlen) as (e & He). exists e. split; [exact He|].
    destruct (create_player_embed_Ret _ _ He)
      as (n' & c & Hn' & _ & Hc & Hcol & Ht & _).
    rewrite Hn in Hn'. inversion Hn'; subst n'.
    split; [exact Ht|]. rewrite Hcol.
    destruct (get_rating_color_some n) as (c' & Hc' & Hcases).
    rewrite Hc in Hc'. inversion Hc'; subst c'. exact Hcases.
Qed.

Lemma embed_needs_a_rating_witness :
  create_player_embed record_of_hello = Exc TypeError /\
  exists p e,
    parse_player_page doc_rating_and_height (str "u") = Some p /\
    create_player_embed p = Ret e /\
    color e = 16766720%Z.
Proof.
  split.
  - apply (proj1 (embed_needs_a_rating record_of_hello)). reflexivity.
  - destruct (parse_player_page doc_rating_and_height (str "u")) as [p|] eqn:Ep;
      [|vm_compute in Ep; discriminate Ep].
    assert (Hn : overall_rating p = Some 97%Z).
    { revert Ep. vm_compute. intros Ep. inversion Ep. reflexivity. }
    destruct (proj2 (proj2 (embed_needs_a_rating p)) _ _ _ Ep Hn) as [_ Hsmall].
    destruct Hsmall as (e & He & _ & Hgold & _).
    + revert Ep. vm_compute. intros Ep. inversion Ep. discriminate.
    + exists p, e. split; [reflexivity|]. split; [exact He|].
      apply Hgold. lia.
Defined.

Lemma existsb_filter (A : Type) (f : A -> bool) (l : list A) :
  existsb f l = match filter f l with [] => false | _ :: _ => true end.
Proof.
  induction l as [|a l IH]; cbn [existsb filter]; [reflexivity|].
  destruct (f a); cbn [orb]; [reflexivity | exact IH].
Qed.

(** X18. The embed of the record of a page has the field "Player Info"
    exactly when one of the six detail patterns is found in the page, then
    the field "Attributes" exactly when one of the six known categories has
    a heading, then always the field "Badges"; every field is inline. *)
Theorem embed_fields_of_a_page (html_content u : text) (p : PlayerData)
    (e : Embed) :
  parse_player_page html_content u = Some p ->
  create_player_embed p = Ret e ->
  field_names e
  = (if existsb (fun f => found (snd f) html_content) detail_fields
     then [Wide 128202 :: wide (str " Player Info")] else [])
    ++ (if existsb (has_heading html_content) attribute_sections
        then [Wide 128200 :: wide (str " Attributes")] else [])
    ++ [Wide 127942 :: wide (str " Badges")] /\
  Forall (fun f => snd f = true) (fields e).
Proof.
  intros Hp He.
  destruct (parse_player_page_fields _ _ _ Hp) as (_ & _ & _ & Ha & Hd & _).
  assert (Hdet : existsb (fun f => found (snd f) html_content) detail_fields
                 = match player_details p with [] => false | _ :: _ => true end).
  { destruct (player_details_entries html_content) as (d & E & K & _).
    rewrite E in Hd. inversion Hd; subst d. rewrite existsb_filter.
    destruct (filter _ detail_fields); destruct (player_details p);
      cbn in K; try discriminate; reflexivity. }
  assert (Hatt : existsb (has_heading html_content) attribute_sections
                 = match attributes p with [] => false | _ :: _ => true end).
  { destruct (attributes_loop_entries html_content attribute_sections []
                (attributes p) attribute_sections_NoDup) as (K & _);
      [intros k [] | exact Ha |].
    rewrite existsb_filter. cbn [map app] in K.
    destruct (filter _ attribute_sections); destruct (attributes p);
      cbn in K; try discriminate; reflexivity. }
  rewrite Hdet, Hatt.
  destruct (create_player_embed_Ret _ _ He)
    as (n & c & _ & _ & _ & _ & _ & _ & Hnames & Hinline).
  split; [|exact Hinline]. rewrite Hnames.
  destruct (player_details p), (attributes p); reflexivity.
Qed.

Lemma embed_fields_of_a_page_witness :
  exists p e,
    parse_player_page doc_rating_and_height (str "u") = Some p /\
    create_player_embed p = Ret e /\
    field_names e = [Wide 128202 :: wide (str " Player Info");
                     Wide 127942 :: wide (str " Badges")].
Proof.
  destruct (parse_player_page doc_rating_and_height (str "u")) as [p|] eqn:Ep;
    [|vm_compute in Ep; discriminate Ep].
  destruct (create_player_embed p) as [e|] eqn:Ee.
  - exists p, e. split; [reflexivity|]. split; [exact Ee|].
    rewrite (proj1 (embed_fields_of_a_page _ _ _ _ Ep Ee)).
    vm_compute. reflexivity.
  - exfalso. revert Ep Ee. vm_compute. intros Ep. inversion Ep; subst p.
    discriminate.
Defined.

(** X19. What the command [!player] answers.  For a blank name it asks for
    a name and searches nothing.  Otherwise it sends the loading message,
    searches, and edits that message once: to "No player found" when every
    candidate gave no record; when a candidate gave a record, to the error
    text of the failed comparison if the record has no overall rating, to
    the error text of the failed conversion if the total of its badges has
    more than 4300 digits, and to the embed of the record otherwise. *)
Theorem player_search_replies (scrape_url : text -> option text)
    (player_name : text) :
  (strip player_name = [] ->
   player_search scrape_url player_name = ([Send ask_for_name], [])) /\
  (strip player_name <> [] ->
   snd (player_search scrape_url player_name)
   = snd (search_player scrape_url player_name) /\
   ((forall u, In u (url_patterns player_name) -> no_record scrape_url u) ->
    fst (player_search scrape_url player_name)
    = [Send (searching_for player_name);
       Edit (no_player_found player_name) None]) /\
   (forall before u rest c p,
      url_patterns player_name = before ++ u :: rest ->
      (forall v, In v before -> no_record scrape_url v) ->
      scrape_url u = Some c -> c <> [] ->
      parse_player_page c u = Some p ->
      (overall_rating p = None ->
       fst (player_search scrape_url player_name)
       = [Send (searching_for player_name);
          Edit (error_searching none_not_ordered) None]) /\
      (forall n,
         overall_rating p = Some n ->
         ((max_str_digits < digits_of (total_badges (badge_info p)))%Z ->
          fst (player_search scrape_url player_name)
          = [Send (searching_for player_name);
             Edit (error_searching exceeds_str_digits) None]) /\
         ((digits_of (total_badges (badge_info p)) <= max_str_digits)%Z ->
          exists e,
            create_player_embed p = Ret e /\
            fst (player_search scrape_url player_name)
            = [Send (searching_for player_name); Edit [] (Some e)])))).
Proof.
  unfold player_search. split.
  - intros ->. reflexivity.
  - intros Hne. destruct (strip player_name) as [|c0 s0]; [contradiction|].
    split; [|split].
    + destruct (search_player scrape_url player_name) as [[|p ps] trace];
        [reflexivity|]. cbn [snd]. now destruct (create_player_embed p).
    + intros Hall. unfold search_player.
      now rewrite (try_patterns_all_fail scrape_url _ Hall).
    + intros before u rest c p Hp Hb Hu Hc Hpd. unfold search_player. rewrite Hp.
      rewrite (try_patterns_first_record scrape_url before u rest c p
                 Hb Hu Hc Hpd).
      split.
      * intros E. rewrite (proj1 (create_player_embed_errors p) E). reflexivity.
      * intros n E. destruct (embed_of_page _ _ _ _ Hpd E) as [Hlarge Hsmall].
        split; intros Hlen.
        -- rewrite (Hlarge Hlen). reflexivity.
        -- destruct (Hsmall Hlen) as (e & He). exists e.
           split; [exact He|]. now rewrite He.
Qed.

Lemma player_search_replies_witness :
  fst (player_search (fun _ => Some doc_hello) (str "x"))
  = [Send (searching_for (str "x"));
     Edit (error_searching none_not_ordered) None].
Proof.
  refine (proj1 (proj2 (proj2 (proj2 (player_search_replies
            (fun _ => Some doc_hello) (str "x")) _))
            [] (str "https://www.2kratings.com/x")
            [str "https://www.2kratings.com/player/x";
             str "https://www.2kratings.com/players/x"] doc_hello
            record_of_hello _ _ _ _ _) _).
  - vm_compute. discriminate.
  - vm_compute. reflexivity.
  - intros v [].
  - reflexivity.
  - vm_compute. discriminate.
  - vm_compute. reflexivity.
  - reflexivity.
Defined.

(** X22. The number the embed shows as the overall rating is the rating
    the scraper read, written in decimal without leading zeros: the
    description is "**Overall Rating: <digits>**" and the digits read back
    as the rating of the record. *)
Theorem embed_shows_the_rating (html_content u : text) (p : PlayerData)
    (e : Embed) :
  parse_player_page html_content u = Some p ->
  create_player_embed p = Ret e ->
  exists n,
    overall_rating p = Some n /\
    embed_description e
    = wide (str "**Overall Rating: " ++ str_of_int n ++ str "**") /\
    digit_string (str_of_int n) /\
    int (str_of_int n) = Ret n.
Proof.
  intros Hp He.
  destruct (create_player_embed_Ret _ _ He)
    as (n & c & Hn & Hfmt & _ & _ & _ & Hdesc & _).
  exists n. split; [exact Hn|]. split; [exact Hdesc|].
  assert (H0 : (0 <= n)%Z).
  { destruct (parse_player_page_fields _ _ _ Hp) as (_ & Hr & _).
    rewrite Hn in Hr. unfold overall_rating_of in Hr.
    destruct (contains _ html_content); [|discriminate].
    destruct (search rating_pattern html_content) as [mt|]; [|discriminate].
    destruct (int_of_group mt 1) as [z|] eqn:Hz; [|discriminate].
    cbn [bind] in Hr. inversion Hr; subst. exact (int_of_group_Ret _ _ _ Hz). }
  destruct (format_int_Ret _ _ Hfmt) as [_ Hlen]. unfold digits_of in Hlen.
  rewrite Z.abs_eq in Hlen by exact H0.
  destruct (int_str_of_int n H0 Hlen) as [Hi Hd]. split; assumption.
Qed.

Lemma embed_shows_the_rating_witness :
  exists p e,
    parse_player_page doc_rating_leading_zero (str "u") = Some p /\
    create_player_embed p = Ret e /\
    embed_description e = wide (str "**Overall Rating: 79**").
Proof.
  destruct (parse_player_page doc_rating_leading_zero (str "u")) as [p|] eqn:Ep;
    [|vm_compute in Ep; discriminate Ep].
  destruct (create_player_embed p) as [e|] eqn:Ee.
  - exists p, e. split; [reflexivity|]. split; [exact Ee|].
    destruct (embed_shows_the_rating _ _ _ _ Ep Ee) as (n & Hn & Hd & _).
    rewrite Hd. revert Ep Hn. vm_compute. intros Ep. inversion Ep; subst p.
    intros Hn. inversion Hn. reflexivity.
  - exfalso. revert Ep Ee. vm_compute. intros Ep. inversion Ep; subst p.
    discriminate.
Defined.

(* ================================================================== *)
(** * The matcher finds what the pattern accepts *)

Lemma star_loop_0 (A : Type) (b : bool)
    (body : text -> caps -> (text -> caps -> option A) -> option A)
    (k : text -> caps -> option A) (s : text) (g : caps) :
  star_loop b body k 0 s g = k s g.
Proof. reflexivity. Qed.

(** A repetition succeeds as soon as what follows accepts the text as it
    stands. *)
Lemma star_loop_stop (A : Type) (b : bool)
    (body : text -> caps -> (text -> caps -> option A) -> option A)
    (k : text -> caps -> option A) (n : nat) (s : text) (g : caps) :
  k s g <> None -> star_loop b body k n s g <> None.
Proof.
  intros Hk. destruct n as [|n]; [exact Hk|]. rewrite star_loop_S. cbv zeta.
  destruct b.
  - now destruct (body s g _).
  - now destruct (k s g).
Qed.

(** For a plain pattern: when the text starts with a word the pattern
    accepts, and what follows accepts the rest with any groups, the match
    succeeds. *)
Lemma m_complete (r : regex) :
  plain r ->
  forall w, lang r w ->
  forall (A : Type) (s' : text) (g : caps) (k : text -> caps -> option A),
    (forall g', k s' g' <> None) ->
    m A r (w ++ s') g k <> None.
Proof.
  induction r as [ | c | p | r1 IH1 r2 IH2 | r1 IH1 r2 IH2 | r1 IH1 | r1 IH1
                  | n r1 IH1 | r1 IH1 | ]; intros Hp w Hw A s' g k Hk.
  - inversion Hw; subst. apply Hk.
  - inversion Hw; subst. cbn [app m]. rewrite Ascii.eqb_refl. apply Hk.
  - inversion Hw as [ | |p' c Hc| | | | | | | | | | ]; subst. cbn [app m].
    rewrite Hc. apply Hk.
  - destruct Hp as [Hp1 Hp2].
    inversion Hw as [ | | |? ? w1 w2 H1 H2| | | | | | | | | ]; subst.
    rewrite <- app_assoc. rewrite m_Seq. apply (IH1 Hp1 w1 H1).
    intros g'. now apply (IH2 Hp2 w2 H2).
  - destruct Hp as [Hp1 Hp2]. cbn [m].
    inversion Hw as [ | | | |? ? ? H1|? ? ? H2| | | | | | | ]; subst.
    + pose proof (IH1 Hp1 w H1 A s' g k Hk) as H.
      now destruct (m A r1 (w ++ s') g k).
    + destruct (m A r1 (w ++ s') g k); [discriminate|].
      now apply (IH2 Hp2 w H2).
  - cbn [plain] in Hp. rewrite m_Star.
    assert (L : forall r0 w0, lang r0 w0 -> r0 = Star r1 ->
              forall n g0, length (w0 ++ s') <= n ->
                star_loop true (m A r1) k n (w0 ++ s') g0 <> None).
    { induction 1 as [ | | | | | | |? w1 w2 H1 _ H2 IHs| | | | | ];
        intros E; try discriminate; intros n g0 Hn.
      - apply star_loop_stop, Hk.
      - inversion E; subst. destruct w1 as [|c w1]; [now apply IHs|].
        destruct n as [|n]; [cbn in Hn; lia|].
        rewrite star_loop_S. cbv zeta. rewrite <- app_assoc.
        match goal with
        | |- match ?x with _ => _ end <> None =>
            assert (Hx : x <> None); [|now destruct x]
        end.
        apply (IH1 Hp _ H1). intros g'.
        replace (length (w2 ++ s') <? length ((c :: w1) ++ w2 ++ s')) with true
          by (symmetry; apply Nat.ltb_lt; cbn [app length];
              rewrite !length_app; lia).
        apply IHs; [reflexivity|].
        cbn [app length] in Hn. rewrite !length_app in *. lia. }
    apply (L _ _ Hw eq_refl), le_n.
  - cbn [plain] in Hp. cbn [m].
    assert (L : forall r0 w0, lang r0 w0 -> r0 = LazyStar r1 ->
              forall n g0, length (w0 ++ s') <= n ->
                star_loop false (m A r1) k n (w0 ++ s') g0 <> None).
    { induction 1 as [ | | | | | | | | |? w1 w2 H1 _ H2 IHs| | | ];
        intros E; try discriminate; intros n g0 Hn.
      - apply star_loop_stop, Hk.
      - inversion E; subst. destruct w1 as [|c w1]; [now apply IHs|].
        destruct n as [|n]; [cbn in Hn; lia|].
        rewrite star_loop_S. cbv zeta. rewrite <- app_assoc.
        destruct (k ((c :: w1) ++ w2 ++ s') g0); [discriminate|].
        apply (IH1 Hp _ H1). intros g'.
        replace (length (w2 ++ s') <? length ((c :: w1) ++ w2 ++ s')) with true
          by (symmetry; apply Nat.ltb_lt; cbn [app length];
              rewrite !length_app; lia).
        apply IHs; [reflexivity|].
        cbn [app length] in Hn. rewrite !length_app in *. lia. }
    apply (L _ _ Hw eq_refl), le_n.
  - cbn [plain] in Hp. cbn [m].
    inversion Hw as [ | | | | | | | | | |? ? ? H1| | ]; subst.
    apply (IH1 Hp w H1). intros g'. apply Hk.
  - contradiction.
  - contradiction.
Qed.

Lemma match_here_complete (r : regex) (pos : nat) (w s' : text) :
  plain r -> lang r w -> match_here r pos (w ++ s') <> None.
Proof.
  intros Hp Hw. unfold match_here. apply (m_complete r Hp w Hw).
  intros g'. discriminate.
Qed.

(** Whether there is a match at a place does not depend on how the place
    is numbered. *)
Lemma match_here_success (r : regex) (pos : nat) (s : text) :
  option_map (fun _ => tt) (match_here r pos s)
  = m unit r s [] (fun _ _ => Some tt).
Proof. unfold match_here. symmetry. apply m_map. reflexivity. Qed.

Lemma match_here_any_pos (r : regex) (pos1 pos2 : nat) (s : text) :
  match_here r pos1 s <> None -> match_here r pos2 s <> None.
Proof.
  intros H E.
  pose proof (match_here_success r pos1 s) as H1.
  pose proof (match_here_success r pos2 s) as H2.
  rewrite E in H2. rewrite <- H2 in H1.
  destruct (match_here r pos1 s); [discriminate | contradiction].
Qed.

(** A search finds a match no later than any place where there is one. *)
Lemma search_from_leftmost (r : regex) (s : text) :
  forall pos p,
    match_here r (pos + p) (skipn p s) <> None ->
    exists mt, search_from r pos s = Some mt /\ m_start mt <= pos + p.
Proof.
  induction s as [|c s IH]; intros pos p H; cbn [search_from].
  - rewrite skipn_nil in H. apply (match_here_any_pos r _ pos) in H.
    destruct (match_here r pos []) as [mt|] eqn:E; [|contradiction].
    destruct (match_here_sound anything _ _ _ _ (groups_in_anything r) E)
      as (w & s' & _ & _ & Hst & _). exists mt. split; [reflexivity | lia].
  - destruct (match_here r pos (c :: s)) as [mt|] eqn:E.
    + destruct (match_here_sound anything _ _ _ _ (groups_in_anything r) E)
        as (w & s' & _ & _ & Hst & _). exists mt. split; [reflexivity | lia].
    + destruct p as [|p].
      * exfalso. rewrite Nat.add_0_r in H. cbn [skipn] in H. contradiction.
      * cbn [skipn] in H. replace (pos + S p) with (S pos + p) in * by lia.
        destruct (IH (S pos) p H) as (mt & Hmt & Hle). eauto.
Qed.

Lemma plain_Lit (l : text) : plain (Lit l).
Proof. induction l; cbn; auto. Qed.

Lemma lang_Lit (l : text) : lang (Lit l) l.
Proof.
  induction l as [|c l IH]; cbn [Lit]; [constructor|].
  change (c :: l) with ([c] ++ l). constructor; [constructor | exact IH].
Qed.

Lemma lang_star_digits (d : text) :
  Forall (fun c => is_digit c = true) d -> lang (Star digit) d.
Proof.
  induction 1 as [|c d Hc Hd IH]; [constructor|].
  change (c :: d) with ([c] ++ d). constructor; [now constructor | exact IH].
Qed.

Lemma lang_plus_digits (d : text) : digit_string d -> lang (Plus digit) d.
Proof.
  intros [Hne Hd]. destruct d as [|c d]; [contradiction|].
  inversion Hd; subst. change (c :: d) with ([c] ++ d).
  constructor; [now constructor | now apply lang_star_digits].
Qed.

Lemma next_section_pattern_plain : plain next_section_pattern.
Proof.
  unfold next_section_pattern. cbn [Cat plain Plus modifier Opt].
  repeat split; try apply plain_Lit.
Qed.

Lemma header_pattern_plain (section : text) : plain (header_pattern section).
Proof.
  unfold header_pattern. cbn [Cat plain Plus modifier Opt].
  repeat split; try apply plain_Lit.
Qed.

(** The match a search returns is a match at the place it starts. *)
Lemma search_from_here (r : regex) (s : text) :
  forall pos mt,
    search_from r pos s = Some mt ->
    pos <= m_start mt /\
    match_here r (m_start mt) (skipn (m_start mt - pos) s) = Some mt.
Proof.
  induction s as [|c s IH]; intros pos mt H; cbn [search_from] in H.
  - destruct (match_here r pos []) as [m0|] eqn:E; [|discriminate].
    inversion H; subst m0.
    destruct (match_here_sound anything _ _ _ _ (groups_in_anything r) E)
      as (w & s' & _ & _ & Hst & _).
    rewrite Hst, Nat.sub_diag. auto.
  - destruct (match_here r pos (c :: s)) as [m0|] eqn:E.
    + inversion H; subst m0.
      destruct (match_here_sound anything _ _ _ _ (groups_in_anything r) E)
        as (w & s' & _ & _ & Hst & _).
      rewrite Hst, Nat.sub_diag. auto.
    + destruct (IH _ _ H) as [Hle Hm]. split; [lia|].
      replace (m_start mt - pos) with (S (m_start mt - S pos)) by lia.
      exact Hm.
Qed.

Lemma next_section_not_empty (w : text) : lang next_section_pattern w -> w <> [].
Proof.
  unfold next_section_pattern. cbn [Cat]. intros H.
  inversion H as [ | | |r1 r2 w1 w2 H1 H2| | | | | | | | | ]; subst.
  apply lang_Seq_Chr_not_empty in H1. destruct w1; [contradiction|discriminate].
Qed.

(** X20. The sub-attributes of a category are read from the text that
    follows its heading up to the next numbered heading, that is the first
    place matched by "#### ", a number, nothing or a signed modifier, a
    space and at least one letter or white-space character; without such a
    place, up to the end of the document.  The text read holds no such
    place, and what follows it in the document is nothing or starts with
    one.  A line "#### " without a number, like the heading of a badge, is
    not such a place and does not end the text read. *)
Theorem sub_attribute_scan_stops_at_next_heading (content section_name : text)
    (section_match : rmatch) :
  search (section_pattern section_name) content = Some section_match ->
  let scanned := section_content_of content section_match in
  search next_section_pattern scanned = None /\
  exists after,
    skipn (m_end section_match) content = scanned ++ after /\
    (after = [] \/ match_here next_section_pattern 0 after <> None).
Proof.
  intros _ scanned. unfold scanned, section_content_of.
  set (rest := skipn (m_end section_match) content).
  destruct (search next_section_pattern rest) as [nm|] eqn:E.
  - destruct (search_from_here _ _ _ _ E) as [_ Hhere].
    rewrite Nat.sub_0_r in Hhere. split.
    + destruct (search next_section_pattern (firstn (m_start nm) rest))
        as [inner|] eqn:E'; [exfalso|reflexivity].
      destruct (search_sound anything _ _ _ (groups_in_anything _) E')
        as (pre & w & post & Hs & Hw & _).
      pose proof (next_section_not_empty w Hw) as Hne.
      assert (Hm : match_here next_section_pattern (0 + length pre)
                     (skipn (length pre) rest) <> None).
      { rewrite <- (firstn_skipn (m_start nm) rest), Hs, <- !app_assoc.
        rewrite skipn_length_app.
        apply match_here_complete; [apply next_section_pattern_plain | exact Hw]. }
      destruct (search_from_leftmost _ _ _ _ Hm) as (mt & Hmt & Hle).
      fold (search next_section_pattern rest) in Hmt. rewrite E in Hmt.
      inversion Hmt; subst mt.
      apply (f_equal (@length ascii)) in Hs.
      rewrite length_firstn, !length_app in Hs.
      destruct w; [contradiction|]. cbn [length] in Hs. lia.
    + exists (skipn (m_start nm) rest). rewrite firstn_skipn.
      split; [reflexivity|]. right.
      apply (match_here_any_pos _ (m_start nm)). rewrite Hhere. discriminate.
  - split; [exact E|]. exists []. rewrite app_nil_r. auto.
Qed.

Lemma sub_attribute_scan_stops_at_next_heading_witness :
  extract_sub_attributes doc_two_headings (str "Outside Scoring")
  = Ret [(str "Close Shot", {| value := 99; raw_value := str "99" |})] /\
  extract_sub_attributes doc_unnumbered_heading (str "Rebounding")
  = Ret [(str "Offensive Rebound", {| value := 81; raw_value := str "81" |});
         (str "Shooting", {| value := 50; raw_value := str "50" |})] /\
  exists section_match,
    search (section_pattern (str "Outside Scoring")) doc_two_headings
    = Some section_match /\
    search next_section_pattern (section_content_of doc_two_headings section_match)
    = None.
Proof.
  split; [vm_compute; reflexivity|]. split; [vm_compute; reflexivity|].
  destruct (search (section_pattern (str "Outside Scoring")) doc_two_headings)
    as [sm|] eqn:E; [|vm_compute in E; discriminate E].
  exists sm. split; [reflexivity|].
  exact (proj1 (sub_attribute_scan_stops_at_next_heading _ _ _ E)).
Defined.

(** X21. A known category is recorded in the dictionary that is returned
    whenever the document holds somewhere "#### ", a number, nothing or a
    signed modifier, a space and the name of the category.  The dictionary
    is returned for every document in which no run of digits is longer
    than 4300. *)
Theorem known_heading_is_recorded (content before after section d md : text) :
  In section attribute_sections ->
  digit_string d ->
  (md = [] \/
   exists sg d2, md = sg :: d2 /\ (sg = "+"%char \/ sg = "-"%char) /\
                 digit_string d2) ->
  content = before ++ (str "#### " ++ d ++ md ++ str " " ++ section) ++ after ->
  (short_numbers content ->
   exists attributes, extract_attributes_from_markdown content = Ret attributes) /\
  (forall attributes,
     extract_attributes_from_markdown content = Ret attributes ->
     exists entry, In (section, entry) attributes).
Proof.
  intros Hsec Hd Hmd Hc. split.
  { intros Hshort.
    destruct (attributes_loop_outcome content attribute_sections [])
      as [H|[_ H]]; [exact H | contradiction]. }
  intros a E.
  assert (Hw : lang (header_pattern section)
                 (str "#### " ++ d ++ md ++ str " " ++ section)).
  { unfold header_pattern. cbn [Cat].
    constructor; [apply lang_Lit|].
    constructor; [constructor; now apply lang_plus_digits|].
    constructor.
    - unfold modifier, Opt. destruct Hmd as [->|(sg & d2 & -> & Hsg & Hd2)].
      + apply L_alt_r. constructor.
      + apply L_alt_l. change (sg :: d2) with ([sg] ++ d2).
        constructor; [|now apply lang_plus_digits].
        constructor. destruct Hsg; subst; reflexivity.
    - change (str " " ++ section) with ([" "%char] ++ section).
      constructor; [constructor|].
      rewrite <- (app_nil_r section) at 2.
      constructor; [apply lang_Lit | constructor]. }
  assert (Hm : match_here (header_pattern section) (0 + length before)
                 (skipn (length before) content) <> None).
  { rewrite Hc, skipn_length_app.
    apply match_here_complete; [apply header_pattern_plain | exact Hw]. }
  destruct (search_from_leftmost _ _ _ _ Hm) as (mt & Hmt & _).
  fold (search (header_pattern section) content) in Hmt.
  destruct (attributes_loop_entries content attribute_sections [] a
              attribute_sections_NoDup) as (K & _); [intros k [] | exact E |].
  cbn [map app] in K.
  assert (Hin : In section (map fst a)).
  { rewrite K. apply filter_In. split; [exact Hsec|].
    unfold has_heading. now rewrite Hmt. }
  apply in_map_iff in Hin. destruct Hin as ([sec entry] & Hk & Hin).
  cbn in Hk. subst sec. exists entry. exact Hin.
Qed.

Lemma known_heading_is_recorded_witness :
  exists attributes entry,
    extract_attributes_from_markdown doc_two_headings = Ret attributes /\
    In (str "Athleticism", entry) attributes.
Proof.
  destruct (known_heading_is_recorded doc_two_headings
              (lines ["#### 91-1 Outside Scoring"; "*   99 Close Shot";
                      EmptyString]%string)
              (lines [EmptyString; "*   70 Speed"]%string) (str "Athleticism")
              (str "78") []) as [Hret Hin].
  - vm_compute. tauto.
  - split; [discriminate|]. repeat constructor.
  - left. reflexivity.
  - vm_compute. reflexivity.
  - destruct Hret as (a & E); [vm_compute; discriminate|].
    destruct (Hin a E) as (entry & He). exists a, entry. auto.
Defined.

(* ================================================================== *)
(** * Requests through the render proxy *)

Lemma scrape_url_content (session_get : text -> http_answer) (u c : text) :
  Jina.scrape_url session_get u = Some c <->
  session_get (jina_url u) = Response 200 c.
Proof.
  unfold Jina.scrape_url. destruct (session_get (jina_url u)) as [st b|].
  - destruct (st =? 200)%Z eqn:E.
    + apply Z.eqb_eq in E. subst st. split; intros H; inversion H; reflexivity.
    + apply Z.eqb_neq in E. split; [discriminate|].
      intros H. inversion H. contradiction.
  - split; discriminate.
Qed.

Lemma scrape_url_no_record (session_get : text -> http_answer) (u : text) :
  no_record (Jina.scrape_url session_get) u <->
  forall c, session_get (jina_url u) = Response 200 c ->
            c = [] \/ parse_player_page c u = None.
Proof.
  unfold no_record, no_content. split.
  - intros [[H|H]|(c' & Hc' & Hn)] c Hc; apply scrape_url_content in Hc;
      try congruence.
    + left. congruence.
    + right. congruence.
  - intros H. destruct (Jina.scrape_url session_get u) as [c|] eqn:E;
      [|left; now left].
    destruct (H c (proj1 (scrape_url_content _ _ _) E)) as [->|Hn].
    + left. now right.
    + right. eauto.
Qed.

Lemma url_patterns_proxied (player_name u : text) :
  In u (url_patterns player_name) ->
  starts_with (str "https://r.jina.ai/https://www.2kratings.com/") (jina_url u)
  = true.
Proof.
  unfold url_patterns. cbn [In].
  intros [<-|[<-|[<-|[]]]]; unfold jina_url, jina_base_url, base_url;
    change (str "https://r.jina.ai/https://www.2kratings.com/")
      with (str "https://r.jina.ai" ++ str "/" ++ str "https://www.2kratings.com"
            ++ str "/");
    rewrite !app_assoc;
    repeat (rewrite <- (app_assoc _ _ (url_name_of player_name)));
    rewrite <- !app_assoc.
  - rewrite !app_assoc. apply starts_with_self.
  - rewrite !app_assoc.
    rewrite <- (app_assoc _ (str "/player/") _).
    change (str "/player/") with (str "/" ++ str "player/").
    rewrite !app_assoc. rewrite <- (app_assoc _ (str "player/") _).
    apply starts_with_self.
  - rewrite !app_assoc.
    rewrite <- (app_assoc _ (str "/players/") _).
    change (str "/players/") with (str "/" ++ str "players/").
    rewrite !app_assoc. rewrite <- (app_assoc _ (str "players/") _).
    apply starts_with_self.
Qed.

(** X23. Over HTTP a search parses only the body of a response with status
    200: it returns no record exactly when no candidate page is answered
    with status 200 and a non-empty body from which [parse_player_page]
    builds a record, whatever the bodies of the other answers hold.  A
    record it returns was parsed from the body of the status-200 answer for
    its own URL, which is one of the candidates (the site's address, not
    the proxy's).  Every request goes to an address that starts with
    "https://r.jina.ai/https://www.2kratings.com/". *)
Theorem search_reads_only_status_200 (session_get : text -> http_answer)
    (player_name : text) :
  let players := fst (search_player (Jina.scrape_url session_get) player_name) in
  let trace := snd (search_player (Jina.scrape_url session_get) player_name) in
  (players = [] <->
   forall u c, In u (url_patterns player_name) ->
     session_get (jina_url u) = Response 200 c ->
     c = [] \/ parse_player_page c u = None) /\
  (forall p,
     In p players ->
     exists c,
       In (url p) (url_patterns player_name) /\
       session_get (jina_url (url p)) = Response 200 c /\ c <> [] /\
       parse_player_page c (url p) = Some p) /\
  (forall u,
     In u (fetched trace) ->
     In u (url_patterns player_name) /\
     starts_with (str "https://r.jina.ai/https://www.2kratings.com/") (jina_url u)
     = true).
Proof.
  intros players trace. unfold players, trace, search_player.
  assert (Hreq : forall u, In u (url_patterns player_name) ->
            In u (url_patterns player_name) /\
            starts_with (str "https://r.jina.ai/https://www.2kratings.com/")
              (jina_url u) = true).
  { intros u Hu. split; [exact Hu | exact (url_patterns_proxied _ _ Hu)]. }
  destruct (try_patterns_cases (Jina.scrape_url session_get)
              (url_patterns player_name))
    as [Hall|(before & u & rest & c & p & Hp & Hb & Hu & Hc & Hpd)].
  - rewrite (try_patterns_all_fail _ _ Hall). cbn [fst snd].
    split; [|split].
    + split; [|reflexivity]. intros _ u c Hin.
      now apply scrape_url_no_record, Hall.
    + intros p [].
    + intros u Hin. apply Hreq.
      destruct (fetched_failed_attempts (url_patterns player_name) []) as [H1 _].
      rewrite !app_nil_r in H1. now rewrite H1 in Hin.
  - rewrite Hp in *.
    rewrite (try_patterns_first_record _ before u rest c p Hb Hu Hc Hpd).
    pose proof (parse_player_page_url _ _ _ Hpd) as Hurl.
    cbn [fst snd].
    split; [|split].
    + split; [discriminate|]. intros H. exfalso.
      destruct (H u c) as [E|E].
      * apply in_or_app; right; now left.
      * now apply scrape_url_content.
      * contradiction.
      * congruence.
    + intros q [<-|[]]. rewrite Hurl. exists c.
      split; [apply in_or_app; right; now left|].
      split; [now apply scrape_url_content|]. split; assumption.
    + intros v Hin. apply Hreq.
      destruct (fetched_failed_attempts before [Fetch u]) as [H1 _].
      rewrite H1 in Hin. cbn [fetched] in Hin.
      apply in_app_or in Hin. apply in_or_app.
      destruct Hin as [Hin|[<-|[]]]; [now left | right; now left].
Qed.

Lemma search_reads_only_status_200_witness :
  fst (search_player (Jina.scrape_url not_found_everywhere) (str "Stephen Curry"))
  = [] /\
  fst (search_player (Jina.scrape_url long_rating_everywhere)
         (str "Stephen Curry"))
  = [].
Proof.
  split.
  - pose proof (search_reads_only_status_200 not_found_everywhere
                  (str "Stephen Curry")) as H.
    cbv zeta in H. destruct H as (H1 & _).
    apply H1. intros u c _ Hc. discriminate Hc.
  - pose proof (search_reads_only_status_200 long_rating_everywhere
                  (str "Stephen Curry")) as H.
    cbv zeta in H. destruct H as (H1 & _).
    apply H1. intros u c _ Hc. right. inversion Hc; subst c.
    apply long_rating_gives_no_record.
Defined.

(* ================================================================== *)
(** * The file [main] writes *)

Lemma player_name_one_line (html_content player_name : text) :
  player_name_of html_content = Ret player_name -> ~ In LF player_name.
Proof.
  intros H. destruct (find (str "Title:") html_content) as [i|] eqn:E.
  - rewrite (player_name_of_marked _ _ E) in H. inversion H; subst.
    unfold without_boilerplate. intros Hin. apply strip_In in Hin.
    apply replace_gas_In in Hin. apply replace_gas_In in Hin.
    exact (title_of_one_line _ _ Hin).
  - unfold player_name_of, contains in H. rewrite E in H. inversion H; subst.
    vm_compute. intuition discriminate.
Qed.

Lemma file_char_plain (c : ascii) :
  file_char c <> " "%char /\ is_upper_ascii (file_char c) = false /\
  (file_char c = LF -> c = LF).
Proof.
  destruct c as [[] [] [] [] [] [] [] []]; vm_compute; repeat split;
    (reflexivity || discriminate).
Qed.

(** X24. The path [main] builds for the file of a record parsed from a
    page is "output/player_data_" followed by a form of the player name and
    ".json" (with the POSIX separator); it holds no space, no ASCII capital
    and no line break.  Stated for names of characters up to U+00FF. *)
Theorem output_path_is_plain (html_content u : text) (p : PlayerData) :
  parse_player_page html_content u = Some p ->
  (exists stem,
     output_path p = str "output/player_data_" ++ stem ++ str ".json") /\
  ~ In " "%char (output_path p) /\
  ~ In LF (output_path p) /\
  Forall (fun c => is_upper_ascii c = false) (output_path p).
Proof.
  intros Hp.
  destruct (parse_player_page_fields _ _ _ Hp) as (Hname & _).
  pose proof (player_name_one_line _ _ Hname) as Hline.
  assert (E : output_path p
              = str "output/player_data_" ++ map file_char (name p) ++ str ".json").
  { unfold output_path, output_filename, replace, lower.
    rewrite (replace_char_map " " "_" _ _ (le_n _)), map_map. reflexivity. }
  split; [exists (map file_char (name p)); exact E|]. rewrite E.
  assert (Hin : forall x, In x (str "output/player_data_" ++ map file_char (name p)
                                 ++ str ".json") ->
            In x (str "output/player_data_.json") \/
            exists c, In c (name p) /\ x = file_char c).
  { intros x H. apply in_app_or in H. destruct H as [H|H].
    - left. change (str "output/player_data_.json")
        with (str "output/player_data_" ++ str ".json").
      apply in_or_app. now left.
    - apply in_app_or in H. destruct H as [H|H].
      + right. apply in_map_iff in H. destruct H as (c & <- & Hc). eauto.
      + left. change (str "output/player_data_.json")
          with (str "output/player_data_" ++ str ".json").
        apply in_or_app. now right. }
  split; [|split].
  - intros H. destruct (Hin _ H) as [H'|(c & _ & Hc)].
    + vm_compute in H'. intuition discriminate.
    + exact (proj1 (file_char_plain c) (eq_sym Hc)).
  - intros H. destruct (Hin _ H) as [H'|(c & Hc & Hx)].
    + vm_compute in H'. intuition discriminate.
    + apply Hline.
      rewrite (proj2 (proj2 (file_char_plain c)) (eq_sym Hx)) in Hc. exact Hc.
  - apply Forall_forall. intros x H. destruct (Hin _ H) as [H'|(c & _ & ->)].
    + vm_compute in H'.
      repeat (destruct H' as [<-|H']; [reflexivity|]). contradiction.
    + exact (proj1 (proj2 (file_char_plain c))).
Qed.

Lemma output_path_is_plain_witness :
  exists p,
    parse_player_page doc_rating_leading_zero (str "u") = Some p /\
    output_path p = str "output/player_data_rookie.json" /\
    ~ In " "%char (output_path p).
Proof.
  destruct (parse_player_page doc_rating_leading_zero (str "u")) as [p|] eqn:Ep;
    [|vm_compute in Ep; discriminate Ep].
  exists p. split; [reflexivity|]. split.
  - revert Ep. vm_compute. intros Ep. inversion Ep. reflexivity.
  - exact (proj1 (proj2 (output_path_is_plain _ _ _ Ep))).
Defined.
